(** * Travel planner: extraction, dialogue state machine, preference filter
      and itinerary composer of [travel_planner.py], embedded in Rocq.

    Modelling conventions.
    - A Python [str] is a [string] of 7-bit characters; [str.lower] maps
      [A-Z] to [a-z], the regular-expression classes [\d], [\s], [\w] are
      their ASCII parts (with the Unicode-mode separators 28..31 in [\s]).
    - A Python [int] is a [Z]; [int(digits)] raises [ValueError] when
      the string has more than 4300 digits, the limit of CPython 3.11
      and later ([sys.int_max_str_digits]).
    - A Python [float] is a binary64 value kept as a dyadic pair
      [(m, e)] meaning [m * 2^e]; products and quotients are rounded to
      nearest, ties to even, to 53 significant bits.
    - A [dict] with string keys is a [gmap string _]; a missing key and a
      key bound to [None] are distinct, as in Python.
    - Code that may raise returns a [result]; [try/except Exception] is
      [catch].
    - Everything the program obtains from outside (providers, the clock,
      the random source, the iteration order of a [set]) is a field of a
      [World] record. *)

From stdpp Require Import gmap strings list.
From Stdlib Require Import ZArith Ascii String Lia.

Local Open Scope string_scope.
Local Open Scope Z_scope.

(** ** Python values, truthiness and exceptions *)

Module Py.

(** JSON numbers with a fractional part are kept as decimals
    [mantissa / 10^scale]. *)
Inductive val :=
| PyNone
| PyBool (b : bool)
| PyInt (z : Z)
| PyDec (mantissa : Z) (scale : nat)
| PyStr (s : string)
| PyList (l : list string).

Definition truthy (v : val) : bool :=
  match v with
  | PyNone => false
  | PyBool b => b
  | PyInt z => negb (z =? 0)
  | PyDec m _ => negb (m =? 0)
  | PyStr s => negb (String.eqb s "")
  | PyList l => match l with [] => false | _ => true end
  end.

Definition is_str (v : val) : bool :=
  match v with PyStr _ => true | _ => false end.

Inductive exn :=
| AttributeError (msg : string)
| KeyError (key : string)
| TypeError (msg : string)
| ValueError (msg : string)
| ZeroDivisionError (msg : string)
| OverflowError (msg : string).

(** [str(e)] for an exception [e]. *)
Definition exn_str (e : exn) : string :=
  match e with
  | AttributeError m => m
  | KeyError k => "'" ++ k ++ "'"
  | TypeError m => m
  | ValueError m => m
  | ZeroDivisionError m => m
  | OverflowError m => m
  end.

Inductive result (A : Type) :=
| Ok (a : A)
| Raise (e : exn).
Arguments Ok {A} a.
Arguments Raise {A} e.

Definition bind {A B} (r : result A) (f : A -> result B) : result B :=
  match r with Ok a => f a | Raise e => Raise e end.

(** [try: body  except Exception as e: handler e]. *)
Definition catch {A} (body : result A) (handler : exn -> result A) : result A :=
  match body with Ok a => Ok a | Raise e => handler e end.

Definition no_attr (ty attr : string) : exn :=
  AttributeError ("'" ++ ty ++ "' object has no attribute '" ++ attr ++ "'").

Definition type_name (v : val) : string :=
  match v with
  | PyNone => "NoneType"
  | PyBool _ => "bool"
  | PyInt _ => "int"
  | PyDec _ _ => "float"
  | PyStr _ => "str"
  | PyList _ => "list"
  end.

End Py.
Export Py.

#[global] Instance result_bind : MBind result := fun A B f r => Py.bind r f.
#[global] Instance result_ret : MRet result := fun A a => Ok a.

(** ** Strings *)

Module Str.

Definition code (c : ascii) : N := N_of_ascii c.

Definition is_digit (c : ascii) : bool :=
  ((48 <=? code c) && (code c <=? 57))%N.
Definition is_upper (c : ascii) : bool :=
  ((65 <=? code c) && (code c <=? 90))%N.
Definition is_lower (c : ascii) : bool :=
  ((97 <=? code c) && (code c <=? 122))%N.
Definition is_alpha (c : ascii) : bool := is_upper c || is_lower c.
(** [\s] *)
Definition is_space (c : ascii) : bool :=
  ((9 <=? code c) && (code c <=? 13) || (28 <=? code c) && (code c <=? 32))%N.
(** [\w] *)
Definition is_word (c : ascii) : bool :=
  is_alpha c || is_digit c || Ascii.eqb c "_".

Definition lower_char (c : ascii) : ascii :=
  if is_upper c then ascii_of_N (code c + 32) else c.
Definition upper_char (c : ascii) : ascii :=
  if is_lower c then ascii_of_N (code c - 32) else c.

(** [s.lower()] *)
Fixpoint lower (s : string) : string :=
  match s with
  | EmptyString => EmptyString
  | String c s' => String (lower_char c) (lower s')
  end.

Fixpoint startswith (p s : string) : bool :=
  match p, s with
  | EmptyString, _ => true
  | String a p', String b s' => Ascii.eqb a b && startswith p' s'
  | String _ _, EmptyString => false
  end.

(** [p in s] for strings. *)
Fixpoint str_in (p s : string) : bool :=
  startswith p s ||
  match s with
  | EmptyString => false
  | String _ s' => str_in p s'
  end.

Fixpoint filter_chars (f : ascii -> bool) (s : string) : string :=
  match s with
  | EmptyString => EmptyString
  | String c s' => if f c then String c (filter_chars f s') else filter_chars f s'
  end.

Fixpoint all_chars (f : ascii -> bool) (s : string) : bool :=
  match s with
  | EmptyString => true
  | String c s' => f c && all_chars f s'
  end.

Fixpoint take (n : nat) (s : string) : string :=
  match n, s with
  | S n', String c s' => String c (take n' s')
  | _, _ => EmptyString
  end.

Definition digit_val (c : ascii) : Z := Z.of_N (code c) - 48.

Fixpoint int_acc (acc : Z) (s : string) : Z :=
  match s with
  | EmptyString => acc
  | String c s' => int_acc (10 * acc + digit_val c) s'
  end.

(** [int(s)] for a string of decimal digits. *)
Definition int_of_digits (s : string) : Z := int_acc 0 s.

Fixpoint lstrip (s : string) : string :=
  match s with
  | String c s' => if is_space c then lstrip s' else s
  | EmptyString => EmptyString
  end.

Fixpoint rstrip (s : string) : string :=
  match s with
  | EmptyString => EmptyString
  | String c s' =>
      match rstrip s' with
      | EmptyString => if is_space c then EmptyString else String c EmptyString
      | r => String c r
      end
  end.

(** [s.strip()] *)
Definition strip (s : string) : string := rstrip (lstrip s).

(** [s.title()]: a cased character is upper-cased when the previous
    character is not cased, lower-cased otherwise. *)
Fixpoint title_from (prev_cased : bool) (s : string) : string :=
  match s with
  | EmptyString => EmptyString
  | String c s' =>
      String (if prev_cased then lower_char c else upper_char c)
             (title_from (is_alpha c) s')
  end.
Definition title (s : string) : string := title_from false s.

Fixpoint join (sep : string) (l : list string) : string :=
  match l with
  | [] => ""
  | [x] => x
  | x :: l' => x ++ sep ++ join sep l'
  end.

Fixpoint split_from (sep : string) (fuel : nat) (cur : string) (s : string)
  : list string :=
  match fuel with
  | O => [cur ++ s]
  | S fuel' =>
      if startswith sep s then
        cur :: split_from sep fuel' "" (String.substring (String.length sep)
                                         (String.length s - String.length sep) s)
      else match s with
           | EmptyString => [cur]
           | String c s' => split_from sep fuel' (cur ++ String c "") s'
           end
  end.

(** [s.split(sep)] for a non-empty separator. *)
Definition split (sep s : string) : list string :=
  split_from sep (S (String.length s)) "" s.

Fixpoint repeat_str (n : nat) (s : string) : string :=
  match n with O => "" | S n' => s ++ repeat_str n' s end.

Fixpoint digits_of_pos (fuel : nat) (n : Z) (acc : string) : string :=
  match fuel with
  | O => acc
  | S fuel' =>
      let acc' := String (ascii_of_N (Z.to_N (n mod 10) + 48)) acc in
      if n <? 10 then acc' else digits_of_pos fuel' (n / 10) acc'
  end.

(** [str(n)] for an integer. *)
Definition str_of_Z (n : Z) : string :=
  if n <? 0 then "-" ++ digits_of_pos (Z.to_nat (Z.log2 (- n)) + 1) (- n) ""
  else digits_of_pos (Z.to_nat (Z.log2 n) + 1) n "".

Fixpoint group3 (fuel : nat) (n : Z) (acc : string) : string :=
  match fuel with
  | O => acc
  | S fuel' =>
      if n <? 1000 then str_of_Z n ++ acc
      else
        let d := n mod 1000 in
        let pad := if d <? 10 then "00" else if d <? 100 then "0" else "" in
        group3 fuel' (n / 1000) ("," ++ pad ++ str_of_Z d ++ acc)
  end.

(** [f"{n:,}"] *)
Definition fmt_commas (n : Z) : string :=
  if n <? 0 then "-" ++ group3 (Z.to_nat (Z.log2 (- n)) + 1) (- n) ""
  else group3 (Z.to_nat (Z.log2 n) + 1) n "".

End Str.
Export Str.

(** [str(v)] and [f"{v}"] *)
Definition py_str (v : val) : string :=
  match v with
  | PyNone => "None"
  | PyBool true => "True"
  | PyBool false => "False"
  | PyInt z => str_of_Z z
  | PyDec m k =>
      let a := Z.abs m in
      let p := 10 ^ Z.of_nat k in
      let frac := str_of_Z (a mod p) in
      (if m <? 0 then "-" else "") ++ str_of_Z (a / p) ++ "." ++
      repeat_str (k - String.length frac) "0" ++ frac
  | PyStr s => s
  | PyList l => "[" ++ join ", " (map (fun s => "'" ++ s ++ "'") l) ++ "]"
  end.

(** ** Regular expressions with the backtracking semantics of [re] *)

Module Re.

Inductive re :=
| Chr (p : ascii -> bool)      (* one character of a class *)
| Lit (s : string)             (* a literal string *)
| Cat (r1 r2 : re)
| Or (r1 r2 : re)              (* ordered alternation *)
| Opt (r : re)                 (* r?  greedy *)
| Star (r : re)                (* r*  greedy *)
| PlusLazy (r : re)            (* r+? *)
| Grp (n : nat) (r : re)       (* capturing group number n *)
| Bol                          (* ^ *)
| Eol                          (* $ *)
| Wordb.                       (* \b *)

(** r+ greedy *)
Definition Plus (r : re) : re := Cat r (Star r).

(** The groups that took part in a match, with their text. *)
Definition caps := list (nat * string).

(** The newest entry of a group comes first and is the one [group] finds. *)
Definition set_cap (n : nat) (s : string) (c : caps) : caps := (n, s) :: c.

Fixpoint group (c : caps) (n : nat) : option string :=
  match c with
  | [] => None
  | (k, s) :: c' => if Nat.eqb k n then Some s else group c' n
  end.

Definition word_before (prev : option ascii) : bool :=
  match prev with Some c => is_word c | None => false end.
Definition word_after (s : string) : bool :=
  match s with String c _ => is_word c | EmptyString => false end.

Definition shorter (s' s : string) : bool :=
  Nat.ltb (String.length s') (String.length s).

(** A continuation: what is left to match after a position. *)
Definition cont (A : Type) : Type := option ascii -> string -> caps -> option A.

(** A literal string. *)
Fixpoint lit {A} (l : string) (prev : option ascii) (s : string) (c : caps)
  (k : cont A) : option A :=
  match l with
  | EmptyString => k prev s c
  | String a l' =>
      match s with
      | String b s' => if Ascii.eqb a b then lit l' (Some b) s' c k else None
      | EmptyString => None
      end
  end.

(** Greedy repetition of [step]: one more round first, the rest of the
    pattern when that fails.  A round that consumes nothing is refused. *)
Fixpoint star_loop {A} (step : option ascii -> string -> caps -> cont A -> option A)
  (k : cont A) (fuel : nat) (prev : option ascii) (s : string) (c : caps)
  : option A :=
  match fuel with
  | O => k prev s c
  | S fuel' =>
      match step prev s c
              (fun prev' s' c' =>
                 if shorter s' s then star_loop step k fuel' prev' s' c' else None)
      with
      | Some x => Some x
      | None => k prev s c
      end
  end.

(** Lazy repetition, at least once: the rest of the pattern first, one
    more round when that fails. *)
Fixpoint lazy_loop {A} (step : option ascii -> string -> caps -> cont A -> option A)
  (k : cont A) (fuel : nat) (prev : option ascii) (s : string) (c : caps)
  : option A :=
  step prev s c
    (fun prev' s' c' =>
       match k prev' s' c' with
       | Some x => Some x
       | None =>
           match fuel with
           | O => None
           | S fuel' =>
               if shorter s' s then lazy_loop step k fuel' prev' s' c' else None
           end
       end).

(** [m r prev s c k]: match [r] at a position whose previous character is
    [prev] and whose remaining text is [s], then continue with [k]; the
    first success in the order of the backtracking search is returned. *)
Fixpoint m {A} (r : re) (prev : option ascii) (s : string) (c : caps)
  (k : cont A) {struct r} : option A :=
  match r with
  | Chr p =>
      match s with
      | String a s' => if p a then k (Some a) s' c else None
      | EmptyString => None
      end
  | Lit l => lit l prev s c k
  | Cat r1 r2 => m r1 prev s c (fun prev' s' c' => m r2 prev' s' c' k)
  | Or r1 r2 =>
      match m r1 prev s c k with
      | Some x => Some x
      | None => m r2 prev s c k
      end
  | Opt r1 =>
      match m r1 prev s c k with
      | Some x => Some x
      | None => k prev s c
      end
  | Star r1 => star_loop (m r1) k (String.length s) prev s c
  | PlusLazy r1 => lazy_loop (m r1) k (String.length s) prev s c
  | Grp n r1 =>
      m r1 prev s c
        (fun prev' s' c' =>
           k prev' s' (set_cap n (take (String.length s - String.length s') s) c'))
  | Bol => match prev with None => k prev s c | Some _ => None end
  | Eol =>
      match s with
      | EmptyString => k prev s c
      | String a EmptyString => if Ascii.eqb a "010" then k prev s c else None
      | _ => None
      end
  | Wordb =>
      if xorb (word_before prev) (word_after s) then k prev s c else None
  end.

Definition match_here (r : re) (prev : option ascii) (s : string) : option caps :=
  m r prev s [] (fun _ _ c => Some c).

Fixpoint search_from (r : re) (prev : option ascii) (s : string) : option caps :=
  match match_here r prev s with
  | Some c => Some c
  | None =>
      match s with
      | EmptyString => None
      | String a s' => search_from r (Some a) s'
      end
  end.

(** [re.search(r, s)]: the leftmost match. *)
Definition search (r : re) (s : string) : option caps := search_from r None s.

Definition found (r : re) (s : string) : bool :=
  match search r s with Some _ => true | None => false end.

(** [|] of several alternatives in order. *)
Fixpoint alt (rs : list re) : re :=
  match rs with
  | [] => Chr (fun _ => false)
  | [r] => r
  | r :: rs' => Or r (alt rs')
  end.

(** Concatenation of several parts. *)
Fixpoint seq (rs : list re) : re :=
  match rs with
  | [] => Lit ""
  | [r] => r
  | r :: rs' => Cat r (seq rs')
  end.

Definition digit : re := Chr is_digit.                           (* \d *)
Definition space : re := Chr is_space.                           (* \s *)
Definition dot : re := Chr (fun c => negb (Ascii.eqb c "010")).  (* . *)
(** \bword\b. *)
Definition whole (w : string) : re := seq [Wordb; Lit w; Wordb].

End Re.
Export Re.

(** ** Numeric normalisation of the stored strings *)

(** [re.search(r'(\d+)', s)] *)
Definition first_integer_re : re := Grp 1 (Plus digit).

(** The most digits that [int] converts, [sys.int_max_str_digits]. *)
Definition int_max_str_digits : nat := 4300.

(** [int(s)] for a non-empty string of decimal digits. *)
Definition py_int (s : string) : result Z :=
  if (int_max_str_digits <? String.length s)%nat
  then Raise (ValueError
                ("Exceeds the limit (4300 digits) for integer string conversion: value has "
                 ++ str_of_Z (Z.of_nat (String.length s))
                 ++ " digits; use sys.set_int_max_str_digits() to increase the limit"))
  else Ok (int_of_digits s).

(** The [try] part of [extract_days].  ([str] of an integer beyond the
    limit raises as well; the digits of its text are then beyond the
    limit of [int], which gives the same result.) *)
Definition extract_days_body (duration_str : val) : result Z :=
  if negb (truthy duration_str) then Ok 5
  else
    let duration_str := lower (py_str duration_str) in
    if str_in "week" duration_str then Ok 7
    else if str_in "month" duration_str then Ok 30
    else
      match search first_integer_re duration_str with
      | Some days_match =>
          match group days_match 1 with
          | Some d => py_int d
          | None =>
              Raise (TypeError ("int() argument must be a string, a bytes-like object " ++
                                "or a real number, not 'NoneType'"))
          end
      | None => Ok 5
      end.

(** [extract_days(duration_str)] *)
Definition extract_days (duration_str : val) : Z :=
  match extract_days_body duration_str with
  | Ok days => days
  | Raise _ => 5
  end.

(** The [try] part of [extract_budget]. *)
Definition extract_budget_body (budget_str : val) : result Z :=
  if negb (truthy budget_str) then Ok 2000
  else
    let budget_str := lower (py_str budget_str) in
    if str_in "luxury" budget_str || str_in "high" budget_str then Ok 5000
    else if str_in "moderate" budget_str || str_in "medium" budget_str then Ok 2500
    else if str_in "budget" budget_str || str_in "low" budget_str
            || str_in "cheap" budget_str then Ok 1000
    else
      let budget_num := filter_chars is_digit budget_str in
      if String.eqb budget_num "" then Ok 2000 else py_int budget_num.

(** [extract_budget(budget_str)] *)
Definition extract_budget (budget_str : val) : Z :=
  match extract_budget_body budget_str with
  | Ok budget => budget
  | Raise _ => 2000
  end.

(** ** The outside world *)

(** A recommendation item, a weather report: dictionaries. *)
Abbreviation item := (gmap string val).

Record World := {
  (** the order in which [list(set(l))] yields the distinct elements of [l] *)
  set_iter : list string -> list string;
  (** [get_tripadvisor_attractions(destination, interests)]: the items, and
      whether the web-search fallback ran *)
  tripadvisor_attractions : string -> option (list string) -> list item * bool;
  (** [get_google_places(destination, query, budget_filter)] *)
  google_places : string -> val -> option Z -> list item * bool;
  (** [get_web_based_recommendations(destination, interests)]: the items,
      and whether the call reached the line that sets the flag *)
  web_based_recommendations : string -> val -> list item * bool;
  (** [get_weather_forecast(destination, date)] for the date of a day *)
  weather_forecast : string -> Z -> option item;
  (** [strftime("%A, %B %d")] of the date of a day; computing the date
      raises [OverflowError] once it leaves the calendar *)
  date_str : Z -> result string;
  (** the successive draws of the random source *)
  random_draw : nat -> nat
}.

(** ** Extraction *)

(** The patterns are written out constructor by constructor; each comes
    with its source text. *)

(** [(?:day|week|month)] *)
Definition unit_re : re := alt [Lit "day"; Lit "week"; Lit "month"].

(** [(?:going to|visiting|travel(?:ing)? to|destination is?|in|trip to|heading to|visit|go to)\s*(.+?)(?:\s|,|\.|$)|^(paris|rome|london|new york|tokyo)\b] *)
Definition destination_re : re :=
  Or (seq [alt [Lit "going to"; Lit "visiting";
                seq [Lit "travel"; Opt (Lit "ing"); Lit " to"];
                seq [Lit "destination i"; Opt (Lit "s")];
                Lit "in"; Lit "trip to"; Lit "heading to"; Lit "visit";
                Lit "go to"];
           Star space;
           Grp 1 (PlusLazy dot);
           alt [space; Lit ","; Lit "."; Eol]])
     (seq [Bol;
           Grp 2 (alt [Lit "paris"; Lit "rome"; Lit "london"; Lit "new york";
                       Lit "tokyo"]);
           Wordb]).

(** [(\d+)\s?(?:day|week|month)s?\b|for\s(\d+)\s(?:day|week|month)s?\b|(\d+)-day] *)
Definition duration_re : re :=
  alt [seq [Grp 1 (Plus digit); Opt space; unit_re; Opt (Lit "s"); Wordb];
       seq [Lit "for"; space; Grp 2 (Plus digit); space; unit_re; Opt (Lit "s");
            Wordb];
       seq [Grp 3 (Plus digit); Lit "-day"]].

(** [(?:budget|price|cost)\s?(?:of|is|around)?\s?(\$?\d+(?:,\d{3})*(?:\.\d{2})?)(?:\s|$)|(\d+)\s?(?:dollars|USD|EUR)|\$(\d+)|(low|moderate|medium|high|luxury)\s?budget] *)
Definition budget_re : re :=
  alt [seq [alt [Lit "budget"; Lit "price"; Lit "cost"];
            Opt space;
            Opt (alt [Lit "of"; Lit "is"; Lit "around"]);
            Opt space;
            Grp 1 (seq [Opt (Lit "$"); Plus digit;
                        Star (seq [Lit ","; digit; digit; digit]);
                        Opt (seq [Lit "."; digit; digit])]);
            alt [space; Eol]];
       seq [Grp 2 (Plus digit); Opt space;
            alt [Lit "dollars"; Lit "USD"; Lit "EUR"]];
       seq [Lit "$"; Grp 3 (Plus digit)];
       seq [Grp 4 (alt [Lit "low"; Lit "moderate"; Lit "medium"; Lit "high";
                        Lit "luxury"]);
            Opt space; Lit "budget"]].

(** The tables of the single-valued fields and of the interests, in the
    order of the source; [whole w] is [\bw\b]. *)
Definition purpose_map : list (re * string) :=
  [(whole "vacation", "Leisure"); (whole "holiday", "Leisure");
   (whole "business", "Business"); (whole "work", "Business");
   (whole "honeymoon", "Honeymoon"); (whole "anniversary", "Anniversary");
   (whole "family", "Family"); (whole "solo", "Solo");
   (whole "couple", "Romantic"); (whole "friends", "Friends")].

Definition interest_map : list (re * string) :=
  [(whole "art", "Art"); (whole "museum", "Art");
   (whole "history", "History"); (whole "historical", "History");
   (whole "food", "Food"); (whole "cuisine", "Food");
   (whole "eating", "Food"); (whole "restaurant", "Food");
   (whole "adventure", "Adventure"); (whole "hiking", "Adventure");
   (whole "outdoor", "Adventure"); (whole "relax", "Relaxation");
   (whole "spa", "Relaxation"); (whole "beach", "Relaxation");
   (whole "shop", "Shopping"); (whole "nature", "Nature");
   (whole "park", "Nature"); (whole "photography", "Photography");
   (whole "architecture", "Architecture")].

(** [[\s-]] *)
Definition space_or_dash : re :=
  Chr (fun c => is_space c || Ascii.eqb c "-").

Definition dietary_map : list (re * string) :=
  [(whole "vegetarian", "Vegetarian"); (whole "vegan", "Vegan");
   (seq [Wordb; Lit "gluten"; Opt space_or_dash; Lit "free"; Wordb], "Gluten-free");
   (whole "kosher", "Kosher"); (whole "halal", "Halal");
   (seq [Wordb; Lit "lactose"; Opt space_or_dash; Lit "free"; Wordb], "Dairy-free");
   (seq [Wordb; Lit "nut"; Opt space_or_dash; Lit "free"; Wordb], "Nut-free");
   (whole "pescatarian", "Pescatarian")].

Definition mobility_map : list (re * string) :=
  [(whole "mobility", "Limited mobility");
   (whole "wheelchair", "Wheelchair accessible");
   (whole "disability", "Accessibility needed");
   (seq [Wordb; Lit "walking"; Plus space; Lit "difficult"; Wordb], "Limited walking");
   (whole "accessibility", "Accessibility needed");
   (seq [Wordb; Lit "physical"; Plus space; Lit "limitation"; Wordb],
    "Limited mobility")].

Definition accom_map : list (re * string) :=
  [(whole "luxur", "Luxury"); (whole "boutique", "Boutique");
   (whole "budget", "Budget"); (whole "hostel", "Hostel");
   (whole "airbnb", "Vacation rental"); (whole "central", "Central location");
   (whole "quiet", "Quiet area"); (whole "resort", "Resort");
   (whole "apartment", "Apartment"); (whole "guesthouse", "Guesthouse");
   (whole "b&b", "Bed and breakfast")].

(** [for pattern, label in table.items(): if re.search(...): ...; break] *)
Fixpoint first_label (table : list (re * string)) (text : string) : option string :=
  match table with
  | [] => None
  | (pattern, label) :: table' =>
      if found pattern text then Some label else first_label table' text
  end.

(** [for pattern, label in table.items(): if re.search(...): l.append(label)] *)
Fixpoint all_labels (table : list (re * string)) (text : string) : list string :=
  match table with
  | [] => []
  | (pattern, label) :: table' =>
      if found pattern text then label :: all_labels table' text
      else all_labels table' text
  end.

(** [a or b] on match groups: the first one that is a non-empty string. *)
Fixpoint first_group (c : caps) (ns : list nat) : option string :=
  match ns with
  | [] => None
  | n :: ns' =>
      match group c n with
      | Some g => if String.eqb g "" then first_group c ns' else Some g
      | None => first_group c ns'
      end
  end.

Definition set_if {A} (k : string) (v : option A) (m : gmap string A) : gmap string A :=
  match v with Some x => <[k := x]> m | None => m end.

Definition extract_destination (text_lower : string) : option string :=
  match search destination_re text_lower with
  | Some destination_match =>
      match first_group destination_match [1; 2]%nat with
      | Some dest =>
          Some (title (strip (filter_chars (fun c => is_alpha c || is_space c) dest)))
      | None => None
      end
  | None => None
  end.

Definition extract_duration (text_lower : string) : option string :=
  match search duration_re text_lower with
  | Some duration_match =>
      match first_group duration_match [1; 2; 3]%nat with
      | Some duration => Some (duration ++ " days")
      | None => None
      end
  | None => None
  end.

Definition extract_budget_text (text_lower : string) : option string :=
  match search budget_re text_lower with
  | Some budget_match => first_group budget_match [1; 2; 3; 4]%nat
  | None => None
  end.

Definition extract_interests (w : World) (text_lower : string) : option string :=
  match all_labels interest_map text_lower with
  | [] => None
  | interests => Some (join ", " (set_iter w interests))
  end.

(** [extract_travel_info(text)]: the mapping of the detected fields. *)
Definition extract_travel_info (w : World) (text : val) : gmap string string :=
  match text with
  | PyStr t =>
      if String.eqb t "" then ∅
      else
        let text_lower := lower t in
        set_if "accommodation_preference" (first_label accom_map text_lower)
        (set_if "mobility_concerns" (first_label mobility_map text_lower)
        (set_if "dietary_restrictions" (first_label dietary_map text_lower)
        (set_if "interests" (extract_interests w text_lower)
        (set_if "purpose" (first_label purpose_map text_lower)
        (set_if "budget" (extract_budget_text text_lower)
        (set_if "duration" (extract_duration text_lower)
        (set_if "destination" (extract_destination text_lower) ∅)))))))
  | _ => ∅
  end.

(** The order of first occurrence: one possible iteration order of a set. *)
Fixpoint dedup_first (seen : list string) (l : list string) : list string :=
  match l with
  | [] => []
  | x :: l' =>
      if existsb (String.eqb x) seen then dedup_first seen l'
      else x :: dedup_first (x :: seen) l'
  end.

(** ** Dictionaries and attribute access *)

(** [d.get(k)] *)
Definition dget (d : gmap string val) (k : string) : val := default PyNone (d !! k).
(** [d.get(k, dflt)] *)
Definition dget_or (d : gmap string val) (k : string) (dflt : val) : val :=
  default dflt (d !! k).
(** [d[k]] *)
Definition dindex (d : gmap string val) (k : string) : result val :=
  match d !! k with Some v => Ok v | None => Raise (KeyError k) end.
(** [k in d] *)
Definition has_key (d : gmap string val) (k : string) : bool :=
  match d !! k with Some _ => true | None => false end.

(** [v.lower()] *)
Definition py_lower (v : val) : result string :=
  match v with
  | PyStr s => Ok (lower s)
  | _ => Raise (no_attr (type_name v) "lower")
  end.
(** [v.title()] *)
Definition py_title (v : val) : result string :=
  match v with
  | PyStr s => Ok (title s)
  | _ => Raise (no_attr (type_name v) "title")
  end.
(** [v.split(', ')] *)
Definition py_split (v : val) : result (list string) :=
  match v with
  | PyStr s => Ok (split ", " s)
  | _ => Raise (no_attr (type_name v) "split")
  end.

(** [for x in l: ...] with a body that may raise. *)
Fixpoint for_each {A B} (f : B -> A -> result B) (l : list A) (acc : B) : result B :=
  match l with
  | [] => Ok acc
  | x :: l' => acc' ← f acc x; for_each f l' acc'
  end.

(** ** Preference filter *)

(** The three keep-conditions of the loop body, in their order. *)
Definition keep_item (interests : list string) (preferences item : gmap string val)
  : result bool :=
  by_interest ←
    (match interests with
     | [] => Ok false
     | _ =>
         item_name ← py_lower (dget_or item "name" (PyStr ""));
         item_type ← py_lower (dget_or item "type" (PyStr ""));
         Ok (existsb (fun interest =>
                        str_in interest item_name || str_in interest item_type)
                     interests)
     end);
  if by_interest : bool then Ok true
  else
    by_dietary ←
      (if has_key item "dietary" && truthy (dget preferences "dietary_restrictions")
       then
         want ← (d ← dindex preferences "dietary_restrictions"; py_lower d);
         have ← (d ← dindex item "dietary"; py_lower d);
         Ok (str_in want have)
       else Ok false);
    if by_dietary : bool then Ok true
    else
      if has_key item "type" && truthy (dget preferences "accommodation_preference")
      then
        want ← (d ← dindex preferences "accommodation_preference"; py_lower d);
        have ← (d ← dindex item "type"; py_lower d);
        Ok (str_in want have)
      else Ok false.

Definition preference_interests (preferences : gmap string val) : result (list string) :=
  if truthy (dget preferences "interests")
  then s ← py_lower (dget_or preferences "interests" (PyStr "")); Ok (split ", " s)
  else Ok [].

(** [filter_by_preferences(items, preferences)] *)
Definition filter_by_preferences (items : list item) (preferences : gmap string val)
  : result (list item) :=
  if bool_decide (preferences = ∅) || bool_decide (items = []) then Ok items
  else
    interests ← preference_interests preferences;
    filtered ←
      for_each (fun filtered item =>
                  keep ← keep_item interests preferences item;
                  Ok (if keep : bool then (filtered ++ [item])%list else filtered))
               items [];
    Ok (match filtered with [] => firstn 5 items | _ => filtered end).

(** ** Clarification of vague answers *)

(** [refine_vague_input(text, field)] *)
Definition refine_vague_input (text field : string) : option string :=
  let text_lower := lower text in
  let has w := str_in w text_lower in
  let budget :=
    if String.eqb field "budget" then
      if has "moderate" || has "medium" then
        Some "For a moderate budget, I'd suggest $150-$200 per day. Does this range work for you?"
      else if has "low" || has "cheap" || has "budget" then
        Some "For a budget trip, I'd suggest $50-$100 per day. Does this range work for you?"
      else if has "high" || has "luxury" || has "expensive" then
        Some "For a luxury trip, I'd suggest $300+ per day. Does this range work for you?"
      else if has "some" || has "enough" then
        Some "Would you like me to suggest a budget range based on your destination?"
      else None
    else None in
  let duration :=
    if String.eqb field "duration" then
      if has "week" then Some "Would you like me to plan for 7 days (1 week)?"
      else if has "month" then Some "Would you like me to plan for 30 days (1 month)?"
      else if has "long" || has "extended" then
        Some "Would you like me to suggest an ideal duration for your destination?"
      else None
    else None in
  let interests :=
    if String.eqb field "interests" then
      if has "everything" || has "all" then
        Some "I'll include a mix of activities. Any particular favorites among these: cultural, adventure, food, relaxation?"
      else if has "some" || has "few" then
        Some "Would you like me to suggest a balanced mix of activities, or focus on specific types?"
      else if has "not sure" || has "don't know" then
        Some "I can suggest popular activities for your destination. Would you like that?"
      else None
    else None in
  let accommodation :=
    if String.eqb field "accommodation" then
      if has "surprise" || has "you choose" then
        Some "I can select a highly-rated option that fits your budget. Is that okay?"
      else if has "not sure" || has "don't know" then
        Some "Would you like me to suggest the best accommodation types for your destination?"
      else None
    else None in
  match budget, duration, interests, accommodation with
  | Some q, _, _, _ => Some q
  | None, Some q, _, _ => Some q
  | None, None, Some q, _ => Some q
  | None, None, None, q => q
  end.

(** ** Next question *)

Definition required_fields : list string :=
  ["destination"; "duration"; "budget"; "purpose"; "interests";
   "dietary_restrictions"; "mobility_concerns"; "accommodation_preference"].

Fixpoint first_missing (fields : list string) (user_info : gmap string val)
  : option string :=
  match fields with
  | [] => None
  | field :: fields' =>
      if negb (truthy (dget user_info field)) then Some field
      else first_missing fields' user_info
  end.

(** [get_next_question(user_info)] *)
Definition get_next_question (user_info : gmap string val) : string :=
  match first_missing required_fields user_info with
  | Some field => "get_" ++ field
  | None => "confirm_generate"
  end.

(** ** Binary64 arithmetic on non-negative values *)

Module F64.

(** A finite value [m * 2^e], an infinity, or a NaN.  Budgets and day
    counts are never negative, so no sign is carried. *)
Inductive float :=
| Fin (m e : Z)
| Inf
| NaN.

(** The integer nearest to [num / den], ties to even. *)
Definition rne (num den : Z) : Z :=
  let q := num / den in
  let r2 := 2 * (num mod den) in
  if r2 <? den then q
  else if den <? r2 then q + 1
  else if Z.even q then q else q + 1.

(** The exponent [ex] with [2^ex <= num / den < 2^(ex+1)]. *)
Definition binade (num den : Z) : Z :=
  let d := Z.log2 num - Z.log2 den in
  let below := if 0 <=? d then num <? den * 2 ^ d else num * 2 ^ (- d) <? den in
  if below then d - 1 else d.

(** The binary64 value nearest to [num / den], for [0 <= num], [0 < den]:
    53 significant bits, least exponent -1074, overflow to infinity. *)
Definition round (num den : Z) : float :=
  if num =? 0 then Fin 0 0
  else
    let e := Z.max (binade num den - 52) (-1074) in
    let m := if 0 <=? e then rne num (den * 2 ^ e) else rne (num * 2 ^ (- e)) den in
    if (971 <? e) || ((e =? 971) && (2 ^ 53 <=? m)) then Inf else Fin m e.

(** [m * 2^e] as a fraction. *)
Definition round_scaled (m e : Z) : float :=
  if 0 <=? e then round (m * 2 ^ e) 1 else round m (2 ^ (- e)).

(** [float(n)] for an integer [n >= 0]. *)
Definition of_int (n : Z) : result float :=
  match round n 1 with
  | Inf => Raise (OverflowError "int too large to convert to float")
  | f => Ok f
  end.

(** [a * b] *)
Definition mul (a b : float) : float :=
  match a, b with
  | Fin m1 e1, Fin m2 e2 => round_scaled (m1 * m2) (e1 + e2)
  | NaN, _ | _, NaN => NaN
  | Inf, Fin m _ | Fin m _, Inf => if m =? 0 then NaN else Inf
  | Inf, Inf => Inf
  end.

(** [a / b] *)
Definition div (a b : float) : result float :=
  match a, b with
  | _, Fin 0 _ => Raise (ZeroDivisionError "float division by zero")
  | Fin m1 e1, Fin m2 e2 =>
      Ok (if 0 <=? e1 - e2 then round (m1 * 2 ^ (e1 - e2)) m2
          else round m1 (m2 * 2 ^ (e2 - e1)))
  | NaN, _ | _, NaN => Ok NaN
  | Inf, Fin _ _ => Ok Inf
  | Fin _ _, Inf => Ok (Fin 0 0)
  | Inf, Inf => Ok NaN
  end.

(** [int(x)] *)
Definition to_int (x : float) : result Z :=
  match x with
  | Fin m e => Ok (if 0 <=? e then m * 2 ^ e else m / 2 ^ (- e))
  | Inf => Raise (OverflowError "cannot convert float infinity to integer")
  | NaN => Raise (ValueError "cannot convert float NaN to integer")
  end.

(** The literals [0.4], [0.3], [0.2], [0.1]. *)
Definition c04 : float := Eval vm_compute in round 4 10.
Definition c03 : float := Eval vm_compute in round 3 10.
Definition c02 : float := Eval vm_compute in round 2 10.
Definition c01 : float := Eval vm_compute in round 1 10.

End F64.

(** ** Budget breakdown *)

Record Breakdown := {
  accommodation_total : Z;
  accommodation_per_night : Z;
  food_total : Z;
  food_per_day : Z;
  activities_total : Z;
  transportation_total : Z
}.

(** [int(budget_num * share)] *)
Definition share_of (budget_num : Z) (share : F64.float) : result Z :=
  b ← F64.of_int budget_num;
  F64.to_int (F64.mul b share).

(** [int(budget_num * share / days)] *)
Definition rate_of (budget_num : Z) (share : F64.float) (days : Z) : result Z :=
  b ← F64.of_int budget_num;
  d ← F64.of_int days;
  q ← F64.div (F64.mul b share) d;
  F64.to_int q.

(** The six amounts of the budget section, in the order in which the
    four lines evaluate them. *)
Definition budget_breakdown (budget_num days : Z) : result Breakdown :=
  a ← share_of budget_num F64.c04;
  an ← rate_of budget_num F64.c04 days;
  f ← share_of budget_num F64.c03;
  fd ← rate_of budget_num F64.c03 days;
  ac ← share_of budget_num F64.c02;
  tr ← share_of budget_num F64.c01;
  Ok {| accommodation_total := a; accommodation_per_night := an;
        food_total := f; food_per_day := fd;
        activities_total := ac; transportation_total := tr |}.

Definition lines_total (b : Breakdown) : Z :=
  accommodation_total b + food_total b + activities_total b + transportation_total b.

Definition render_breakdown (budget_num : Z) (b : Breakdown) : string :=
  "- Accommodation: $" ++ fmt_commas (accommodation_total b) ++ " ($" ++
    fmt_commas (accommodation_per_night b) ++ "/night)" ++ String "010" "" ++
  "- Food: $" ++ fmt_commas (food_total b) ++ " ($" ++
    fmt_commas (food_per_day b) ++ "/day)" ++ String "010" "" ++
  "- Activities: $" ++ fmt_commas (activities_total b) ++ String "010" "" ++
  "- Transportation: $" ++ fmt_commas (transportation_total b) ++ String "010" "".

(** ** Session state *)

Record Session := {
  user_info : gmap string val;
  (** the messages, as (role, content) *)
  conversation : list (string * string);
  current_question : string;
  used_web_search : bool;
  (** how many draws the random source has served so far *)
  rng_pos : nat
}.

(** Code that reads and writes the session and may raise. *)
Definition M (A : Type) : Type := Session -> result A * Session.

Definition m_ret {A} (a : A) : M A := fun st => (Ok a, st).
Definition m_bind {A B} (c : M A) (f : A -> M B) : M B :=
  fun st =>
    match c st with
    | (Ok a, st') => f a st'
    | (Raise e, st') => (Raise e, st')
    end.
Definition m_lift {A} (r : result A) : M A := fun st => (r, st).
Definition m_catch {A} (body : M A) (handler : exn -> M A) : M A :=
  fun st =>
    match body st with
    | (Ok a, st') => (Ok a, st')
    | (Raise e, st') => handler e st'
    end.
Definition m_get : M Session := fun st => (Ok st, st).
Definition m_modify (f : Session -> Session) : M unit := fun st => (Ok tt, f st).

#[global] Instance M_bind : MBind M := fun A B f c => m_bind c f.
#[global] Instance M_ret : MRet M := fun A a => m_ret a.

Definition set_user_info (f : gmap string val -> gmap string val) (st : Session)
  : Session :=
  {| user_info := f (user_info st); conversation := conversation st;
     current_question := current_question st;
     used_web_search := used_web_search st; rng_pos := rng_pos st |}.

Definition append_message (role content : string) (st : Session) : Session :=
  {| user_info := user_info st;
     conversation := conversation st ++ [(role, content)];
     current_question := current_question st;
     used_web_search := used_web_search st; rng_pos := rng_pos st |}.

(** [st.session_state.used_web_search = True] when [ran] holds. *)
Definition note_web_search (ran : bool) (st : Session) : Session :=
  {| user_info := user_info st; conversation := conversation st;
     current_question := current_question st;
     used_web_search := if ran then true else used_web_search st;
     rng_pos := rng_pos st |}.

(** [random.choice(l)] for a non-empty [l]. *)
Definition random_choice {A} (w : World) (dflt : A) (l : list A) : M A :=
  fun st =>
    (Ok (nth (random_draw w (rng_pos st) mod List.length l)%nat l dflt),
     {| user_info := user_info st; conversation := conversation st;
        current_question := current_question st;
        used_web_search := used_web_search st; rng_pos := S (rng_pos st) |}).

(** [init_session_state()] on a fresh session, and [reset_conversation()]. *)
Definition empty_profile : gmap string val :=
  list_to_map
    [("destination", PyNone); ("duration", PyNone); ("budget", PyNone);
     ("purpose", PyNone); ("interests", PyNone);
     ("dietary_restrictions", PyNone); ("mobility_concerns", PyNone);
     ("accommodation_preference", PyNone); ("itinerary", PyNone)].

Definition welcome : string :=
  "🌍 Welcome to your AI Travel Planner! Where would you like to go?".

Definition reset_conversation (st : Session) : Session :=
  {| user_info := empty_profile;
     conversation := [("assistant", welcome)];
     current_question := "get_destination";
     used_web_search := false;
     rng_pos := rng_pos st |}.

Definition init_session_state : Session :=
  {| user_info := empty_profile;
     conversation := [("assistant", welcome)];
     current_question := "get_destination";
     used_web_search := false;
     rng_pos := 0 |}.

(** ** Destination information *)

Record DbEntry := {
  db_description : string;
  db_must_see : list string;
  db_transport : list (string * string)
}.

Definition DESTINATION_DATABASE : gmap string DbEntry :=
  list_to_map
    [("paris",
      {| db_description := "The City of Light, famous for its art, fashion, and cuisine";
         db_must_see := ["Eiffel Tower"; "Louvre Museum"; "Notre-Dame Cathedral"];
         db_transport :=
           [("metro", "Efficient subway system (buy carnet of 10 tickets)");
            ("walking", "Most central areas are walkable")] |});
     ("rome",
      {| db_description := "The Eternal City, home to ancient ruins and delicious pasta";
         db_must_see := ["Colosseum"; "Trevi Fountain"; "Vatican City"];
         db_transport :=
           [("metro", "Limited but useful lines (buy daily pass)");
            ("walking", "Best way to explore the historic center")] |});
     ("tokyo",
      {| db_description := "A vibrant metropolis blending ultramodern and traditional culture";
         db_must_see := ["Senso-ji Temple"; "Shibuya Crossing"; "Tokyo Skytree"];
         db_transport :=
           [("metro", "Efficient subway system (get Pasmo card)");
            ("taxis", "Expensive but convenient at night")] |})].

(** The dictionary [dest_info]; a list that is absent is empty. *)
Record DestInfo := {
  description : string;
  must_see : list val;
  activities : list item;
  dining : list item;
  accommodation : list item;
  transport : option (list (string * string))
}.

Definition default_dest_info : DestInfo :=
  {| description := "A wonderful travel destination with many attractions";
     must_see := []; activities := []; dining := []; accommodation := [];
     transport := None |}.

(** [dest_info.update(DESTINATION_DATABASE[dest_lower])] *)
Definition db_update (d : DestInfo) (e : DbEntry) : DestInfo :=
  {| description := db_description e; must_see := map PyStr (db_must_see e);
     activities := activities d; dining := dining d;
     accommodation := accommodation d; transport := Some (db_transport e) |}.

Definition set_description (s : string) (d : DestInfo) : DestInfo :=
  {| description := s; must_see := must_see d; activities := activities d;
     dining := dining d; accommodation := accommodation d;
     transport := transport d |}.

Definition set_must_see (ms : list val) (d : DestInfo) : DestInfo :=
  {| description := description d; must_see := ms; activities := activities d;
     dining := dining d; accommodation := accommodation d;
     transport := transport d |}.

(** [[a['name'] for a in items]] *)
Definition names_of (items : list item) : result (list val) :=
  for_each (fun acc a => n ← dindex a "name"; Ok (acc ++ [n])%list) items [].

(** The searches of the activities loop: one per interest. *)
Fixpoint places_for (w : World) (dest : string) (interests : list string)
  : list item * bool :=
  match interests with
  | [] => ([], false)
  | interest :: rest =>
      let '(found, ran) := google_places w dest (PyStr interest) None in
      let '(more, ran') := places_for w dest rest in
      ((found ++ more)%list, ran || ran')
  end.

(** [get_destination_info(destination, user_info)] *)
Definition get_destination_info (w : World) (destination : val)
  (user_info : gmap string val) : M DestInfo :=
  match destination with
  | PyStr dest =>
      let dest_lower := lower dest in
      let in_db := DESTINATION_DATABASE !! dest_lower in
      let dest_info0 :=
        match in_db with
        | Some e => db_update default_dest_info e
        | None => default_dest_info
        end in
      (* except Exception: *)
      let handler (dest_info : DestInfo) : DestInfo :=
        match in_db with
        | Some e => db_update default_dest_info e
        | None =>
            set_description (title dest ++ " is a popular travel destination.")
                            dest_info
        end in
      match (if truthy (dget user_info "interests")
             then l ← py_split (dget_or user_info "interests" (PyStr ""));
                  Ok (Some l)
             else Ok None) with
      | Raise _ => mret (handler dest_info0)
      | Ok interests =>
          let '(attractions, ran) := tripadvisor_attractions w dest interests in
          _ ← m_modify (note_web_search ran);
          match (match attractions with
                 | [] => Ok (must_see dest_info0)
                 | _ => names_of (firstn 5 attractions)
                 end) with
          | Raise _ => mret (handler dest_info0)
          | Ok seen =>
              let '(acts, ran) := places_for w dest (default [] interests) in
              _ ← m_modify (note_web_search ran);
              let budget_num := extract_budget (dget user_info "budget") in
              let budget_filter :=
                if budget_num <? 1500 then 1
                else if budget_num <? 3000 then 2 else 3 in
              let '(dining_found, ran) :=
                google_places w dest (PyStr "restaurants") (Some budget_filter) in
              _ ← m_modify (note_web_search ran);
              let '(accommodation_found, ran) :=
                google_places w dest
                  (dget_or user_info "accommodation_preference" (PyStr "hotel"))
                  (Some budget_filter) in
              _ ← m_modify (note_web_search ran);
              let dest_info1 :=
                {| description := description dest_info0; must_see := seen;
                   activities := acts; dining := dining_found;
                   accommodation := accommodation_found;
                   transport := transport dest_info0 |} in
              match seen with
              | [] =>
                  let '(web_recs, ran) :=
                    web_based_recommendations w dest
                      (match interests with
                       | Some (i :: l) => PyList (i :: l)
                       | _ => PyStr "attractions"
                       end) in
                  _ ← m_modify (note_web_search ran);
                  match web_recs with
                  | [] => mret dest_info1
                  | _ =>
                      match names_of web_recs with
                      | Raise _ => mret (handler dest_info1)
                      | Ok seen' => mret (set_must_see seen' dest_info1)
                      end
                  end
              | _ => mret dest_info1
              end
          end
      end
  | _ =>
      (* [destination.lower()] fails in the body and again in the handler *)
      m_lift (Raise (no_attr (type_name destination) "lower"))
  end.

(** ** Itinerary composer *)

Definition nl : string := String "010" "".

(** ['$' * v] *)
Definition dollars (v : val) : result string :=
  match v with
  | PyInt n => Ok (repeat_str (Z.to_nat n) "$")
  | PyBool b => Ok (if b then "$" else "")
  | _ => Raise (TypeError ("can't multiply sequence by non-int of type '" ++
                           type_name v ++ "'"))
  end.

(** [x in v] *)
Definition py_contains (x : string) (v : val) : result bool :=
  match v with
  | PyStr s => Ok (str_in x s)
  | PyList l => Ok (existsb (String.eqb x) l)
  | _ => Raise (TypeError ("argument of type '" ++ type_name v ++
                           "' is not iterable"))
  end.

(** One bullet of the activities, dining and accommodation sections. *)
Definition render_item (it : item) : result string :=
  let line := "- **" ++ py_str (dget it "name") ++ "**" in
  let line :=
    if truthy (dget it "rating") then line ++ " ⭐ " ++ py_str (dget it "rating")
    else line in
  line ←
    (if truthy (dget it "price_level")
     then d ← dollars (dget_or it "price_level" (PyInt 1)); Ok (line ++ " " ++ d)
     else Ok line);
  let line :=
    if truthy (dget it "location")
    then line ++ nl ++ "  📍 " ++ py_str (dget it "location")
    else line in
  Ok (line ++ nl).

Definition render_section (heading : string) (n : nat) (items : list item)
  : result string :=
  match items with
  | [] => Ok ""
  | _ =>
      for_each (fun acc it => line ← render_item it; Ok (acc ++ line))
               (firstn n items) (nl ++ heading ++ nl)
  end.

(** [[act for act in activities if tag in act.get('tags', [])] or activities] *)
Definition tagged (tag : string) (acts : list item) : result (list item) :=
  picked ← for_each (fun acc act =>
                       b ← py_contains tag (dget_or act "tags" (PyList []));
                       Ok (if b : bool then (acc ++ [act])%list else acc))
                    acts [];
  Ok (match picked with [] => acts | _ => picked end).

Definition names_or (items : list item) (fallback : string) : list val :=
  match map (fun act => dget act "name") (firstn 3 items) with
  | [] => [PyStr fallback]
  | l => l
  end.

(** One block of the schedule. *)
Definition render_day (w : World) (dest : string) (acts dining_l : list item)
  (day : Z) : M string :=
  date ← m_lift (date_str w day);
  let weather := weather_forecast w dest day in
  let has_weather :=
    match weather with Some d => negb (bool_decide (d = ∅)) | None => false end in
  let wd := default ∅ weather in
  let weather_icon :=
    if has_weather
    then "https://openweathermap.org/img/wn/" ++
         py_str (dget_or wd "icon" (PyStr "01d")) ++ "@2x.png"
    else "" in
  let head := nl ++ "**Day " ++ str_of_Z day ++ ": " ++ date ++ "**" in
  let head :=
    if has_weather
    then head ++ " <img src='" ++ weather_icon ++ "' width='30'> " ++
         py_str (dget_or wd "temp" (PyStr "?")) ++ "°C, " ++
         py_str (dget_or wd "conditions" (PyStr ""))
    else head in
  morning_acts ← m_lift (tagged "morning" acts);
  morning_choice ← random_choice w PyNone (names_or morning_acts "Explore the city");
  afternoon_acts ← m_lift (tagged "afternoon" acts);
  afternoon_choice ←
    random_choice w PyNone (names_or afternoon_acts "Visit local attractions");
  evening_options ←
    (match dining_l with
     | [] => mret []
     | _ =>
         d ← random_choice w PyNone (map (fun d => dget d "name") (firstn 3 dining_l));
         mret ["Dinner at " ++ py_str d]
     end);
  evening ←
    random_choice w ""
      (evening_options ++
       ["Night walking tour"; "Cultural performance"; "Relax at your accommodation"]);
  mret (head ++ nl ++
        "🌅 Morning: " ++ py_str morning_choice ++ nl ++
        "⛅ Afternoon: " ++ py_str afternoon_choice ++ nl ++
        "🌇 Evening: " ++ evening ++ nl).

(** [for day in range(1, days + 1)] *)
Fixpoint render_days (w : World) (dest : string) (acts dining_l : list item)
  (days : list Z) : M string :=
  match days with
  | [] => mret ""
  | day :: rest =>
      block ← render_day w dest acts dining_l day;
      blocks ← render_days w dest acts dining_l rest;
      mret (block ++ blocks)
  end.

Definition day_range (days : Z) : list Z :=
  map (fun i => Z.of_nat i) (List.seq 1%nat (Z.to_nat days)).

Definition render_must_see (l : list val) : string :=
  String.concat ""
    (imap (fun i attraction =>
             str_of_Z (Z.of_nat (S i)) ++ ". " ++ py_str attraction ++ nl)
          (firstn 10 l)).

Definition render_transport (t : option (list (string * string))) : string :=
  match t with
  | None => ""
  | Some tips =>
      nl ++ "## 🚍 Transportation Tips" ++ nl ++
      String.concat ""
        (map (fun '(mode, tip) => "- **" ++ title mode ++ "**: " ++ tip ++ nl) tips)
  end.

Definition web_search_note : string :=
  nl ++ "*Note: Some recommendations were sourced from recent web searches.*".

(** What precedes, and what follows, the four lines of the budget section. *)
Definition budget_heading (budget_num : Z) : string :=
  nl ++ "## 💰 Budget Breakdown ($" ++ fmt_commas budget_num ++ ")" ++ nl.

(** The title, the trip overview and the list of attractions. *)
Definition render_overview (place : string) (days : Z) (dest_info : DestInfo)
  (user_info : gmap string val) : string :=
  "# ✈️ " ++ place ++ " " ++ str_of_Z days ++ "-Day Itinerary" ++ nl ++ nl ++
  "_" ++ description dest_info ++ "_" ++ nl ++ nl ++
  "## 📝 Trip Overview" ++ nl ++
  "- **Traveler**: " ++ py_str (dget_or user_info "purpose" (PyStr "Leisure")) ++
    " trip" ++ nl ++
  "- **Interests**: " ++
    py_str (dget_or user_info "interests" (PyStr "General sightseeing")) ++ nl ++
  (if truthy (dget user_info "dietary_restrictions")
   then "- **Dietary**: " ++ py_str (dget user_info "dietary_restrictions") ++ nl
   else "") ++
  (if truthy (dget user_info "mobility_concerns")
   then "- **Mobility**: " ++ py_str (dget user_info "mobility_concerns") ++ nl
   else "") ++
  "- **Accommodation**: " ++
    py_str (dget_or user_info "accommodation_preference" (PyStr "Standard")) ++
    nl ++ nl ++
  "## 🌟 Top Rated Attractions" ++ nl ++
  render_must_see (must_see dest_info).

Definition schedule_heading (days : Z) : string :=
  nl ++ "## 📅 Sample " ++ str_of_Z days ++ "-Day Schedule" ++ nl.

(** The body of the [try] block of [generate_detailed_itinerary]. *)
Definition compose (w : World) (user_info : gmap string val) : M string :=
  let destination := dget_or user_info "destination" (PyStr "your destination") in
  let days := extract_days (dget_or user_info "duration" (PyStr "5 days")) in
  let budget_num := extract_budget (dget_or user_info "budget" (PyStr "$2000")) in
  dest_info ← get_destination_info w destination user_info;
  acts ← m_lift (filter_by_preferences (activities dest_info) user_info);
  dining_l ← m_lift (filter_by_preferences (dining dest_info) user_info);
  accommodation_l ←
    m_lift (filter_by_preferences (accommodation dest_info) user_info);
  place ← m_lift (py_title destination);
  let itinerary := render_overview place days dest_info user_info in
  s_acts ← m_lift (render_section "## 🎭 Recommended Activities" 8 acts);
  s_dining ← m_lift (render_section "## 🍽️ Dining Recommendations" 5 dining_l);
  s_accommodation ←
    m_lift (render_section "## 🏨 Accommodation Options" 3 accommodation_l);
  let itinerary :=
    itinerary ++ s_acts ++ s_dining ++ s_accommodation ++ schedule_heading days in
  schedule ← render_days w (py_str destination) acts dining_l (day_range days);
  let itinerary := itinerary ++ schedule ++ budget_heading budget_num in
  b ← m_lift (budget_breakdown budget_num days);
  let itinerary :=
    itinerary ++ render_breakdown budget_num b ++
    render_transport (transport dest_info) in
  st ← m_get;
  mret (if used_web_search st then itinerary ++ web_search_note else itinerary).

(** [generate_detailed_itinerary(user_info)]: the outcome is [Ok] of the
    returned string, or [Raise] of an exception that leaves the function. *)
Definition generate_detailed_itinerary (w : World) (user_info : gmap string val)
  : M string :=
  m_catch (compose w user_info)
          (fun e => mret ("⚠️ Error generating itinerary: " ++ exn_str e)).

(** ** Turn handler *)

Fixpoint replace_from (old new : string) (fuel : nat) (s : string) : string :=
  match fuel with
  | O => s
  | S fuel' =>
      if startswith old s then
        new ++ replace_from old new fuel'
                 (String.substring (String.length old)
                                   (String.length s - String.length old) s)
      else match s with
           | EmptyString => EmptyString
           | String c s' => String c (replace_from old new fuel' s')
           end
  end.

(** [s.replace(old, new)] for a non-empty [old]. *)
Definition replace (old new s : string) : string :=
  replace_from old new (S (String.length s)) s.

Definition question_map : list (string * string) :=
  [("get_destination", "Where would you like to go?");
   ("get_duration", "How many days will your trip be?");
   ("get_budget", "What's your approximate budget for this trip?");
   ("get_purpose", "Is this trip for leisure, business, or a special occasion?");
   ("get_interests", "What are your main interests? (e.g., art, food, adventure)");
   ("get_dietary_restrictions", "Any dietary restrictions we should consider?");
   ("get_mobility_concerns", "Any mobility concerns we should account for?");
   ("get_accommodation_preference", "What type of accommodation do you prefer?");
   ("confirm_generate", "Would you like me to generate your itinerary now?")].

Fixpoint assoc_or (k : string) (l : list (string * string)) (dflt : string) : string :=
  match l with
  | [] => dflt
  | (k', v) :: l' => if String.eqb k k' then v else assoc_or k l' dflt
  end.

Definition core_fields : list string :=
  ["destination"; "duration"; "budget"; "purpose"; "interests"].

(** [all(user_info.get(field) for field in core_fields)] *)
Definition ready_to_generate (user_info : gmap string val) : bool :=
  forallb (fun field => truthy (dget user_info field)) core_fields.

Definition clarified_questions : list string :=
  ["get_budget"; "get_duration"; "get_interests"; "get_accommodation"].

(** [user_info.update({k: v for k, v in extracted_info.items() if v is not None})] *)
Definition merge_extracted (extracted_info : gmap string string)
  (user_info : gmap string val) : gmap string val :=
  (PyStr <$> extracted_info) ∪ user_info.

(** The default rule for dietary restrictions, which may raise when the
    interests are not text. *)
Definition dietary_default (user_info : gmap string val)
  : result (gmap string val) :=
  if negb (truthy (dget user_info "dietary_restrictions")) then
    let interests := dget_or user_info "interests" (PyStr "") in
    text ← py_lower (if truthy interests then interests else PyStr "");
    Ok (if negb (str_in "food" text)
        then <["dietary_restrictions" := PyStr "None"]> user_info
        else user_info)
  else Ok user_info.

(** The reply once the next question is known. *)
Definition answer (prompt : string) (next_q : string) : string :=
  let clarification :=
    if existsb (String.eqb next_q) clarified_questions
    then refine_vague_input prompt (replace "get_" "" next_q)
    else None in
  match clarification with
  | Some q => if String.eqb q "" then
                assoc_or next_q question_map "How can I help you with your travel plans?"
              else q
  | None => assoc_or next_q question_map "How can I help you with your travel plans?"
  end.

Definition invalid_reply : string := "Please provide a valid travel request".
Definition offer_reply : string :=
  "I have enough information to generate your itinerary. Would you like me to create it now?".

(** The body of the [try] block of [handle_user_response]. *)
Definition handle_turn (w : World) (prompt : val) : M string :=
  match prompt with
  | PyStr text =>
      if negb (truthy prompt) then mret invalid_reply
      else
        let extracted_info := extract_travel_info w prompt in
        _ ← m_modify (set_user_info (merge_extracted extracted_info));
        _ ← m_modify (append_message "user" text);
        st ← m_get;
        if ready_to_generate (user_info st) then
          if str_in "yes" (lower text) || str_in "generate" (lower text) then
            itinerary ← generate_detailed_itinerary w (user_info st);
            _ ← m_modify (set_user_info (<["itinerary" := PyStr itinerary]>));
            mret itinerary
          else mret offer_reply
        else
          info ← m_lift (dietary_default (user_info st));
          _ ← m_modify (set_user_info (fun _ => info));
          mret (answer text (get_next_question info))
  | _ => mret invalid_reply
  end.

(** [handle_user_response(prompt)] *)
Definition handle_user_response (w : World) (prompt : val) : M string :=
  m_catch (handle_turn w prompt)
          (fun e => mret ("⚠️ Error processing your request: " ++ exn_str e)).

(** ** A world without providers, and sample data *)

(** No API key is configured and the web search finds nothing; the random
    source always draws 0; a set is iterated in order of first occurrence. *)
Definition offline : World :=
  {| set_iter := dedup_first [];
     tripadvisor_attractions := fun _ _ => ([], true);
     google_places := fun _ _ _ => ([], true);
     web_based_recommendations := fun _ _ => ([], true);
     weather_forecast := fun _ _ => None;
     date_str := fun day => Ok ("day " ++ str_of_Z day);
     random_draw := fun _ => O |}.

Definition profile_of (l : list (string * string)) : gmap string val :=
  (PyStr <$> list_to_map l) ∪ empty_profile.

Definition session_of (p : gmap string val) : Session :=
  {| user_info := p; conversation := [("assistant", welcome)];
     current_question := "get_destination"; used_web_search := false;
     rng_pos := 0 |}.

(** ** Vocabulary of the specification *)

Definition profile_keys : list string := (required_fields ++ ["itinerary"])%list.

Definition none_or_text (v : option val) : bool :=
  match v with
  | Some PyNone | Some (PyStr _) => true
  | _ => false
  end.

Definition absent_or_text (v : option val) : bool :=
  match v with
  | None | Some (PyStr _) => true
  | _ => false
  end.

(** A travel profile: each of the nine fields is present and holds
    [None] or a string. *)
Definition is_profile (p : gmap string val) : Prop :=
  forallb (fun k => none_or_text (p !! k)) profile_keys = true.

(** A recommendation item as the data model has it: name, category and
    dietary tag are strings when present. *)
Definition is_item (it : item) : Prop :=
  forallb (fun k => absent_or_text (it !! k)) ["name"; "type"; "dietary"] = true.

(** An item that the filter can test with a profile: the fields that the
    loop lower-cases are strings when present.  These are the name and the
    category when the profile has interests, the dietary tag when it has
    dietary restrictions, and the category when it has an accommodation
    preference; with none of the three nothing is asked of the item. *)
Definition filterable (p : gmap string val) (it : item) : Prop :=
  (truthy (dget p "interests") = true ->
   absent_or_text (it !! "name") = true /\ absent_or_text (it !! "type") = true) /\
  (truthy (dget p "dietary_restrictions") = true ->
   absent_or_text (it !! "dietary") = true) /\
  (truthy (dget p "accommodation_preference") = true ->
   absent_or_text (it !! "type") = true).

(** A place as [get_google_places] builds it for a query that is null. *)
Definition null_typed_place : item :=
  {[ "name" := PyStr "Grand Hotel"; "type" := PyNone; "rating" := PyDec 45 1;
     "price_level" := PyInt 0; "location" := PyStr "1 Main Street" ]}.

(** A complete profile: every required slot holds a non-empty string. *)
Definition complete (p : gmap string val) : Prop :=
  is_profile p /\ first_missing required_fields p = None.

(** The text of a field, empty when it holds none. *)
Definition text_of (d : gmap string val) (k : string) : string :=
  match d !! k with Some (PyStr s) => s | _ => "" end.

(** The three keep-conditions of the preference filter, in the words of
    the specification. *)
Definition interest_keywords (p : gmap string val) : list string :=
  if String.eqb (text_of p "interests") "" then []
  else split ", " (lower (text_of p "interests")).

Definition interest_match (p : gmap string val) (it : item) : bool :=
  existsb (fun kw => str_in kw (lower (text_of it "name")) ||
                     str_in kw (lower (text_of it "type")))
          (interest_keywords p).

Definition dietary_match (p : gmap string val) (it : item) : bool :=
  has_key it "dietary" &&
  negb (String.eqb (text_of p "dietary_restrictions") "") &&
  str_in (lower (text_of p "dietary_restrictions")) (lower (text_of it "dietary")).

Definition accommodation_match (p : gmap string val) (it : item) : bool :=
  has_key it "type" &&
  negb (String.eqb (text_of p "accommodation_preference") "") &&
  str_in (lower (text_of p "accommodation_preference")) (lower (text_of it "type")).

Definition kept (p : gmap string val) (it : item) : bool :=
  interest_match p it || dietary_match p it || accommodation_match p it.

(** The next prompt as the specification words it: the first slot, in
    canonical order, whose value is null. *)
Fixpoint first_null (fields : list string) (p : gmap string val) : option string :=
  match fields with
  | [] => None
  | field :: fields' =>
      match dget p field with
      | PyNone => Some field
      | _ => first_null fields' p
      end
  end.

Definition next_prompt_by_null (p : gmap string val) : string :=
  match first_null required_fields p with
  | Some field => "get_" ++ field
  | None => "confirm_generate"
  end.

(** A slot that counts as not filled: it holds [None] or the empty string. *)
Definition unfilled (p : gmap string val) (field : string) : Prop :=
  p !! field = Some PyNone \/ p !! field = Some (PyStr "").

(** The profile a turn works on: the stored one with the fields extracted
    from the utterance merged in. *)
Definition merged (w : World) (text : string) (st : Session) : gmap string val :=
  merge_extracted (extract_travel_info w (PyStr text)) (user_info st).

(** The session after the utterance has been merged and recorded. *)
Definition recorded (w : World) (text : string) (st : Session) : Session :=
  append_message "user" text
    (set_user_info (merge_extracted (extract_travel_info w (PyStr text))) st).

(** The vague-input table of a slot. *)
Definition vague_table (slot : string) : string :=
  if String.eqb slot "accommodation_preference" then "accommodation" else slot.

(** No digit occurs in a text. *)
Definition no_digit (s : string) : bool := all_chars (fun c => negb (is_digit c)) s.

(** The text does not go on with a digit. *)
Definition ends_run (rest : string) : bool :=
  match rest with String c _ => negb (is_digit c) | EmptyString => true end.

(** The four lines of the budget section as an exact percentage split,
    each rounded down. *)
Definition exact_split (budget_num : Z) (b : Breakdown) : Prop :=
  accommodation_total b = 40 * budget_num / 100 /\
  food_total b = 30 * budget_num / 100 /\
  activities_total b = 20 * budget_num / 100 /\
  transportation_total b = 10 * budget_num / 100.

(** Six sample items and sample sessions. *)
Definition named (n : string) : item := {[ "name" := PyStr n ]}.
Definition six_items : list item :=
  [named "a"; named "b"; named "c"; named "d"; named "e"; named "f"].

(** The text contains the word, whatever the case of its letters. *)
Definition mentions (word text : string) : bool := str_in word (lower text).

(** The character before the position reached after reading [ds]. *)
Fixpoint after (prev : option ascii) (ds : string) : option ascii :=
  match ds with
  | EmptyString => prev
  | String a ds' => after (Some a) ds'
  end.

(** A non-empty run of digits that occurs in a text. *)
Definition digits_in (text t : string) : Prop :=
  t <> "" /\ all_chars is_digit t = true /\ str_in t text = true.





(** Every group recorded so far holds a run of digits of the text. *)
Definition caps_digits (text : string) (c : caps) : Prop :=
  forall n t, group c n = Some t -> digits_in text t.

Definition suffix_of (s text : string) : Prop := exists pre, text = pre ++ s.

(** Patterns whose capturing groups are all of the form [(\d+)]. *)
Inductive digit_groups : re -> Prop :=
| dg_chr p : digit_groups (Chr p)
| dg_lit l : digit_groups (Lit l)
| dg_cat r1 r2 : digit_groups r1 -> digit_groups r2 -> digit_groups (Cat r1 r2)
| dg_or r1 r2 : digit_groups r1 -> digit_groups r2 -> digit_groups (Or r1 r2)
| dg_opt r : digit_groups r -> digit_groups (Opt r)
| dg_star r : digit_groups r -> digit_groups (Star r)
| dg_lazy r : digit_groups r -> digit_groups (PlusLazy r)
| dg_grp n : digit_groups (Grp n (Plus digit))
| dg_bol : digit_groups Bol
| dg_eol : digit_groups Eol
| dg_wordb : digit_groups Wordb.

(** The question of the dietary slot. *)
Definition dietary_question : string := "Any dietary restrictions we should consider?".

(** The profile on which the next-slot scan of a turn runs: the merged
    profile after the default rule for dietary restrictions. *)
Definition scanned_profile (w : World) (text : string) (st : Session)
  : gmap string val :=
  match dietary_default (merged w text st) with
  | Ok p => p
  | Raise _ => merged w text st
  end.

(** The pending slot of a turn: the first required slot that is not
    filled in that profile. *)
Definition pending_slot (w : World) (text : string) (st : Session) : option string :=
  first_missing required_fields (scanned_profile w text st).

(** A profile with every slot filled but the accommodation preference. *)
Definition all_but_accommodation : gmap string val :=
  profile_of [("destination", "Paris"); ("duration", "2 days"); ("budget", "2000");
              ("purpose", "Leisure"); ("interests", "Art");
              ("dietary_restrictions", "Vegan"); ("mobility_concerns", "None")].

(** How a quotient [num / den] may sit next to an integer [Q] so that its
    binary64 rounding still truncates to [Q]: away from the integers by a
    sixteenth at least; above [Q] by the relative error 2^-54 of the
    literals 0.4, 0.2 and 0.1; below [Q] by the relative error of 0.3. *)
Definition trunc_case (num den Q : Z) : Prop :=
  (0 <= Q /\ 16 * Q * den + den <= 16 * num /\ 16 * num <= 16 * Q * den + 15 * den) \/
  (1 <= Q /\ num * 2 ^ 54 = Q * (2 ^ 54 + 1) * den) \/
  (2 <= Q /\ num * (3 * 2 ^ 54) = Q * (3 * 2 ^ 54 - 2) * den).

(** A complete profile with a budget of 10^30. *)
Definition lavish_profile : gmap string val :=
  profile_of [("destination", "Paris"); ("duration", "3 days");
              ("budget", "1000000000000000000000000000000");
              ("purpose", "Leisure"); ("interests", "Art");
              ("dietary_restrictions", "Vegan"); ("mobility_concerns", "None");
              ("accommodation_preference", "Hostel")].

(** A complete profile with a budget of 2000 for three days. *)
Definition modest_profile : gmap string val :=
  profile_of [("destination", "Paris"); ("duration", "3 days");
              ("budget", "2000");
              ("purpose", "Leisure"); ("interests", "Art");
              ("dietary_restrictions", "Vegan"); ("mobility_concerns", "None");
              ("accommodation_preference", "Hostel")].

(** What composing an itinerary may change in a session: the web-search
    flag may be raised and random draws may be consumed; the profile, the
    conversation and the current question stay. *)
Definition only_flag_and_draws (st st' : Session) : Prop :=
  user_info st' = user_info st /\
  conversation st' = conversation st /\
  current_question st' = current_question st /\
  (used_web_search st = true -> used_web_search st' = true) /\
  (rng_pos st <= rng_pos st')%nat.

Definition keeps {A} (c : M A) : Prop :=
  forall st, only_flag_and_draws st (snd (c st)).

(** The message that a prompt adds to the conversation. *)
Definition user_message (prompt : val) : list (string * string) :=
  match prompt with
  | PyStr text => if String.eqb text "" then [] else [("user", text)]
  | _ => []
  end.

(** The turn composes an itinerary: the prompt is a non-empty text, the
    five core slots are filled once it is merged, and it says "yes" or
    "generate". *)
Definition generates (w : World) (prompt : val) (st : Session) : bool :=
  match prompt with
  | PyStr text =>
      negb (String.eqb text "") && ready_to_generate (merged w text st) &&
      (str_in "yes" (lower text) || str_in "generate" (lower text))
  | _ => false
  end.

(** The entries of [question_map], and its default, that ask about
    something else than a core slot. *)
Definition other_questions : list string :=
  ["Any dietary restrictions we should consider?";
   "Any mobility concerns we should account for?";
   "What type of accommodation do you prefer?";
   "Would you like me to generate your itinerary now?";
   "How can I help you with your travel plans?"].

(** The slots that no turn empties once they are filled. *)
Definition lasting_fields : list string :=
  ["duration"; "budget"; "purpose"; "dietary_restrictions"; "mobility_concerns";
   "accommodation_preference"; "itinerary"].

(** A text without letters and without digits. *)
Definition punctuation (s : string) : bool :=
  all_chars (fun c => negb (is_alpha c) && negb (is_digit c)) s.

(** The heading of a block of the schedule: the number and the date of
    the day, and the weather of that day when there is a forecast. *)
Definition day_heading (w : World) (dest : string) (day : Z) (date : string)
  : string :=
  let weather := weather_forecast w dest day in
  let has_weather :=
    match weather with Some d => negb (bool_decide (d = ∅)) | None => false end in
  let wd := default ∅ weather in
  nl ++ "**Day " ++ str_of_Z day ++ ": " ++ date ++ "**" ++
  (if has_weather
   then " <img src='" ++
        ("https://openweathermap.org/img/wn/" ++
         py_str (dget_or wd "icon" (PyStr "01d")) ++ "@2x.png") ++
        "' width='30'> " ++
        py_str (dget_or wd "temp" (PyStr "?")) ++ "°C, " ++
        py_str (dget_or wd "conditions" (PyStr ""))
   else "").

(** The block of the schedule for a day: the heading of the day and its
    three lines, each with one of the entries that the loop draws from. *)
Definition day_block (w : World) (dest : string) (acts dining_l : list item)
  (day : Z) (block : string) : Prop :=
  exists date morning_acts afternoon_acts morning afternoon evening,
    date_str w day = Ok date /\
    tagged "morning" acts = Ok morning_acts /\
    tagged "afternoon" acts = Ok afternoon_acts /\
    In morning (names_or morning_acts "Explore the city") /\
    In afternoon (names_or afternoon_acts "Visit local attractions") /\
    In evening
       (map (fun d => "Dinner at " ++ py_str (dget d "name")) (firstn 3 dining_l) ++
        ["Night walking tour"; "Cultural performance"; "Relax at your accommodation"])
    /\
    block = day_heading w dest day date ++ nl ++
            "🌅 Morning: " ++ py_str morning ++ nl ++
            "⛅ Afternoon: " ++ py_str afternoon ++ nl ++
            "🌇 Evening: " ++ evening ++ nl.

(** ** The page *)

(** What the widgets return in one run of the script. *)
Record Inputs := {
  (** [st.button("🔄 Start New Trip")] *)
  start_new_trip : bool;
  (** [st.chat_input("Type your message here...")] *)
  chat_input : option string;
  (** [st.button("✏️ Edit Trip Details")] *)
  edit_trip_details : bool
}.

(** The name of the file offered for download:
    [f"{user_info.get('destination', 'travel').lower()}_itinerary.txt"] *)
Definition file_name (user_info : gmap string val) : result string :=
  d ← py_lower (dget_or user_info "destination" (PyStr "travel"));
  Ok (d ++ "_itinerary.txt").

(** One run of [main()] on an initialised session.  What is only shown
    (the titles, the sidebar, the messages, the itinerary) is left out;
    the result tells whether the run ended with [st.rerun()]. *)
Definition main (w : World) (inp : Inputs) : M bool :=
  if start_new_trip inp then
    _ ← m_modify reset_conversation;
    mret true
  else
    rerun ←
      (match chat_input inp with
       | Some prompt =>
           if truthy (PyStr prompt) then
             response ← handle_user_response w (PyStr prompt);
             if truthy (PyStr response) then
               _ ← m_modify (append_message "assistant" response);
               mret true
             else mret false
           else mret false
       | None => mret false
       end);
    if rerun : bool then mret true
    else
      st ← m_get;
      if truthy (dget (user_info st) "itinerary") then
        _ ← m_lift (file_name (user_info st));
        if edit_trip_details inp then
          _ ← m_modify reset_conversation;
          mret true
        else mret false
      else mret false.

(** The sessions that the page can reach: the fresh one, and what a run
    leaves of a session that it can reach. *)
Inductive reachable (w : World) : Session -> Prop :=
| reachable_init : reachable w init_session_state
| reachable_run inp st : reachable w st -> reachable w (snd (main w inp st)).

(** A conversation made of the welcome and of exchanges, each a message
    of the user followed by the reply of the assistant. *)
Definition exchange (e : string * string) : list (string * string) :=
  [("user", fst e); ("assistant", snd e)].

Definition dialogue (c : list (string * string)) : Prop :=
  exists exchanges,
    c = ("assistant", welcome) :: flat_map exchange exchanges /\
    Forall (fun e => fst e <> "" /\ snd e <> "") exchanges.

(** What holds of every session that the page can reach. *)
Definition well_formed (st : Session) : Prop :=
  is_profile (user_info st) /\
  (truthy (dget (user_info st) "itinerary") = true ->
   is_str (dget (user_info st) "destination") = true) /\
  dialogue (conversation st) /\
  current_question st = "get_destination".

(** ** Providers *)

(** The providers are modelled with what they obtain from the network as
    the fields of a [Net] record.  A step that raises gives [None] in the
    [option] monad; every provider catches [Exception], and what it does
    with the exception besides, [st.error], only shows a message. *)

(** The four keys of the environment, as [os.getenv] returns them. *)
Record Keys := {
  GOOGLE_PLACES_API_KEY : option string;
  TRIPADVISOR_API_KEY : option string;
  WEATHER_API_KEY : option string;
  SERPER_API_KEY : option string
}.

(** The truth value of a key: it is set and not empty. *)
Definition configured (key : option string) : bool :=
  match key with Some k => negb (String.eqb k "") | None => false end.

(** [check_api_keys()]: the warning that is shown, if any. *)
Definition check_api_keys (keys : Keys) : option string :=
  let missing_keys :=
    ((if configured (GOOGLE_PLACES_API_KEY keys) then [] else ["Google Places"]) ++
     (if configured (TRIPADVISOR_API_KEY keys) then [] else ["TripAdvisor"]) ++
     (if configured (WEATHER_API_KEY keys) then [] else ["Weather"]) ++
     (if configured (SERPER_API_KEY keys) then [] else ["Serper (Web Search)"]))%list in
  match missing_keys with
  | [] => None
  | _ => Some ("Note: Some features may be limited without API keys for: " ++
               join ", " missing_keys)
  end.

(** *** JSON documents *)

(** What [response.json()] returns: a scalar (null, a boolean, a number
    or a string, as a Python value), an array, or an object with its
    fields, each key once. *)
#[local] Unset Elimination Schemes.
Inductive json :=
| JVal (v : val)
| JArr (l : list json)
| JObj (fields : list (string * json)).
#[local] Set Elimination Schemes.

(** A dictionary that a provider builds. *)
Abbreviation jitem := (gmap string json).

Fixpoint field (k : string) (fields : list (string * json)) : option json :=
  match fields with
  | [] => None
  | (k', v) :: fields' => if String.eqb k k' then Some v else field k fields'
  end.

(** [j.get(k, dflt)]: only an object has [get]. *)
Definition jget (j : json) (k : string) (dflt : json) : option json :=
  match j with
  | JObj fields => Some (default dflt (field k fields))
  | _ => None
  end.

(** The characters of a string, each a string. *)
Fixpoint chars (s : string) : list json :=
  match s with
  | EmptyString => []
  | String c s' => JVal (PyStr (String c "")) :: chars s'
  end.

(** [for x in j]: the elements of an array, the characters of a string,
    the keys of an object; anything else is not iterable. *)
Definition jiter (j : json) : option (list json) :=
  match j with
  | JArr l => Some l
  | JObj fields => Some (map (fun kv => JVal (PyStr (fst kv))) fields)
  | JVal (PyStr s) => Some (chars s)
  | JVal (PyList l) => Some (map (fun s => JVal (PyStr s)) l)
  | JVal _ => None
  end.

(** [j[0]] *)
Definition jindex0 (j : json) : option json :=
  match j with
  | JObj _ => None
  | _ => l ← jiter j; head l
  end.

(** [j[:n]], then iterated: an object cannot be sliced. *)
Definition jslice (n : nat) (j : json) : option (list json) :=
  match j with
  | JObj _ => None
  | _ => l ← jiter j; Some (firstn n l)
  end.

(** The truth value of a document. *)
Definition jtruthy (j : json) : bool :=
  match j with
  | JVal v => truthy v
  | JArr l => match l with [] => false | _ => true end
  | JObj fields => match fields with [] => false | _ => true end
  end.

(** [x in j] for a string [x]. *)
Definition jcontains (x : string) (j : json) : option bool :=
  match j with
  | JVal (PyStr s) => Some (str_in x s)
  | JVal (PyList l) => Some (existsb (String.eqb x) l)
  | JVal _ => None
  | JArr l =>
      Some (existsb (fun e => match e with
                              | JVal (PyStr s) => String.eqb x s
                              | _ => false
                              end) l)
  | JObj fields => Some (existsb (fun kv => String.eqb x (fst kv)) fields)
  end.

(** [j.lower()]: only a string has [lower]. *)
Definition jlower (j : json) : option string :=
  match j with
  | JVal (PyStr s) => Some (lower s)
  | _ => None
  end.

(** [repr(j)] and [f"{j}"]; a string inside a document is written
    between single quotes. *)
Fixpoint jrepr (j : json) : string :=
  match j with
  | JVal (PyStr s) => "'" ++ s ++ "'"
  | JVal v => py_str v
  | JArr l => "[" ++ join ", " (map jrepr l) ++ "]"
  | JObj fields =>
      "{" ++ join ", " (map (fun kv => "'" ++ fst kv ++ "': " ++ jrepr (snd kv)) fields)
          ++ "}"
  end.

Definition jstr (j : json) : string :=
  match j with
  | JVal v => py_str v
  | _ => jrepr j
  end.

(** *** The network *)

(** A [div] of class "g" of a result page: its first anchor, with the
    [href] if it has one, and the text of its first [h3]. *)
Record ResultDiv := {
  anchor : option (option string);
  h3 : option string
}.

(** A page as the parser reads it: the texts of its [h1], [h2] and [h3]
    elements, and the texts of its paragraphs. *)
Record Page := {
  heading_texts : list string;
  paragraph_texts : list string
}.

(** Each request with the parameters that the program sends; [None] when
    the request, [raise_for_status] or the parsing raises. *)
Record Net := {
  (** geocode/json, by address *)
  geocode_api : string -> option json;
  (** place/textsearch/json, by query and maxprice *)
  places_api : string -> option Z -> option json;
  (** location/search, by searchQuery and latLong *)
  tripadvisor_api : string -> option string -> option json;
  (** data/2.5/forecast, by lat and lon *)
  forecast_api : string -> string -> option json;
  (** data/2.5/weather, by lat and lon *)
  weather_api : string -> string -> option json;
  (** google.serper.dev/search, by q and num *)
  serper_api : string -> nat -> option json;
  (** www.google.com/search, by q and num: the divs of class "g" *)
  google_page : string -> nat -> option (list ResultDiv);
  (** any page, by its URL *)
  fetch_page : json -> option Page
}.

(** *** Web search *)

(** [serper_api_search(query, num_results)]; [None] when it raises. *)
Definition serper_api_search (net : Net) (query : string) (num_results : nat)
  : option (list jitem) :=
  doc ← serper_api net query num_results;
  organic ← jget doc "organic" (JArr []);
  results ← jiter organic;
  mapM (fun r =>
          title ← jget r "title" (JVal PyNone);
          link ← jget r "link" (JVal PyNone);
          snippet ← jget r "snippet" (JVal PyNone);
          Some ({[ "title" := title; "link" := link; "snippet" := snippet ]} : jitem))
       results.

(** The loop of [fallback_google_search]. *)
Fixpoint result_divs (divs : list ResultDiv) : option (list jitem) :=
  match divs with
  | [] => Some []
  | g :: divs' =>
      match anchor g with
      | Some a =>
          href ← a;
          results ← result_divs divs';
          Some (({[ "title" := JVal (PyStr (default "No title" (h3 g)));
                    "link" := JVal (PyStr href);
                    "snippet" := JVal (PyStr "") ]} : jitem) :: results)
      | None => result_divs divs'
      end
  end.

(** [fallback_google_search(query, num_results)] *)
Definition fallback_google_search (net : Net) (query : string) (num_results : nat)
  : list jitem :=
  default [] (divs ← google_page net query num_results;
              results ← result_divs divs;
              Some (firstn num_results results)).

(** [web_search(query, num_results)] *)
Definition web_search (keys : Keys) (net : Net) (query : string) (num_results : nat)
  : list jitem :=
  default []
    (if configured (SERPER_API_KEY keys) then serper_api_search net query num_results
     else Some (fallback_google_search net query num_results)).

(** [s.split()]: the pieces between runs of whitespace. *)
Fixpoint words_from (cur : string) (s : string) : list string :=
  match s with
  | EmptyString => if String.eqb cur "" then [] else [cur]
  | String c s' =>
      if is_space c
      then (if String.eqb cur "" then [] else [cur]) ++ words_from "" s'
      else words_from (cur ++ String c "") s'
  end.
Definition words (s : string) : list string := words_from "" s.

(** The dictionary that [scrape_website] returns. *)
Record Scraped := {
  headings : list string;
  content : list string
}.

(** [scrape_website(url)] *)
Definition scrape_website (net : Net) (url : json) : option Scraped :=
  page ← fetch_page net url;
  Some {| headings := map strip (heading_texts page);
          content := map strip
                       (List.filter (fun p => Nat.ltb 5 (List.length (words p)))
                                    (paragraph_texts page)) |}.

Definition marker_words : list string := ["best"; "top"; "must-see"; "recommend"].

(** [next((p for p in content if heading.lower() in p.lower()), "")] *)
Fixpoint first_mention (heading : string) (paragraphs : list string) : string :=
  match paragraphs with
  | [] => ""
  | p :: paragraphs' =>
      if str_in (lower heading) (lower p) then p else first_mention heading paragraphs'
  end.

(** The recommendations that one scraped page gives. *)
Definition page_recommendations (link : json) (scraped : Scraped) : list jitem :=
  flat_map
    (fun heading =>
       if existsb (fun word => str_in word (lower heading)) marker_words
       then [({[ "name" := JVal (PyStr heading);
                 "type" := JVal (PyStr "attraction");
                 "source" := link;
                 "description" := JVal (PyStr (first_mention heading (content scraped)))
              ]} : jitem)]
       else [])
    (headings scraped).

(** The loop over the first three search results. *)
Fixpoint scrape_results (net : Net) (results : list jitem) : option (list jitem) :=
  match results with
  | [] => Some []
  | result :: results' =>
      link ← result !! "link";
      recommendations ← scrape_results net results';
      Some ((match scrape_website net link with
             | Some scraped => page_recommendations link scraped
             | None => []
             end) ++ recommendations)%list
  end.

(** [get_web_based_recommendations(destination, interests)]: the list, and
    whether the line that sets [used_web_search] was reached. *)
Definition get_web_based_recommendations (keys : Keys) (net : Net)
  (destination : string) (interests : val) : list jitem * bool :=
  let query := "Best " ++ py_str interests ++ " in " ++ destination ++
               " travel blog 2024" in
  match scrape_results net (firstn 3 (web_search keys net query 3)) with
  | Some recommendations => (firstn 5 recommendations, true)
  | None => ([], false)
  end.

(** *** Geocoding and weather *)

(** The coordinates of the known destinations. *)
Definition known_coordinates (destination : string) : option string :=
  match DESTINATION_DATABASE !! lower destination with
  | Some _ =>
      if str_in "paris" (lower destination) then Some "48.8566,2.3522"
      else if str_in "rome" (lower destination) then Some "41.9028,12.4964"
      else if str_in "tokyo" (lower destination) then Some "35.6762,139.6503"
      else None
  | None => None
  end.

(** [get_geocode(destination)] *)
Definition get_geocode (keys : Keys) (net : Net) (destination : string)
  : option string :=
  let body : option (option string) :=
    if negb (configured (GOOGLE_PLACES_API_KEY keys)) then None
    else
      doc ← geocode_api net destination;
      results ← jget doc "results" (JArr [JObj []]);
      first ← jindex0 results;
      geometry ← jget first "geometry" (JObj []);
      location ← jget geometry "location" (JVal PyNone);
      if jtruthy location then
        lat ← jget location "lat" (JVal PyNone);
        lng ← jget location "lng" (JVal PyNone);
        Some (Some (jstr lat ++ "," ++ jstr lng))
      else Some (known_coordinates destination) in
  default None body.

(** The dictionary built from a forecast or from the current weather. *)
Definition weather_report (doc : json) : option jitem :=
  descriptions ← jget doc "weather" (JArr [JObj []]);
  weather ← jindex0 descriptions;
  main ← jget doc "main" (JObj []);
  temp ← jget main "temp" (JVal PyNone);
  conditions ← jget weather "description" (JVal PyNone);
  icon ← jget weather "icon" (JVal PyNone);
  Some ({[ "temp" := temp; "conditions" := conditions; "icon" := icon ]} : jitem).

(** The loop over the forecasts: [None] when it raises, [Some None] when
    no forecast holds the date. *)
Fixpoint first_forecast (date : string) (forecasts : list json)
  : option (option jitem) :=
  match forecasts with
  | [] => Some None
  | forecast :: forecasts' =>
      dt_txt ← jget forecast "dt_txt" (JVal (PyStr ""));
      hit ← jcontains date dt_txt;
      if hit : bool then report ← weather_report forecast; Some (Some report)
      else first_forecast date forecasts'
  end.

(** [get_weather_forecast(destination, date)] *)
Definition get_weather_forecast (keys : Keys) (net : Net) (destination date : string)
  : option jitem :=
  let body : option (option jitem) :=
    if negb (configured (WEATHER_API_KEY keys)) then Some None
    else
      match get_geocode keys net destination with
      | None => Some None
      | Some geocode =>
          if String.eqb geocode "" then Some None
          else
            lat ← split "," geocode !! 0%nat;
            lon ← split "," geocode !! 1%nat;
            doc ← forecast_api net lat lon;
            l ← jget doc "list" (JArr []);
            forecasts ← jiter l;
            found ← first_forecast date forecasts;
            match found with
            | Some report => Some (Some report)
            | None =>
                current ← weather_api net lat lon;
                report ← weather_report current;
                Some (Some report)
            end
      end in
  default None body.

(** *** Places and attractions *)

(** [get_google_places(destination, query, budget_filter)] *)
Definition get_google_places (keys : Keys) (net : Net) (destination : string)
  (query : val) (budget_filter : option Z) : list jitem * bool :=
  let web := get_web_based_recommendations keys net destination query in
  let body : option (list jitem * bool) :=
    if negb (configured (GOOGLE_PLACES_API_KEY keys)) then None
    else
      doc ← places_api net (py_str query ++ " in " ++ destination)
              (match budget_filter with
               | Some z => if z =? 0 then None else Some z
               | None => None
               end);
      results ← jget doc "results" (JArr []);
      if negb (jtruthy results) then Some web
      else
        places ← jslice 5 results;
        items ← mapM (fun place =>
                        name ← jget place "name" (JVal PyNone);
                        rating ← jget place "rating" (JVal PyNone);
                        price_level ← jget place "price_level" (JVal (PyInt 0));
                        location ← jget place "formatted_address" (JVal PyNone);
                        Some ({[ "name" := name; "type" := JVal query;
                                 "rating" := rating; "price_level" := price_level;
                                 "location" := location ]} : jitem))
                     places;
        Some (items, false) in
  default web body.

(** [[r for r in results if any(i.lower() in r.get('name', '').lower()
    for i in interests)]] for a non-empty list of interests. *)
Fixpoint named_after (interests : list string) (results : list json)
  : option (list json) :=
  match results with
  | [] => Some []
  | r :: results' =>
      name ← jget r "name" (JVal (PyStr ""));
      name_lower ← jlower name;
      kept ← named_after interests results';
      Some (if existsb (fun i => str_in (lower i) name_lower) interests
            then r :: kept else kept)
  end.

(** [get_tripadvisor_attractions(destination, interests)] *)
Definition get_tripadvisor_attractions (keys : Keys) (net : Net)
  (destination : string) (interests : option (list string)) : list jitem * bool :=
  let web :=
    get_web_based_recommendations keys net destination
      (match interests with
       | Some (i :: l) => PyList (i :: l)
       | _ => PyStr "attractions"
       end) in
  let body : option (list jitem * bool) :=
    if negb (configured (TRIPADVISOR_API_KEY keys)) then None
    else
      doc ← tripadvisor_api net destination (get_geocode keys net destination);
      results ← jget doc "data" (JArr []);
      places ←
        (match interests with
         | Some (i :: l) =>
             rs ← jiter results;
             kept ← named_after (i :: l) rs;
             Some (firstn 5 kept)
         | _ => jslice 5 results
         end);
      items ← mapM (fun place =>
                      name ← jget place "name" (JVal PyNone);
                      rating ← jget place "rating" (JVal PyNone);
                      address ← jget place "address_obj" (JObj []);
                      location ← jget address "address_string" (JVal PyNone);
                      Some ({[ "name" := name; "type" := JVal (PyStr "attraction");
                               "rating" := rating; "location" := location ]} : jitem))
                   places;
      Some (items, false) in
  default web body.

(** *** Sample configurations *)

(** No key is set, and no request succeeds. *)
Definition no_keys : Keys :=
  {| GOOGLE_PLACES_API_KEY := None; TRIPADVISOR_API_KEY := None;
     WEATHER_API_KEY := None; SERPER_API_KEY := None |}.

Definition all_keys : Keys :=
  {| GOOGLE_PLACES_API_KEY := Some "g"; TRIPADVISOR_API_KEY := Some "t";
     WEATHER_API_KEY := Some "w"; SERPER_API_KEY := Some "s" |}.

Definition unreachable : Net :=
  {| geocode_api := fun _ => None; places_api := fun _ _ => None;
     tripadvisor_api := fun _ _ => None; forecast_api := fun _ _ => None;
     weather_api := fun _ _ => None; serper_api := fun _ _ => None;
     google_page := fun _ _ => None; fetch_page := fun _ => None |}.

(** A network on which the services answer with sample documents. *)
Definition sample_place (name : string) : json :=
  JObj [("name", JVal (PyStr name)); ("rating", JVal (PyDec 45 1));
        ("formatted_address", JVal (PyStr "1 Main Street"));
        ("address_obj", JObj [("address_string", JVal (PyStr "1 Main Street"))])].

Definition sample_net : Net :=
  {| geocode_api := fun _ => Some (JObj [("status", JVal (PyStr "REQUEST_DENIED"))]);
     places_api := fun _ _ =>
       Some (JObj [("results", JArr [sample_place "Grand Hotel"; sample_place "Art Cafe"])]);
     tripadvisor_api := fun _ _ =>
       Some (JObj [("data", JArr [sample_place "Art Museum"; sample_place "Old Bridge"])]);
     forecast_api := fun _ _ => Some (JObj [("list", JArr [])]);
     weather_api := fun _ _ =>
       Some (JObj [("weather", JArr [JObj [("description", JVal (PyStr "clear sky"));
                                           ("icon", JVal (PyStr "01d"))]]);
                   ("main", JObj [("temp", JVal (PyDec 215 1))])]);
     serper_api := fun _ _ =>
       Some (JObj [("organic", JArr [JObj [("title", JVal (PyStr "Blog"));
                                           ("link", JVal (PyStr "https://blog.example"))]])]);
     google_page := fun _ _ => None;
     fetch_page := fun _ =>
       Some {| heading_texts := [" Top 10 sights "; "About us"; "The best cafes"];
               paragraph_texts := ["Our top 10 sights are all within walking distance.";
                                   "Short text."] |} |}.

(** * Properties *)
Example lower_ex : lower "2 WEEKS in Rome" = "2 weeks in rome".
Proof. reflexivity. Qed.

Example str_in_ex : str_in "week" "2 weeks" = true /\ str_in "week" "2 wee ks" = false.
Proof. split; reflexivity. Qed.

Example fmt_commas_ex :
  fmt_commas 2000 = "2,000" /\ fmt_commas 1000000 = "1,000,000" /\
  fmt_commas 999 = "999" /\ fmt_commas 1005 = "1,005" /\ fmt_commas 0 = "0".
Proof. repeat split; reflexivity. Qed.

Example title_ex : title "new york" = "New York" /\ strip "  a b  " = "a b".
Proof. split; reflexivity. Qed.

Example split_ex : split ", " "Art, Food" = ["Art"; "Food"] /\ split ", " "" = [""].
Proof. split; reflexivity. Qed.

Example extract_days_ex :
  extract_days (PyStr "2 weeks") = 7 /\ extract_days (PyStr "10 days") = 10 /\
  extract_days PyNone = 5 /\ extract_days (PyStr "a while") = 5 /\
  extract_days (PyStr "about 014 or 15") = 14 /\ extract_days (PyStr "0 days") = 0.
Proof. repeat split; reflexivity. Qed.

Example extract_budget_ex :
  extract_budget (PyStr "luxury trip") = 5000 /\ extract_budget PyNone = 2000 /\
  extract_budget (PyStr "$2,500.00") = 250000 /\ extract_budget (PyStr "1500") = 1500.
Proof. repeat split; reflexivity. Qed.

Example extract_duration_ex :
  extract_duration "2 weeks" = Some "2 days" /\
  extract_duration "a week" = None /\
  extract_duration "i have 2 kids and want 15 days" = Some "15 days" /\
  extract_duration "for 3 months" = Some "3 days" /\
  extract_duration "a 10-day trip" = Some "10 days" /\
  extract_duration "5 dayss" = None.
Proof. repeat split; vm_compute; reflexivity. Qed.

Example extract_destination_ex :
  extract_destination "going to paris for 7 days" = Some "Paris" /\
  extract_destination "in ," = Some "" /\
  extract_destination "tokyo" = Some "Tokyo" /\
  extract_destination "i am interested" = Some "Terested" /\
  extract_destination "visiting rome." = Some "Rome".
Proof. repeat split; vm_compute; reflexivity. Qed.

Example extract_budget_text_ex :
  extract_budget_text "budget of $2,500 " = Some "$2,500" /\
  extract_budget_text "moderate budget" = Some "moderate" /\
  extract_budget_text "about $300" = Some "300" /\
  extract_budget_text "300 dollars" = Some "300" /\
  extract_budget_text "300 usd" = None.
Proof. repeat split; vm_compute; reflexivity. Qed.
(** ** Strings *)

Lemma startswith_lower p s :
  startswith p s = true -> startswith (lower p) (lower s) = true.
Proof.
  revert s. induction p as [|a p IH]; intros [|b s]; simpl; try easy.
  intros H. apply andb_prop in H as [H1 H2].
  apply Ascii.eqb_eq in H1 as ->. rewrite Ascii.eqb_refl. simpl. auto.
Qed.

Lemma str_in_lower p s : str_in p s = true -> str_in (lower p) (lower s) = true.
Proof.
  induction s as [|b s IH]; simpl.
  - rewrite orb_false_r. intros H. apply startswith_lower in H. simpl in H.
    rewrite H. reflexivity.
  - intros H. apply orb_prop in H as [H|H].
    + apply (startswith_lower p (String b s)) in H. simpl in H. rewrite H. reflexivity.
    + rewrite (IH H). apply orb_true_r.
Qed.

Lemma startswith_app p s : startswith p (p ++ s) = true.
Proof. induction p as [|a p IH]; simpl; [reflexivity|]. rewrite Ascii.eqb_refl. exact IH. Qed.

Lemma str_in_prefix p s : startswith p s = true -> str_in p s = true.
Proof. intros H. destruct s; simpl; rewrite H; reflexivity. Qed.

Lemma str_in_app pre p post : str_in p (pre ++ p ++ post) = true.
Proof.
  induction pre as [|a pre IH].
  - change ("" ++ p ++ post) with (p ++ post).
    apply str_in_prefix, startswith_app.
  - change (String a pre ++ p ++ post) with (String a (pre ++ p ++ post)).
    cbn [str_in]. rewrite IH. apply orb_true_r.
Qed.

Lemma app_cons (x : ascii) (a b : string) : String x a ++ b = String x (a ++ b).
Proof. reflexivity. Qed.

Lemma app_nil (a : string) : "" ++ a = a.
Proof. reflexivity. Qed.

Lemma length_app (a b : string) :
  String.length (a ++ b) = (String.length a + String.length b)%nat.
Proof. induction a as [|c a IH]; simpl; [reflexivity|]. now rewrite IH. Qed.

Lemma take_app (a b : string) : take (String.length a) (a ++ b) = a.
Proof. induction a as [|c a IH]; simpl; [now destruct b|]. now rewrite IH. Qed.

Lemma take_consumed (a b : string) :
  take (String.length (a ++ b) - String.length b) (a ++ b) = a.
Proof.
  rewrite length_app. replace (_ + _ - _)%nat with (String.length a) by lia.
  apply take_app.
Qed.

Lemma app_assoc' (a b c : string) : (a ++ b) ++ c = a ++ b ++ c.
Proof. induction a as [|x a IH]; [reflexivity|]. rewrite !app_cons. f_equal. exact IH. Qed.

(** ** The matcher on runs of digits *)

Lemma shorter_tail a s : shorter s (String a s) = true.
Proof. unfold shorter. simpl. apply Nat.ltb_lt. lia. Qed.

(** Greedy repetition reads the whole run when the rest of the pattern
    accepts what follows it. *)
Lemma m_digit_cons {A} prev a s c (k : cont A) :
  m digit prev (String a s) c k = if is_digit a then k (Some a) s c else None.
Proof. reflexivity. Qed.

Lemma m_digit_nil {A} prev c (k : cont A) : m digit prev "" c k = None.
Proof. reflexivity. Qed.

Lemma star_digit_greedy {A} (k : cont A) ds : forall fuel prev rest c x,
  all_chars is_digit ds = true ->
  ends_run rest = true ->
  (String.length ds <= fuel)%nat ->
  k (after prev ds) rest c = Some x ->
  star_loop (m digit) k fuel prev (ds ++ rest) c = Some x.
Proof.
  induction ds as [|a ds IH]; intros fuel prev rest c x Hd He Hf Hk.
  - rewrite app_nil. simpl in Hk.
    destruct fuel; cbn [star_loop]; [exact Hk|].
    destruct rest as [|b rest]; [rewrite m_digit_nil; exact Hk|].
    simpl in He. apply negb_true_iff in He.
    rewrite m_digit_cons, He. exact Hk.
  - rewrite app_cons. simpl in Hd, Hf, Hk.
    apply andb_prop in Hd as [Ha Hd].
    destruct fuel as [|fuel]; [lia|]. cbn [star_loop].
    rewrite m_digit_cons, Ha, shorter_tail.
    rewrite (IH fuel (Some a) rest c x); auto. lia.
Qed.

(** A run of digits followed by something else: the first integer. *)
Lemma match_first_integer prev a ds rest :
  all_chars is_digit (String a ds) = true ->
  ends_run rest = true ->
  match_here first_integer_re prev (String a ds ++ rest) = Some [(1%nat, String a ds)].
Proof.
  intros Hd He. unfold match_here, first_integer_re, Plus.
  rewrite app_cons. simpl in Hd. cbn [m].
  apply andb_prop in Hd as [Ha Hd]. rewrite m_digit_cons, Ha.
  erewrite star_digit_greedy; eauto.
  - rewrite length_app. lia.
  - f_equal. unfold set_cap. f_equal. f_equal.
    rewrite <- app_cons. apply take_consumed.
Qed.

Lemma match_first_integer_none prev s :
  ends_run s = true -> match_here first_integer_re prev s = None.
Proof.
  intros He. unfold match_here, first_integer_re, Plus. cbn [m].
  destruct s as [|b s]; [reflexivity|]. simpl in He.
  apply negb_true_iff in He. now rewrite m_digit_cons, He.
Qed.

Lemma search_first_integer pre : forall prev a ds rest,
  no_digit pre = true ->
  all_chars is_digit (String a ds) = true ->
  ends_run rest = true ->
  search_from first_integer_re prev (pre ++ String a ds ++ rest)
  = Some [(1%nat, String a ds)].
Proof.
  induction pre as [|b pre IH]; intros prev a ds rest Hp Hd He.
  - rewrite app_nil.
    assert (H := match_first_integer prev a ds rest Hd He).
    rewrite app_cons in *. cbn [search_from]. now rewrite H.
  - simpl in Hp. apply andb_prop in Hp as [Hb Hp].
    rewrite (app_cons b). cbn [search_from].
    rewrite match_first_integer_none by (simpl; exact Hb).
    now apply IH.
Qed.

Lemma search_no_integer s : forall prev,
  no_digit s = true -> search_from first_integer_re prev s = None.
Proof.
  induction s as [|b s IH]; intros prev Hs.
  - reflexivity.
  - simpl in Hs. apply andb_prop in Hs as [Hb Hs].
    cbn [search_from].
    rewrite match_first_integer_none by (simpl; exact Hb).
    now apply IH.
Qed.

Lemma is_digit_lower_char c : is_digit (lower_char c) = is_digit c.
Proof. destruct c as [[] [] [] [] [] [] [] []]; reflexivity. Qed.

Lemma lower_app a b : lower (a ++ b) = lower a ++ lower b.
Proof.
  induction a as [|x a IH]; [reflexivity|].
  rewrite app_cons. cbn [lower]. rewrite app_cons. now rewrite IH.
Qed.

Lemma lower_digits ds : all_chars is_digit ds = true -> lower ds = ds.
Proof.
  induction ds as [|x ds IH]; [reflexivity|]. simpl. intros H.
  apply andb_prop in H as [Hx H]. rewrite (IH H). f_equal.
  unfold lower_char.
  destruct x as [[] [] [] [] [] [] [] []]; try reflexivity; discriminate Hx.
Qed.

Lemma no_digit_lower s : no_digit (lower s) = no_digit s.
Proof.
  induction s as [|x s IH]; [reflexivity|].
  unfold no_digit in *. simpl. now rewrite is_digit_lower_char, IH.
Qed.

Lemma ends_run_lower s : ends_run (lower s) = ends_run s.
Proof. destruct s as [|x s]; [reflexivity|]. simpl. now rewrite is_digit_lower_char. Qed.

Lemma mentions_literal word text :
  lower word = word -> str_in word text = true -> mentions word text = true.
Proof. intros Hw H. unfold mentions. rewrite <- Hw. now apply str_in_lower. Qed.

Lemma truthy_nonempty s : s <> "" -> truthy (PyStr s) = true.
Proof. intros H. simpl. destruct s; [congruence|reflexivity]. Qed.

Lemma mentions_nonempty p s : p <> "" -> mentions p s = true -> s <> "".
Proof.
  intros Hp H ->. unfold mentions in H. simpl in H.
  destruct p; [congruence|discriminate].
Qed.

(** [extract_days] on a non-empty text, by cases. *)
Lemma extract_days_text s :
  s <> "" ->
  extract_days (PyStr s) =
    if mentions "week" s then 7
    else if mentions "month" s then 30
    else match search first_integer_re (lower s) with
         | Some c =>
             match group c 1 with
             | Some d =>
                 if (int_max_str_digits <? String.length d)%nat then 5
                 else int_of_digits d
             | None => 5
             end
         | None => 5
         end.
Proof.
  intros H. unfold extract_days, extract_days_body. rewrite (truthy_nonempty s H).
  cbn [negb py_str]. fold (mentions "week" s). fold (mentions "month" s).
  destruct (mentions "week" s); [reflexivity|].
  destruct (mentions "month" s); [reflexivity|].
  destruct (search _ _) as [c|]; [|reflexivity].
  destruct (group c 1) as [d|]; [|reflexivity].
  unfold py_int. now destruct (_ <? _)%nat.
Qed.

(** [extract_days] on a text without "week" and "month" whose first run
    of digits is [ds]. *)
Lemma extract_days_run s pre ds rest :
  mentions "week" s = false -> mentions "month" s = false ->
  s = pre ++ ds ++ rest ->
  no_digit pre = true -> ds <> "" -> all_chars is_digit ds = true ->
  ends_run rest = true ->
  extract_days (PyStr s)
  = if (int_max_str_digits <? String.length ds)%nat then 5 else int_of_digits ds.
Proof.
  intros Hw Hm -> Hp Hn Hd He.
  destruct ds as [|a ds]; [congruence|].
  rewrite extract_days_text.
  2:{ destruct pre; [rewrite app_nil, app_cons|rewrite app_cons]; discriminate. }
  rewrite Hw, Hm. rewrite !lower_app, (lower_digits _ Hd).
  unfold search. rewrite search_first_integer; auto.
  - now rewrite no_digit_lower.
  - now rewrite ends_run_lower.
Qed.

(** C1 (amended). [extract_days] (daysFromDuration) returns 5 for a null
    input, and for an absent duration, which its caller replaces by
    "5 days"; 7 when the text contains "week", whatever number comes with
    it; 30 when it contains "month"; otherwise the first integer of the
    text, when its run of digits has at most 4300 digits, and 5 when the
    run is longer, since [int] then raises; and 5 when the text holds no
    integer. *)
Theorem extract_days_normalises :
  extract_days PyNone = 5 /\
  (forall user_info : gmap string val,
      user_info !! "duration" = None ->
      extract_days (dget_or user_info "duration" (PyStr "5 days")) = 5) /\
  extract_days (PyStr "2 weeks") = 7 /\
  (forall s, str_in "week" s = true \/ mentions "week" s = true ->
             extract_days (PyStr s) = 7) /\
  (forall s, mentions "week" s = false ->
             str_in "month" s = true \/ mentions "month" s = true ->
             extract_days (PyStr s) = 30) /\
  (forall s pre ds rest,
      mentions "week" s = false -> mentions "month" s = false ->
      s = pre ++ ds ++ rest ->
      no_digit pre = true -> ds <> "" -> all_chars is_digit ds = true ->
      ends_run rest = true ->
      ((String.length ds <= int_max_str_digits)%nat ->
       extract_days (PyStr s) = int_of_digits ds) /\
      ((int_max_str_digits < String.length ds)%nat ->
       extract_days (PyStr s) = 5)) /\
  (forall s, mentions "week" s = false -> mentions "month" s = false ->
             no_digit s = true -> extract_days (PyStr s) = 5).
Proof.
  split; [reflexivity|].
  split; [intros ui H; unfold dget_or; now rewrite H|].
  split; [reflexivity|].
  split; [|split; [|split]].
  - intros s H.
    assert (Hm : mentions "week" s = true).
    { destruct H as [H|H]; [|exact H]. now apply mentions_literal. }
    rewrite extract_days_text by (eapply mentions_nonempty; [|exact Hm]; discriminate).
    now rewrite Hm.
  - intros s Hw H.
    assert (Hm : mentions "month" s = true).
    { destruct H as [H|H]; [|exact H]. now apply mentions_literal. }
    rewrite extract_days_text by (eapply mentions_nonempty; [|exact Hm]; discriminate).
    now rewrite Hw, Hm.
  - intros s pre ds rest Hw Hm Hs Hp Hn Hd He.
    rewrite (extract_days_run s pre ds rest Hw Hm Hs Hp Hn Hd He).
    split; intros Hl.
    + apply Nat.ltb_ge in Hl. now rewrite Hl.
    + apply Nat.ltb_lt in Hl. now rewrite Hl.
  - intros s Hw Hm Hs.
    destruct s as [|a s]; [reflexivity|].
    rewrite extract_days_text by discriminate.
    rewrite Hw, Hm. unfold search.
    rewrite search_no_integer; [reflexivity|]. now rewrite no_digit_lower.
Qed.

Lemma extract_days_normalises_witness :
  extract_days (PyStr "a WEEK or 10 days") = 7 /\
  extract_days (PyStr "3 Months") = 30 /\
  extract_days (PyStr "about 12 nights") = 12 /\
  extract_days (PyStr "a long while") = 5.
Proof.
  destruct extract_days_normalises as (_ & _ & _ & Hweek & Hmonth & Hint & Hnone).
  split; [|split; [|split]].
  - apply Hweek. right. reflexivity.
  - apply Hmonth; [reflexivity|]. right. reflexivity.
  - apply (Hint _ "about " "12" " nights"); try reflexivity; [discriminate|].
    unfold int_max_str_digits. cbn. lia.
  - apply Hnone; reflexivity.
Defined.

(** A text of 4301 digits: the first integer found is not what
    [extract_days] returns. *)
Lemma extract_days_beyond_the_limit :
  let s := repeat_str 4301 "1" in
  mentions "week" s = false /\ mentions "month" s = false /\
  all_chars is_digit s = true /\
  extract_days (PyStr s) = 5 /\ int_of_digits s <> 5.
Proof.
  cbv zeta. split; [|split; [|split; [|split]]].
  - vm_compute. reflexivity.
  - vm_compute. reflexivity.
  - vm_compute. reflexivity.
  - rewrite (extract_days_run _ "" (repeat_str 4301 "1") "");
      try (vm_compute; reflexivity).
    apply String.eqb_neq. vm_compute. reflexivity.
  - apply Z.eqb_neq. vm_compute. reflexivity.
Qed.

(** ** Soundness of the matcher for patterns with digit groups *)

Lemma suffix_refl s : suffix_of s s.
Proof. exists "". reflexivity. Qed.

Lemma suffix_trans a b c : suffix_of a b -> suffix_of b c -> suffix_of a c.
Proof. intros [p ->] [q ->]. exists (q ++ p). now rewrite app_assoc'. Qed.

Lemma suffix_tail a s : suffix_of s (String a s).
Proof. exists (String a ""). reflexivity. Qed.

Lemma suffix_app a s : suffix_of s (a ++ s).
Proof. now exists a. Qed.

Lemma lit_sound {A} (k : cont A) l : forall prev s c x,
  lit l prev s c k = Some x ->
  exists prev' s', s = l ++ s' /\ k prev' s' c = Some x.
Proof.
  induction l as [|a l IH]; intros prev s c x H; cbn [lit] in H.
  - exists prev, s. split; [reflexivity|exact H].
  - destruct s as [|b s]; [discriminate|].
    destruct (Ascii.eqb a b) eqn:E; [|discriminate].
    apply Ascii.eqb_eq in E as <-.
    destruct (IH _ _ _ _ H) as (p' & s' & -> & Hk).
    exists p', s'. split; [reflexivity|exact Hk].
Qed.

Lemma star_digit_sound {A} (k : cont A) fuel : forall prev s c x,
  star_loop (m digit) k fuel prev s c = Some x ->
  exists ds s' prev',
    all_chars is_digit ds = true /\ s = ds ++ s' /\ k prev' s' c = Some x.
Proof.
  induction fuel as [|fuel IH]; intros prev s c x H; cbn [star_loop] in H.
  - exists "", s, prev. auto.
  - destruct s as [|a s].
    + rewrite m_digit_nil in H. exists "", "", prev. auto.
    + rewrite m_digit_cons in H. destruct (is_digit a) eqn:Ha.
      * rewrite shorter_tail in H.
        destruct (star_loop (m digit) k fuel (Some a) s c) as [y|] eqn:E.
        -- destruct (IH _ _ _ _ E) as (ds & s' & p' & Hd & -> & Hk).
           exists (String a ds), s', p'. simpl. rewrite Ha, Hd.
           injection H as <-. auto.
        -- exists "", (String a s), prev. auto.
      * exists "", (String a s), prev. auto.
Qed.

Lemma plus_digit_sound {A} (k : cont A) prev s c x :
  m (Plus digit) prev s c k = Some x ->
  exists ds s' prev',
    ds <> "" /\ all_chars is_digit ds = true /\ s = ds ++ s' /\
    k prev' s' c = Some x.
Proof.
  unfold Plus. cbn [m]. intros H.
  destruct s as [|a s]; [rewrite m_digit_nil in H; discriminate|].
  rewrite m_digit_cons in H. destruct (is_digit a) eqn:Ha; [|discriminate].
  destruct (star_digit_sound _ _ _ _ _ _ H) as (ds & s' & p' & Hd & -> & Hk).
  exists (String a ds), s', p'. simpl. rewrite Ha, Hd.
  repeat split; auto; discriminate.
Qed.

Lemma caps_digits_nil text : caps_digits text [].
Proof. intros n t H. discriminate H. Qed.

Lemma caps_digits_set text n t c :
  digits_in text t -> caps_digits text c -> caps_digits text (set_cap n t c).
Proof.
  intros Ht Hc n' t' H. unfold set_cap in H. cbn [group] in H.
  destruct (Nat.eqb n n'); [injection H as <-; exact Ht|]. eapply Hc, H.
Qed.

Lemma digits_in_suffix text ds rest :
  ds <> "" -> all_chars is_digit ds = true ->
  suffix_of (ds ++ rest) text -> digits_in text ds.
Proof.
  intros Hn Hd [p ->]. repeat split; auto. apply str_in_app.
Qed.

Section Loops.
Context {A : Type} (step : option ascii -> string -> caps -> cont A -> option A).
Context (text : string) (k : cont A).
Hypothesis step_sound :
  forall k' prev s c x,
    suffix_of s text -> caps_digits text c -> step prev s c k' = Some x ->
    exists prev' s' c',
      suffix_of s' s /\ caps_digits text c' /\ k' prev' s' c' = Some x.

Lemma star_sound fuel : forall prev s c x,
  suffix_of s text -> caps_digits text c ->
  star_loop step k fuel prev s c = Some x ->
  exists prev' s' c',
    suffix_of s' s /\ caps_digits text c' /\ k prev' s' c' = Some x.
Proof.
  induction fuel as [|fuel IH]; intros prev s c x Hs Hc H; cbn [star_loop] in H.
  - exists prev, s, c. auto using suffix_refl.
  - match type of H with
    | match ?e with _ => _ end = _ => destruct e as [y|] eqn:E
    end.
    + injection H as ->.
      destruct (step_sound _ _ _ _ _ Hs Hc E) as (p1 & s1 & c1 & Hs1 & Hc1 & Hk).
      cbv beta in Hk. destruct (shorter s1 s); [|discriminate].
      destruct (IH _ _ _ _ (suffix_trans _ _ _ Hs1 Hs) Hc1 Hk)
        as (p2 & s2 & c2 & Hs2 & Hc2 & Hk2).
      exists p2, s2, c2. eauto using suffix_trans.
    + exists prev, s, c. auto using suffix_refl.
Qed.

Lemma lazy_sound fuel : forall prev s c x,
  suffix_of s text -> caps_digits text c ->
  lazy_loop step k fuel prev s c = Some x ->
  exists prev' s' c',
    suffix_of s' s /\ caps_digits text c' /\ k prev' s' c' = Some x.
Proof.
  induction fuel as [|fuel IH]; intros prev s c x Hs Hc H;
    cbn [lazy_loop] in H;
    destruct (step_sound _ _ _ _ _ Hs Hc H) as (p1 & s1 & c1 & Hs1 & Hc1 & Hk);
    cbv beta in Hk; destruct (k p1 s1 c1) as [y|] eqn:E;
    try (exists p1, s1, c1; rewrite E; now auto); try discriminate.
  destruct (shorter s1 s); [|discriminate].
  destruct (IH _ _ _ _ (suffix_trans _ _ _ Hs1 Hs) Hc1 Hk)
    as (p2 & s2 & c2 & Hs2 & Hc2 & Hk2).
  exists p2, s2, c2. eauto using suffix_trans.
Qed.
End Loops.

(** A success of the matcher is a success of its continuation, further on
    in the text, with groups that are digit runs of the text. *)
Lemma m_digit_groups r : digit_groups r ->
  forall A (k : cont A) text prev s c x,
    suffix_of s text -> caps_digits text c ->
    m r prev s c k = Some x ->
    exists prev' s' c',
      suffix_of s' s /\ caps_digits text c' /\ k prev' s' c' = Some x.
Proof.
  induction 1 as [p|l|r1 r2 _ IH1 _ IH2|r1 r2 _ IH1 _ IH2|r _ IH|r _ IH|r _ IH
                 |n| | |];
    intros A k text prev s c x Hs Hc H; cbn [m] in H.
  - destruct s as [|a s]; [discriminate|]. destruct (p a); [|discriminate].
    exists (Some a), s, c. eauto using suffix_tail.
  - destruct (lit_sound _ _ _ _ _ _ H) as (p' & s' & -> & Hk).
    exists p', s', c. eauto using suffix_app.
  - destruct (IH1 _ _ _ _ _ _ _ Hs Hc H) as (p1 & s1 & c1 & Hs1 & Hc1 & H1).
    destruct (IH2 _ _ _ _ _ _ _ (suffix_trans _ _ _ Hs1 Hs) Hc1 H1)
      as (p2 & s2 & c2 & Hs2 & Hc2 & H2).
    exists p2, s2, c2. eauto using suffix_trans.
  - destruct (m r1 prev s c k) as [y|] eqn:E.
    + injection H as ->. eapply IH1; eauto.
    + eapply IH2; eauto.
  - destruct (m r prev s c k) as [y|] eqn:E.
    + injection H as ->. eapply IH; eauto.
    + exists prev, s, c. auto using suffix_refl.
  - eapply star_sound; eauto.
  - eapply lazy_sound; eauto.
  - destruct (plus_digit_sound _ _ _ _ _ H) as (ds & s' & p' & Hn & Hd & -> & Hk).
    rewrite take_consumed in Hk.
    exists p', s', (set_cap n ds c). split; [apply suffix_app|]. split; [|exact Hk].
    apply caps_digits_set; [|exact Hc].
    eapply digits_in_suffix; eauto.
  - destruct prev; [discriminate|]. exists None, s, c. auto using suffix_refl.
  - destruct s as [|a [|b s]].
    + exists prev, "", c. auto using suffix_refl.
    + destruct (Ascii.eqb a "010"); [|discriminate].
      exists prev, (String a ""), c. auto using suffix_refl.
    + discriminate.
  - destruct (xorb _ _); [|discriminate]. exists prev, s, c. auto using suffix_refl.
Qed.

Lemma search_from_digit_groups r : digit_groups r ->
  forall text s prev c,
    suffix_of s text -> search_from r prev s = Some c -> caps_digits text c.
Proof.
  intros Hr text s. induction s as [|a s IH]; intros prev c Hs H;
    cbn [search_from] in H; unfold match_here in H.
  - destruct (m r prev "" [] _) as [y|] eqn:E; [|discriminate].
    injection H as ->.
    destruct (m_digit_groups r Hr _ _ text _ _ _ _ Hs (caps_digits_nil text) E)
      as (_ & _ & c' & _ & Hc & [= <-]). exact Hc.
  - destruct (m r prev (String a s) [] _) as [y|] eqn:E.
    + injection H as ->.
      destruct (m_digit_groups r Hr _ _ text _ _ _ _ Hs (caps_digits_nil text) E)
        as (_ & _ & c' & _ & Hc & [= <-]). exact Hc.
    + eapply IH; eauto using suffix_trans, suffix_tail.
Qed.

(** ** Duration extraction *)

Lemma duration_re_groups : digit_groups duration_re.
Proof. unfold duration_re, unit_re. cbn [alt seq]. repeat constructor. Qed.

Lemma first_group_some c ns t :
  first_group c ns = Some t -> exists n, group c n = Some t.
Proof.
  induction ns as [|n ns IH]; cbn [first_group]; [discriminate|].
  destruct (group c n) as [g|] eqn:E; [|exact IH].
  destruct (String.eqb g ""); [exact IH|]. intros [= <-]. eauto.
Qed.

Lemma extract_duration_sound text d :
  extract_duration text = Some d ->
  exists n, d = n ++ " days" /\ digits_in text n.
Proof.
  unfold extract_duration, search. intros H.
  destruct (search_from duration_re None text) as [c|] eqn:E; [|discriminate].
  destruct (first_group c _) as [n|] eqn:G; [|discriminate].
  injection H as <-. exists n. split; [reflexivity|].
  destruct (first_group_some _ _ _ G) as [i Hi].
  eapply search_from_digit_groups; eauto using duration_re_groups, suffix_refl.
Qed.



Lemma lookup_set_if_ne {A} k k' (v : option A) (mp : gmap string A) :
  k <> k' -> set_if k v mp !! k' = mp !! k'.
Proof. intros H. destruct v; simpl; [now rewrite lookup_insert_ne|reflexivity]. Qed.

Lemma extracted_duration w text :
  text <> "" ->
  extract_travel_info w (PyStr text) !! "duration" = extract_duration (lower text).
Proof.
  intros H. unfold extract_travel_info.
  destruct (String.eqb_spec text ""); [congruence|].
  rewrite !lookup_set_if_ne by discriminate.
  destruct (extract_duration (lower text)); simpl.
  - now rewrite lookup_insert_eq.
  - rewrite lookup_set_if_ne by discriminate. apply lookup_empty.
Qed.









Lemma lit_match {A} (k : cont A) l : forall prev s c,
  lit l prev (l ++ s) c k = k (after prev l) s c.
Proof.
  induction l as [|a l IH]; intros prev s c; [now rewrite app_nil|].
  rewrite app_cons. cbn [lit after]. rewrite Ascii.eqb_refl. apply IH.
Qed.














(** ** Next question *)

Lemma falsy_unfilled p field :
  none_or_text (p !! field) = true ->
  truthy (dget p field) = false <-> unfilled p field.
Proof.
  unfold dget, unfilled. destruct (p !! field) as [[| | | |s|]|]; simpl; try discriminate.
  - intros _. split; auto.
  - intros _. destruct s; simpl; split; intros H; auto; try discriminate.
    destruct H as [H|H]; discriminate.
Qed.

Lemma first_missing_pos fields p :
  forallb (fun k => none_or_text (p !! k)) fields = true ->
  forall i field,
    fields !! i = Some field -> unfilled p field ->
    (forall j g, (j < i)%nat -> fields !! j = Some g -> ~ unfilled p g) ->
    first_missing fields p = Some field.
Proof.
  induction fields as [|f fields IH]; intros Ht i field Hi Hu Hb; [discriminate|].
  simpl in Ht. apply andb_prop in Ht as [Hf Ht]. cbn [first_missing].
  destruct i as [|i]; simpl in Hi.
  - injection Hi as ->. apply (falsy_unfilled _ _ Hf) in Hu. now rewrite Hu.
  - destruct (truthy (dget p f)) eqn:E; simpl.
    + apply (IH Ht i); auto. intros j g Hj Hg. apply (Hb (S j) g); [lia|exact Hg].
    + exfalso. apply (Hb O f); [lia|reflexivity|]. now apply falsy_unfilled.
Qed.

Lemma first_missing_none fields p :
  forallb (fun k => none_or_text (p !! k)) fields = true ->
  (forall field, In field fields -> ~ unfilled p field) ->
  first_missing fields p = None.
Proof.
  induction fields as [|f fields IH]; intros Ht Hall; [reflexivity|].
  simpl in Ht. apply andb_prop in Ht as [Hf Ht]. cbn [first_missing].
  destruct (truthy (dget p f)) eqn:E; simpl.
  - apply IH; auto. intros g Hg. apply Hall. now right.
  - exfalso. apply (Hall f); [now left|]. now apply falsy_unfilled.
Qed.

Lemma profile_required p :
  is_profile p -> forallb (fun k => none_or_text (p !! k)) required_fields = true.
Proof.
  unfold is_profile, profile_keys. rewrite forallb_app. intros H.
  now apply andb_prop in H as [H _].
Qed.

(** C3 (amended). [get_next_question] (nextPrompt) returns the identifier of
    the first slot, in the canonical order, that holds null or the empty
    string; when none of the eight slots does, it returns
    "confirm_generate". *)
Theorem next_question_first_unfilled (p : gmap string val) :
  is_profile p ->
  (forall i field,
      required_fields !! i = Some field -> unfilled p field ->
      (forall j g, (j < i)%nat -> required_fields !! j = Some g -> ~ unfilled p g) ->
      get_next_question p = "get_" ++ field) /\
  ((forall field, In field required_fields -> ~ unfilled p field) ->
   get_next_question p = "confirm_generate").
Proof.
  intros Hp. apply profile_required in Hp. unfold get_next_question. split.
  - intros i field Hi Hu Hb. now rewrite (first_missing_pos _ _ Hp i field).
  - intros Hall. now rewrite first_missing_none.
Qed.

Lemma next_question_first_unfilled_witness :
  get_next_question (profile_of [("destination", "Paris"); ("duration", "")])
  = "get_duration".
Proof.
  apply (next_question_first_unfilled
           (profile_of [("destination", "Paris"); ("duration", "")])
           eq_refl) with (i := 1%nat).
  - reflexivity.
  - right. reflexivity.
  - intros j g Hj Hg. destruct j as [|j]; [|lia].
    injection Hg as <-. intros [H|H]; discriminate H.
Defined.

(** C3 as stated fails: after the utterance "in ," the destination slot
    holds the empty string, which is not null; the first null slot is the
    duration, yet the destination is asked for again. *)
Lemma next_question_empty_destination :
  let p := user_info (snd (handle_user_response offline (PyStr "in ,")
                                                init_session_state)) in
  is_profile p /\
  p !! "destination" = Some (PyStr "") /\
  next_prompt_by_null p = "get_duration" /\
  get_next_question p = "get_destination" /\
  get_next_question p <> next_prompt_by_null p.
Proof. vm_compute. repeat split; congruence. Qed.

(** ** Preference filter *)

Lemma profile_field p k :
  is_profile p -> In k profile_keys -> none_or_text (p !! k) = true.
Proof. unfold is_profile. rewrite forallb_forall. auto. Qed.

Lemma item_field it k :
  is_item it -> In k ["name"; "type"; "dietary"] -> absent_or_text (it !! k) = true.
Proof. unfold is_item. rewrite forallb_forall. auto. Qed.

Lemma profile_not_empty p : is_profile p -> bool_decide (p = ∅) = false.
Proof.
  intros Hp. apply bool_decide_eq_false. intros ->.
  apply (profile_field _ "destination") in Hp; [|simpl; auto].
  rewrite lookup_empty in Hp. discriminate.
Qed.

Lemma truthy_text p k :
  none_or_text (p !! k) = true ->
  truthy (dget p k) = negb (String.eqb (text_of p k) "").
Proof.
  unfold dget, text_of. destruct (p !! k) as [[| | | |s|]|]; simpl; try discriminate;
    reflexivity.
Qed.

Lemma lower_field p k :
  none_or_text (p !! k) = true -> truthy (dget p k) = true ->
  py_lower (dget_or p k (PyStr "")) = Ok (lower (text_of p k)) /\
  (d ← dindex p k; py_lower d) = Ok (lower (text_of p k)).
Proof.
  unfold dget, dget_or, dindex, text_of.
  destruct (p !! k) as [[| | | |s|]|]; simpl; try discriminate; auto.
Qed.

Lemma lower_item_field it k :
  absent_or_text (it !! k) = true ->
  py_lower (dget_or it k (PyStr "")) = Ok (lower (text_of it k)).
Proof.
  unfold dget_or, text_of.
  destruct (it !! k) as [[| | | |s|]|]; simpl; try discriminate; auto.
Qed.

Lemma lower_item_index it k :
  absent_or_text (it !! k) = true -> has_key it k = true ->
  (d ← dindex it k; py_lower d) = Ok (lower (text_of it k)).
Proof.
  unfold has_key, dindex, text_of.
  destruct (it !! k) as [[| | | |s|]|]; simpl; try discriminate; auto.
Qed.

Lemma preference_interests_profile p :
  is_profile p -> preference_interests p = Ok (interest_keywords p).
Proof.
  intros Hp. unfold preference_interests, interest_keywords.
  assert (Hi := profile_field p "interests" Hp ltac:(simpl; auto 10)).
  rewrite (truthy_text _ _ Hi).
  destruct (String.eqb (text_of p "interests") "") eqn:E; simpl; [reflexivity|].
  destruct (lower_field p "interests" Hi) as [-> _]; [|reflexivity].
  rewrite (truthy_text _ _ Hi), E. reflexivity.
Qed.

Lemma is_item_filterable p it : is_item it -> filterable p it.
Proof.
  intros Hit. split; [|split]; intros _; [split| |];
    apply item_field; simpl; auto.
Qed.

(** A profile without interests, dietary restrictions and accommodation
    preference asks nothing of the items. *)
Lemma filterable_without_preferences p it :
  truthy (dget p "interests") = false ->
  truthy (dget p "dietary_restrictions") = false ->
  truthy (dget p "accommodation_preference") = false ->
  filterable p it.
Proof. intros H1 H2 H3. unfold filterable. rewrite H1, H2, H3. repeat split; discriminate. Qed.

(** On data that it can test the loop body decides exactly the three
    keep-conditions. *)
Lemma keep_item_filterable p it :
  is_profile p -> filterable p it ->
  keep_item (interest_keywords p) p it = Ok (kept p it).
Proof.
  intros Hp (Hfi & Hfd & Hfa). unfold keep_item, kept.
  assert (Hi := profile_field p "interests" Hp ltac:(simpl; auto 10)).
  assert (Hd := profile_field p "dietary_restrictions" Hp ltac:(simpl; auto 10)).
  assert (Ha := profile_field p "accommodation_preference" Hp ltac:(simpl; auto 10)).
  assert (E1 : match interest_keywords p with
               | [] => Ok false
               | _ =>
                   item_name ← py_lower (dget_or it "name" (PyStr ""));
                   item_type ← py_lower (dget_or it "type" (PyStr ""));
                   Ok (existsb (fun interest =>
                                  str_in interest item_name || str_in interest item_type)
                               (interest_keywords p))
               end = Ok (interest_match p it)).
  { unfold interest_match. destruct (interest_keywords p) eqn:E; [reflexivity|].
    destruct Hfi as [Hn Ht].
    { rewrite (truthy_text _ _ Hi). unfold interest_keywords in E.
      destruct (String.eqb (text_of p "interests") ""); [discriminate|reflexivity]. }
    rewrite (lower_item_field _ _ Hn), (lower_item_field _ _ Ht). reflexivity. }
  rewrite E1. cbn [mbind result_bind Py.bind].
  destruct (interest_match p it); [reflexivity|]. cbn [orb].
  assert (E2 : (if has_key it "dietary" && truthy (dget p "dietary_restrictions")
                then
                  want ← (d ← dindex p "dietary_restrictions"; py_lower d);
                  have ← (d ← dindex it "dietary"; py_lower d);
                  Ok (str_in want have)
                else Ok false) = Ok (dietary_match p it)).
  { unfold dietary_match. rewrite <- (truthy_text _ _ Hd).
    destruct (has_key it "dietary") eqn:Ek; [|reflexivity].
    destruct (truthy (dget p "dietary_restrictions")) eqn:Et; [|reflexivity].
    cbn [andb].
    destruct (lower_field p _ Hd Et) as [_ ->].
    rewrite (lower_item_index _ _ (Hfd eq_refl) Ek). reflexivity. }
  rewrite E2. cbn [mbind result_bind Py.bind].
  destruct (dietary_match p it); [reflexivity|]. cbn [orb].
  unfold accommodation_match. rewrite <- (truthy_text _ _ Ha).
  destruct (has_key it "type") eqn:Ek; [|reflexivity].
  destruct (truthy (dget p "accommodation_preference")) eqn:Et; [|reflexivity].
  cbn [andb].
  destruct (lower_field p _ Ha Et) as [_ ->].
  rewrite (lower_item_index _ _ (Hfa eq_refl) Ek). reflexivity.
Qed.

Lemma filter_loop_filterable p items : forall acc,
  is_profile p -> Forall (filterable p) items ->
  for_each (fun filtered it =>
              keep ← keep_item (interest_keywords p) p it;
              Ok (if keep : bool then (filtered ++ [it])%list else filtered))
           items acc
  = Ok (acc ++ List.filter (kept p) items)%list.
Proof.
  induction items as [|it items IH]; intros acc Hp Hi; cbn [for_each List.filter].
  - now rewrite app_nil_r.
  - inversion Hi as [|? ? Hit Hits]; subst.
    rewrite (keep_item_filterable _ _ Hp Hit). cbn [mbind result_bind Py.bind].
    rewrite IH by assumption.
    destruct (kept p it); [|reflexivity]. now rewrite <- app_assoc.
Qed.

Lemma filter_loop p items : forall acc,
  is_profile p -> Forall is_item items ->
  for_each (fun filtered it =>
              keep ← keep_item (interest_keywords p) p it;
              Ok (if keep : bool then (filtered ++ [it])%list else filtered))
           items acc
  = Ok (acc ++ List.filter (kept p) items)%list.
Proof.
  intros acc Hp Hi. apply filter_loop_filterable; [exact Hp|].
  eapply Forall_impl; [exact Hi|]. intros it. apply is_item_filterable.
Qed.

(** [filter_by_preferences] on data that it can test. *)
Lemma filter_by_preferences_filterable items p :
  is_profile p -> Forall (filterable p) items ->
  filter_by_preferences items p
  = Ok (match List.filter (kept p) items with
        | [] => firstn 5 items
        | l => l
        end).
Proof.
  intros Hp Hi. unfold filter_by_preferences. rewrite (profile_not_empty _ Hp).
  cbn [orb]. destruct items as [|it items]; [reflexivity|].
  rewrite bool_decide_eq_false_2 by discriminate.
  rewrite (preference_interests_profile _ Hp). cbn [mbind result_bind Py.bind].
  rewrite filter_loop_filterable by assumption. cbn [mbind result_bind Py.bind].
  rewrite app_nil_l. now destruct (List.filter (kept p) (it :: items)).
Qed.

(** [filter_by_preferences] on typed data. *)
Lemma filter_by_preferences_typed items p :
  is_profile p -> Forall is_item items ->
  filter_by_preferences items p
  = Ok (match List.filter (kept p) items with
        | [] => firstn 5 items
        | l => l
        end).
Proof.
  intros Hp Hi. apply filter_by_preferences_filterable; [exact Hp|].
  eapply Forall_impl; [exact Hi|]. intros it. apply is_item_filterable.
Qed.

(** The loop raises at an item whose category is not a string, when the
    profile has interests. *)
Lemma filter_raises_at_null_type :
  filter_by_preferences [null_typed_place] (profile_of [("interests", "Art")])
  = Raise (no_attr "NoneType" "lower").
Proof.
  unfold filter_by_preferences.
  rewrite (profile_not_empty (profile_of [("interests", "Art")]) eq_refl).
  rewrite bool_decide_eq_false_2 by discriminate. reflexivity.
Qed.

(** C5 (amended). On a non-empty list of items that the filter can test
    with the profile (name and category are strings when the profile has
    interests, the dietary tag is one when it has dietary restrictions,
    the category is one when it has an accommodation preference; absent
    fields are fine) the preference filter returns a non-empty list; when
    no item satisfies a keep-condition it returns exactly the first five
    items of the list. *)
Theorem filter_never_empty (items : list item) (p : gmap string val) :
  is_profile p -> Forall (filterable p) items -> items <> [] ->
  exists l,
    filter_by_preferences items p = Ok l /\ l <> [] /\
    (Forall (fun it => kept p it = false) items -> l = firstn 5 items).
Proof.
  intros Hp Hi Hne. rewrite (filter_by_preferences_filterable _ _ Hp Hi).
  eexists. split; [reflexivity|]. split.
  - destruct (List.filter (kept p) items) eqn:E; [|discriminate].
    destruct items; [congruence|discriminate].
  - intros Hnone.
    assert (E : List.filter (kept p) items = []).
    { clear -Hnone. induction Hnone as [|it l H _ IH]; [reflexivity|].
      cbn [List.filter]. now rewrite H. }
    now rewrite E.
Qed.

Lemma filter_never_empty_witness :
  exists l,
    filter_by_preferences six_items (profile_of [("interests", "Opera")]) = Ok l /\
    l <> [] /\
    (Forall (fun it => kept (profile_of [("interests", "Opera")]) it = false) six_items ->
     l = firstn 5 six_items).
Proof.
  apply (filter_never_empty six_items (profile_of [("interests", "Opera")])).
  - reflexivity.
  - repeat (constructor; [apply is_item_filterable; reflexivity|]). constructor.
  - discriminate.
Defined.

(** C5 as stated fails: a place with a null category, as the places
    provider builds it when the accommodation preference is unset, makes
    the filter raise once the profile has interests; the list is not
    empty and nothing is returned. *)
Lemma filter_fails_on_null_category :
  is_profile (profile_of [("interests", "Art")]) /\
  [null_typed_place] <> [] /\
  null_typed_place !! "type" = Some PyNone /\
  filter_by_preferences [null_typed_place] (profile_of [("interests", "Art")])
  = Raise (no_attr "NoneType" "lower") /\
  (forall l,
      filter_by_preferences [null_typed_place] (profile_of [("interests", "Art")])
      <> Ok l).
Proof.
  split; [reflexivity|]. split; [discriminate|]. split; [reflexivity|].
  rewrite filter_raises_at_null_type. split; [reflexivity|]. discriminate.
Qed.

(** The three conditions that do not look at the interests. *)
Lemma kept_without_interests p it :
  text_of p "interests" = "" ->
  kept p it = dietary_match p it || accommodation_match p it.
Proof.
  intros H. unfold kept, interest_match, interest_keywords. now rewrite H.
Qed.

(** C6 (amended). With no interests set, and on items that the filter can
    test with the profile (the dietary tag is a string when the profile has
    dietary restrictions, the category is one when it has an accommodation
    preference), the filter keeps the items matched by dietary tag or
    accommodation category and, when there is none, returns the first
    five items; so the input comes back unchanged when it has at most five
    items and none of them matches. *)
Theorem filter_without_interests (items : list item) (p : gmap string val) :
  is_profile p -> Forall (filterable p) items -> unfilled p "interests" ->
  filter_by_preferences items p
  = Ok (match List.filter (fun it => dietary_match p it || accommodation_match p it) items with
        | [] => firstn 5 items
        | l => l
        end) /\
  ((List.length items <= 5)%nat ->
   Forall (fun it => dietary_match p it || accommodation_match p it = false) items ->
   filter_by_preferences items p = Ok items).
Proof.
  intros Hp Hi Hu.
  assert (Ht : text_of p "interests" = "").
  { unfold text_of. destruct Hu as [-> | ->]; reflexivity. }
  rewrite (filter_by_preferences_filterable _ _ Hp Hi).
  assert (E : List.filter (kept p) items
              = List.filter (fun it => dietary_match p it || accommodation_match p it) items).
  { clear -Ht. induction items as [|it l IH]; [reflexivity|].
    cbn [List.filter]. now rewrite IH, (kept_without_interests _ _ Ht). }
  rewrite E. split; [reflexivity|].
  intros Hlen Hnone.
  assert (E' : List.filter (fun it => dietary_match p it || accommodation_match p it) items = []).
  { clear -Hnone. induction Hnone as [|it l H _ IH]; [reflexivity|].
    cbn [List.filter]. now rewrite H. }
  rewrite E'. f_equal. apply firstn_all2. exact Hlen.
Qed.

Lemma filter_without_interests_witness :
  filter_by_preferences (null_typed_place :: firstn 3 six_items) empty_profile
  = Ok (null_typed_place :: firstn 3 six_items).
Proof.
  apply (filter_without_interests (null_typed_place :: firstn 3 six_items) empty_profile).
  - reflexivity.
  - repeat (constructor; [apply filterable_without_preferences; reflexivity|]).
    constructor.
  - left. reflexivity.
  - simpl. lia.
  - repeat constructor.
Defined.

(** C6 as stated fails: with no interests set, six items come back as
    five. *)
Lemma filter_without_interests_truncates :
  is_profile empty_profile /\
  empty_profile !! "interests" = Some PyNone /\
  filter_by_preferences six_items empty_profile = Ok (firstn 5 six_items) /\
  filter_by_preferences six_items empty_profile <> Ok six_items.
Proof.
  split; [reflexivity|]. split; [reflexivity|].
  assert (E : filter_by_preferences six_items empty_profile = Ok (firstn 5 six_items)).
  { rewrite filter_by_preferences_typed; [reflexivity|reflexivity|repeat constructor]. }
  split; [exact E|]. rewrite E. intros H. injection H as H.
  apply (f_equal List.length) in H. discriminate H.
Qed.

(** ** Turn handler *)

Lemma lookup_merge ex (ui : gmap string val) k :
  merge_extracted ex ui !! k =
    match ex !! k with Some s => Some (PyStr s) | None => ui !! k end.
Proof.
  unfold merge_extracted. rewrite lookup_union, lookup_fmap.
  destruct (ex !! k), (ui !! k); reflexivity.
Qed.

Lemma is_profile_merge ex ui : is_profile ui -> is_profile (merge_extracted ex ui).
Proof.
  unfold is_profile. rewrite !forallb_forall. intros H k Hk.
  rewrite lookup_merge. destruct (ex !! k); [reflexivity|]. now apply H.
Qed.

(** A turn on a non-empty text, unfolded: the utterance is merged and
    recorded; then the generation gate answers, or the default rule runs
    and the next question is chosen. *)
Lemma handle_turn_text w text st :
  text <> "" ->
  handle_turn w (PyStr text) st =
    let st1 := recorded w text st in
    if ready_to_generate (user_info st1) then
      if str_in "yes" (lower text) || str_in "generate" (lower text) then
        match generate_detailed_itinerary w (user_info st1) st1 with
        | (Ok itinerary, st2) =>
            (Ok itinerary, set_user_info (<["itinerary" := PyStr itinerary]>) st2)
        | (Raise e, st2) => (Raise e, st2)
        end
      else (Ok offer_reply, st1)
    else
      match dietary_default (user_info st1) with
      | Ok info =>
          (Ok (answer text (get_next_question info)), set_user_info (fun _ => info) st1)
      | Raise e => (Raise e, st1)
      end.
Proof.
  intros H. unfold handle_turn. rewrite (truthy_nonempty _ H). cbn [negb].
  unfold mbind, M_bind, m_bind, m_modify, m_get, mret, M_ret, m_ret, m_lift.
  cbv beta iota zeta. fold (recorded w text st).
  destruct (ready_to_generate _); [|now destruct (dietary_default _)].
  destruct (_ || _); [|reflexivity].
  now destruct (generate_detailed_itinerary _ _ _) as [[?|?] ?].
Qed.

Lemma recorded_user_info w text st : user_info (recorded w text st) = merged w text st.
Proof. reflexivity. Qed.

(** C10. For an input that is empty or not a string the turn handler
    answers "Please provide a valid travel request" and leaves the whole
    session, profile and conversation included, as it was. *)
Theorem invalid_input_changes_nothing (w : World) (prompt : val) (st : Session) :
  truthy prompt = false \/ is_str prompt = false ->
  handle_user_response w prompt st = (Ok "Please provide a valid travel request", st).
Proof.
  intros [H|H]; unfold handle_user_response, m_catch, handle_turn.
  - destruct prompt; try reflexivity. rewrite H. reflexivity.
  - destruct prompt; try reflexivity. discriminate H.
Qed.

Lemma invalid_input_changes_nothing_witness :
  handle_user_response offline (PyStr "") init_session_state
    = (Ok "Please provide a valid travel request", init_session_state) /\
  handle_user_response offline (PyInt 7) init_session_state
    = (Ok "Please provide a valid travel request", init_session_state).
Proof.
  split.
  - apply (invalid_input_changes_nothing offline (PyStr "") init_session_state).
    left. reflexivity.
  - apply (invalid_input_changes_nothing offline (PyInt 7) init_session_state).
    right. reflexivity.
Defined.

(** The default rule on a typed profile. *)
Lemma dietary_default_profile p :
  none_or_text (p !! "interests") = true ->
  dietary_default p =
    Ok (if negb (truthy (dget p "dietary_restrictions")) &&
           negb (mentions "food" (text_of p "interests"))
        then <["dietary_restrictions" := PyStr "None"]> p else p).
Proof.
  intros Hi. unfold dietary_default, mentions.
  destruct (truthy (dget p "dietary_restrictions")); [reflexivity|]. cbn [negb andb].
  unfold dget_or, text_of.
  destruct (p !! "interests") as [[| | | |s|]|]; try discriminate; cbn.
  - reflexivity.
  - destruct s; reflexivity.
Qed.

(** While a core slot is missing, the next question is about a core slot. *)
Lemma first_missing_core p :
  ready_to_generate p = false ->
  exists field, In field core_fields /\ first_missing required_fields p = Some field.
Proof.
  unfold ready_to_generate, required_fields, core_fields. cbn [forallb first_missing].
  destruct (truthy (dget p "destination")); cbn [negb andb]; [|eauto 10 using in_eq, in_cons].
  destruct (truthy (dget p "duration")); cbn [negb andb]; [|eauto 10 using in_eq, in_cons].
  destruct (truthy (dget p "budget")); cbn [negb andb]; [|eauto 10 using in_eq, in_cons].
  destruct (truthy (dget p "purpose")); cbn [negb andb]; [|eauto 10 using in_eq, in_cons].
  destruct (truthy (dget p "interests")); cbn [negb andb]; [discriminate|].
  eauto 10 using in_eq, in_cons.
Qed.

Lemma ready_insert_dietary p v :
  ready_to_generate (<["dietary_restrictions" := v]> p) = ready_to_generate p.
Proof.
  unfold ready_to_generate, core_fields, dget. cbn [forallb].
  now rewrite !lookup_insert_ne by discriminate.
Qed.

Lemma refine_not_dietary text field q :
  refine_vague_input text field = Some q ->
  String.eqb q dietary_question = false /\ q <> "".
Proof.
  unfold refine_vague_input.
  repeat match goal with
         | |- context [if ?b then _ else _] => destruct b
         end; intros [= <-]; (split; [vm_compute; reflexivity|discriminate]).
Qed.

Lemma question_core field :
  In field core_fields ->
  String.eqb (assoc_or ("get_" ++ field) question_map
                       "How can I help you with your travel plans?")
             dietary_question = false.
Proof.
  intros Hf. simpl in Hf.
  destruct Hf as [<-|[<-|[<-|[<-|[<-|[]]]]]]; vm_compute; reflexivity.
Qed.

(** The reply to a question about a core slot is never the dietary
    question. *)
Lemma answer_core text field :
  In field core_fields -> answer text ("get_" ++ field) <> dietary_question.
Proof.
  intros Hf. apply String.eqb_neq. unfold answer.
  destruct (if existsb _ _ then _ else _) as [q|] eqn:Er.
  - destruct (existsb _ _); [|discriminate].
    destruct (refine_not_dietary _ _ _ Er) as [Hq Hne].
    destruct (String.eqb_spec q ""); [congruence|exact Hq].
  - now apply question_core.
Qed.

(** ** Itinerary composer *)

Lemma render_overview_title place days d p :
  exists rest, render_overview place days d p = "# " ++ rest.
Proof. unfold render_overview. eexists. reflexivity. Qed.

(** A composed itinerary starts with its title line and holds the budget
    section computed by [budget_breakdown]. *)
Lemma compose_shape w p st s st' :
  compose w p st = (Ok s, st') ->
  exists pre post bd,
    budget_breakdown (extract_budget (dget_or p "budget" (PyStr "$2000")))
                     (extract_days (dget_or p "duration" (PyStr "5 days"))) = Ok bd /\
    s = "# " ++ pre ++
        budget_heading (extract_budget (dget_or p "budget" (PyStr "$2000"))) ++
        render_breakdown (extract_budget (dget_or p "budget" (PyStr "$2000"))) bd ++ post.
Proof.
  unfold compose.
  unfold mbind, M_bind, m_bind, m_get, mret, M_ret, m_ret, m_lift.
  cbv beta iota zeta. intros H.
  repeat match type of H with
         | (let (_, _) := ?c in _) = _ => destruct c as [[?|?] ?] eqn:?; [|discriminate H]
         | match ?c with _ => _ end = _ => destruct c as [?|?] eqn:?; [|discriminate H]
         end.
  match type of H with
  | (Ok (if used_web_search ?st1
         then (((?o ++ ?a) ++ ?sch ++ _) ++ _ ++ ?t) ++ _ else _), _) = _ =>
      match o with
      | render_overview ?pl ?d ?di ?ui =>
          destruct (render_overview_title pl d di ui) as [rest Ho]
      end;
      exists (rest ++ a ++ sch),
             (if used_web_search st1 then t ++ web_search_note else t);
      rewrite Ho in H
  end.
  match goal with
  | E : budget_breakdown _ _ = Ok ?b |- _ => exists b
  end.
  split; [reflexivity || assumption|].
  injection H as <- _.
  match goal with |- (if ?c then _ else _) = _ => destruct c end;
    now rewrite !app_assoc'.
Qed.

(** The two outcomes of [generate_detailed_itinerary]. *)
Lemma generate_outcome w p st :
  exists s st',
    generate_detailed_itinerary w p st = (Ok s, st') /\
    (compose w p st = (Ok s, st') \/
     exists e, compose w p st = (Raise e, st') /\
               s = "⚠️ Error generating itinerary: " ++ exn_str e).
Proof.
  unfold generate_detailed_itinerary, m_catch.
  destruct (compose w p st) as [[s|e] st'] eqn:E.
  - exists s, st'. auto.
  - exists ("⚠️ Error generating itinerary: " ++ exn_str e), st'.
    split; [reflexivity|]. right. eauto.
Qed.

(** C8. Composing an itinerary never raises: whatever the profile, the
    providers and the session, [generate_detailed_itinerary] returns a
    string, the composed document or, when anything in the composition
    raised, the error line built from the exception. *)
Theorem generate_never_raises (w : World) (p : gmap string val) (st : Session) :
  exists s st',
    generate_detailed_itinerary w p st = (Ok s, st') /\
    (compose w p st = (Ok s, st') \/
     exists e, compose w p st = (Raise e, st') /\
               s = "⚠️ Error generating itinerary: " ++ exn_str e).
Proof. exact (generate_outcome w p st). Qed.

(** The error branch is taken: a stay of zero days divides by zero, and a
    profile without a destination has no text to title-case. *)
Example generate_zero_days :
  fst (generate_detailed_itinerary offline
         (profile_of [("destination", "Paris"); ("duration", "0 days")])
         init_session_state)
  = Ok "⚠️ Error generating itinerary: float division by zero".
Proof. vm_compute. reflexivity. Qed.

Example generate_no_destination :
  fst (generate_detailed_itinerary offline empty_profile init_session_state)
  = Ok "⚠️ Error generating itinerary: 'NoneType' object has no attribute 'lower'".
Proof. vm_compute. reflexivity. Qed.

(** What [generate_detailed_itinerary] returns starts with "#" or with the
    warning sign: it is never one of the questions. *)
Lemma generate_not_a_question w p st s st' :
  generate_detailed_itinerary w p st = (Ok s, st') -> s <> dietary_question.
Proof.
  intros H. destruct (generate_outcome w p st) as (s0 & st0 & H0 & Hs).
  rewrite H in H0. injection H0 as <- <-.
  destruct Hs as [Hc|(e & _ & ->)]; [|discriminate].
  destruct (compose_shape _ _ _ _ _ Hc) as (pre & post & bd & _ & ->). discriminate.
Qed.

(** ** The default rule and the clarifications *)

Lemma first_missing_some fields p field :
  first_missing fields p = Some field ->
  In field fields /\ truthy (dget p field) = false.
Proof.
  induction fields as [|f fields IH]; cbn [first_missing]; [discriminate|].
  destruct (truthy (dget p f)) eqn:E; cbn [negb].
  - intros H. destruct (IH H). split; [now right|assumption].
  - intros [= <-]. split; [now left|assumption].
Qed.

Lemma core_field_missing p field :
  In field core_fields -> truthy (dget p field) = false -> ready_to_generate p = false.
Proof.
  unfold ready_to_generate. intros Hf Ht.
  destruct (forallb _ core_fields) eqn:E; [|reflexivity].
  rewrite forallb_forall in E. rewrite (E _ Hf) in Ht. discriminate.
Qed.

Lemma handle_scan w text st info :
  text <> "" ->
  ready_to_generate (merged w text st) = false ->
  dietary_default (merged w text st) = Ok info ->
  handle_user_response w (PyStr text) st
  = (Ok (answer text (get_next_question info)),
     set_user_info (fun _ => info) (recorded w text st)).
Proof.
  intros Ht Hr Hd. unfold handle_user_response, m_catch.
  rewrite handle_turn_text by exact Ht. cbv zeta.
  rewrite recorded_user_info, Hr, Hd. reflexivity.
Qed.

(** Whatever the turn, the reply is not the dietary question. *)
Lemma never_dietary_question w text st reply st' :
  text <> "" ->
  handle_user_response w (PyStr text) st = (Ok reply, st') ->
  reply <> dietary_question.
Proof.
  intros Ht. unfold handle_user_response, m_catch.
  rewrite handle_turn_text by exact Ht. cbv zeta. rewrite recorded_user_info.
  destruct (ready_to_generate (merged w text st)) eqn:Hr.
  - destruct (_ || _).
    + destruct (generate_detailed_itinerary _ _ _) as [[s|e] st2] eqn:G.
      * intros [= <- _]. eapply generate_not_a_question, G.
      * intros [= <- _]. discriminate.
    + intros [= <- _]. discriminate.
  - destruct (dietary_default (merged w text st)) as [info|e] eqn:Hd.
    + intros [= <- _]. unfold get_next_question.
      assert (Hr' : ready_to_generate info = false).
      { unfold dietary_default in Hd.
        destruct (negb _); [|now injection Hd as <-].
        destruct (py_lower _); [|discriminate]. cbn in Hd.
        injection Hd as <-. destruct (negb _); [|exact Hr].
        now rewrite ready_insert_dietary. }
      destruct (first_missing_core _ Hr') as (field & Hf & ->).
      now apply answer_core.
    + intros [= <- _]. discriminate.
Qed.

(** C4 (amended). In a turn that the generation gate does not answer, one
    in which a core slot is still unfilled after the merge, a profile
    whose dietary restrictions are unset and whose interests do not
    mention "food", whatever the case of the letters, has its dietary
    restrictions set to the string "None" before the next-slot scan runs;
    the scan then does not stop at the dietary slot.  In every turn, of
    either kind, the reply is not the dietary question. *)
Theorem dietary_default_before_scan (w : World) (text : string) (st : Session) :
  text <> "" -> is_profile (user_info st) ->
  unfilled (merged w text st) "dietary_restrictions" ->
  mentions "food" (text_of (merged w text st) "interests") = false ->
  (ready_to_generate (merged w text st) = false ->
   handle_user_response w (PyStr text) st
   = (Ok (answer text
            (get_next_question
               (<["dietary_restrictions" := PyStr "None"]> (merged w text st)))),
      set_user_info
        (fun _ => <["dietary_restrictions" := PyStr "None"]> (merged w text st))
        (recorded w text st)) /\
   get_next_question (<["dietary_restrictions" := PyStr "None"]> (merged w text st))
   <> "get_dietary_restrictions") /\
  (forall reply st',
      handle_user_response w (PyStr text) st = (Ok reply, st') ->
      reply <> dietary_question).
Proof.
  intros Ht Hp Hu Hf. split.
  - intros Hr. split.
    + apply handle_scan; auto.
      rewrite dietary_default_profile.
      * assert (E : truthy (dget (merged w text st) "dietary_restrictions") = false).
        { apply falsy_unfilled; [|exact Hu].
          apply profile_field; [now apply is_profile_merge|simpl; auto 10]. }
        now rewrite E, Hf.
      * apply profile_field; [now apply is_profile_merge|simpl; auto 10].
    + unfold get_next_question.
      destruct (first_missing_core
                  (<["dietary_restrictions" := PyStr "None"]> (merged w text st)))
        as (field & Hin & ->); [now rewrite ready_insert_dietary|].
      simpl in Hin. destruct Hin as [<-|[<-|[<-|[<-|[<-|[]]]]]]; discriminate.
  - intros reply st'. now apply never_dietary_question.
Qed.

Lemma dietary_default_before_scan_witness :
  handle_user_response offline (PyStr "going to Paris for art") init_session_state
  = (Ok "How many days will your trip be?",
     set_user_info
       (fun _ => <["dietary_restrictions" := PyStr "None"]>
                   (merged offline "going to Paris for art" init_session_state))
       (recorded offline "going to Paris for art" init_session_state)).
Proof.
  apply (dietary_default_before_scan offline "going to Paris for art" init_session_state).
  - discriminate.
  - reflexivity.
  - left. vm_compute. reflexivity.
  - vm_compute. reflexivity.
  - vm_compute. reflexivity.
Defined.

(** C4 as stated fails in a turn that the generation gate answers: the
    five core slots are filled, the dietary restrictions are unset and the
    interests do not mention "food", yet the turn replies with the offer
    to generate and leaves the dietary restrictions unset. *)
Lemma dietary_default_skipped_by_the_gate :
  let st := session_of (profile_of [("destination", "Paris"); ("duration", "3 days");
                                    ("budget", "2000"); ("purpose", "Leisure");
                                    ("interests", "Art")]) in
  is_profile (user_info st) /\
  unfilled (merged offline "hello" st) "dietary_restrictions" /\
  mentions "food" (text_of (merged offline "hello" st) "interests") = false /\
  fst (handle_user_response offline (PyStr "hello") st)
  = Ok ("I have enough information to generate your itinerary. " ++
        "Would you like me to create it now?") /\
  user_info (snd (handle_user_response offline (PyStr "hello") st))
    !! "dietary_restrictions" = Some PyNone.
Proof.
  cbv zeta. split; [reflexivity|]. split; [left; vm_compute; reflexivity|].
  split; [vm_compute; reflexivity|]. split; vm_compute; reflexivity.
Qed.

Lemma scanned_ready w text st :
  ready_to_generate (scanned_profile w text st)
  = ready_to_generate (merged w text st).
Proof.
  unfold scanned_profile, dietary_default.
  destruct (negb _); [|reflexivity].
  destruct (py_lower _); [|reflexivity]. cbn.
  destruct (negb _); [|reflexivity]. apply ready_insert_dietary.
Qed.

Lemma answer_clarified text slot q :
  In slot ["budget"; "duration"; "interests"] ->
  refine_vague_input text (vague_table slot) = Some q ->
  answer text ("get_" ++ slot) = q.
Proof.
  intros Hin Hq. destruct (refine_not_dietary _ _ _ Hq) as [_ Hq']. unfold answer.
  simpl in Hin. destruct Hin as [<-|[<-|[<-|[]]]].
  - change (existsb (String.eqb ("get_" ++ "budget")) clarified_questions) with true.
    change (replace "get_" "" ("get_" ++ "budget")) with "budget".
    change (vague_table "budget") with "budget" in Hq. rewrite Hq.
    destruct (String.eqb_spec q ""); congruence.
  - change (existsb (String.eqb ("get_" ++ "duration")) clarified_questions) with true.
    change (replace "get_" "" ("get_" ++ "duration")) with "duration".
    change (vague_table "duration") with "duration" in Hq. rewrite Hq.
    destruct (String.eqb_spec q ""); congruence.
  - change (existsb (String.eqb ("get_" ++ "interests")) clarified_questions) with true.
    change (replace "get_" "" ("get_" ++ "interests")) with "interests".
    change (vague_table "interests") with "interests" in Hq. rewrite Hq.
    destruct (String.eqb_spec q ""); congruence.
Qed.

(** C7 (amended). When the pending slot of a turn is the budget, the
    duration or the interests and the utterance matches the vague-input
    table of that slot, the handler returns the clarifying question and the
    slot stays unfilled.  The accommodation slot is never pending when the
    clarification step runs: that step is reached only while a core slot
    is missing, and the pending slot is then a core slot. *)
Theorem vague_answer_is_clarified (w : World) (text : string) (st : Session) :
  text <> "" -> is_profile (user_info st) ->
  (forall slot q,
      pending_slot w text st = Some slot ->
      In slot ["budget"; "duration"; "interests"] ->
      refine_vague_input text (vague_table slot) = Some q ->
      exists st',
        handle_user_response w (PyStr text) st = (Ok q, st') /\
        user_info st' = scanned_profile w text st /\
        truthy (dget (user_info st') slot) = false) /\
  (ready_to_generate (merged w text st) = false ->
   exists slot, In slot core_fields /\ pending_slot w text st = Some slot).
Proof.
  intros Ht Hp. split.
  - intros slot q Hs Hin Hq. unfold pending_slot in Hs.
    destruct (first_missing_some _ _ _ Hs) as [_ Hfalsy].
    assert (Hcore : In slot core_fields).
    { simpl in Hin |- *. intuition. }
    assert (Hr : ready_to_generate (merged w text st) = false).
    { rewrite <- scanned_ready. eapply core_field_missing; eauto. }
    assert (Hd : dietary_default (merged w text st) = Ok (scanned_profile w text st)).
    { unfold scanned_profile. rewrite dietary_default_profile; [reflexivity|].
      apply profile_field; [now apply is_profile_merge|simpl; auto 10]. }
    eexists. split; [|split].
    + rewrite (handle_scan _ _ _ _ Ht Hr Hd). f_equal.
      unfold get_next_question. rewrite Hs. f_equal. now apply answer_clarified.
    + reflexivity.
    + exact Hfalsy.
  - intros Hr. apply first_missing_core. now rewrite scanned_ready.
Qed.

Lemma vague_answer_is_clarified_witness :
  exists st',
    handle_user_response offline (PyStr "going to Paris for a week") init_session_state
    = (Ok "Would you like me to plan for 7 days (1 week)?", st') /\
    user_info st' = scanned_profile offline "going to Paris for a week" init_session_state /\
    truthy (dget (user_info st') "duration") = false.
Proof.
  apply (vague_answer_is_clarified offline "going to Paris for a week"
           init_session_state ltac:(discriminate) eq_refl) with (slot := "duration").
  - vm_compute. reflexivity.
  - simpl. auto.
  - vm_compute. reflexivity.
Defined.

(** C7 as stated fails for the accommodation slot: with every other slot
    filled, the accommodation preference is the pending slot and "surprise
    me" matches its vague-input table, yet the handler offers to generate
    the itinerary instead of asking the clarifying question. *)
Lemma accommodation_is_not_clarified :
  let st := session_of all_but_accommodation in
  is_profile (user_info st) /\
  pending_slot offline "surprise me" st = Some "accommodation_preference" /\
  refine_vague_input "surprise me" (vague_table "accommodation_preference")
  = Some "I can select a highly-rated option that fits your budget. Is that okay?" /\
  fst (handle_user_response offline (PyStr "surprise me") st) = Ok offer_reply /\
  fst (handle_user_response offline (PyStr "surprise me") st)
  <> Ok "I can select a highly-rated option that fits your budget. Is that okay?".
Proof. vm_compute. repeat split; congruence. Qed.

(** ** Binary64 rounding *)

Section Rounding.
Import F64.

(** [rne] is within one half of the quotient. *)
Lemma rne_spec num den :
  0 < den ->
  2 * den * rne num den <= 2 * num + den /\
  2 * num <= 2 * den * rne num den + den.
Proof.
  intros Hd. unfold rne.
  assert (Hq := Z.div_mod num den ltac:(lia)).
  assert (Hr := Z.mod_pos_bound num den Hd).
  destruct (2 * (num mod den) <? den) eqn:E1; [apply Z.ltb_lt in E1; nia|].
  apply Z.ltb_ge in E1.
  destruct (den <? 2 * (num mod den)) eqn:E2; [apply Z.ltb_lt in E2; nia|].
  apply Z.ltb_ge in E2.
  destruct (Z.even (num / den)); nia.
Qed.

(** An integer closer than one half to the quotient is the result. *)
Lemma rne_unique num den k :
  0 < den -> 2 * Z.abs (num - k * den) < den -> rne num den = k.
Proof.
  intros Hd Hk. unfold rne.
  assert (Hq := Z.div_mod num den ltac:(lia)).
  assert (Hr := Z.mod_pos_bound num den Hd).
  assert (Hc : num / den = k \/ num / den = k - 1) by nia.
  destruct Hc as [Hc|Hc]; rewrite Hc in *.
  - destruct (2 * (num mod den) <? den) eqn:E1; [reflexivity|].
    apply Z.ltb_ge in E1. nia.
  - destruct (2 * (num mod den) <? den) eqn:E1; [apply Z.ltb_lt in E1; nia|].
    destruct (den <? 2 * (num mod den)) eqn:E2; [lia|].
    apply Z.ltb_ge in E2. nia.
Qed.

Lemma log2_bounds a : 0 < a -> 2 ^ Z.log2 a <= a < 2 * 2 ^ Z.log2 a.
Proof.
  intros Ha. destruct (Z.log2_spec a Ha) as [H1 H2].
  rewrite Z.pow_succ_r in H2 by apply Z.log2_nonneg. lia.
Qed.

(** The binade of a quotient that is at least one. *)
Lemma binade_spec num den :
  0 < den <= num ->
  0 <= binade num den /\
  den * 2 ^ binade num den <= num < den * (2 * 2 ^ binade num den).
Proof.
  intros [Hd Hn]. unfold binade.
  assert (Hln := log2_bounds num ltac:(lia)).
  assert (Hld := log2_bounds den Hd).
  assert (Hmono : Z.log2 den <= Z.log2 num) by (apply Z.log2_le_mono; lia).
  assert (H0 := Z.log2_nonneg den).
  set (d := Z.log2 num - Z.log2 den) in *.
  assert (Hpow : 2 ^ Z.log2 num = 2 ^ d * 2 ^ Z.log2 den).
  { rewrite <- Z.pow_add_r by lia. f_equal. lia. }
  assert (Hpd : 0 < 2 ^ d) by (apply Z.pow_pos_nonneg; lia).
  assert (Hpl : 0 < 2 ^ Z.log2 den) by (apply Z.pow_pos_nonneg; lia).
  replace (0 <=? d) with true by (symmetry; apply Z.leb_le; lia).
  destruct (num <? den * 2 ^ d) eqn:E.
  - apply Z.ltb_lt in E.
    assert (Hd1 : 1 <= d).
    { destruct (Z.eq_dec d 0) as [Hz|Hz]; [|lia]. rewrite Hz in E. simpl in E. lia. }
    assert (Hp1 : 2 ^ d = 2 * 2 ^ (d - 1)).
    { rewrite <- Z.pow_succ_r by lia. f_equal. lia. }
    assert (0 < 2 ^ (d - 1)) by (apply Z.pow_pos_nonneg; lia).
    split; [lia|]. split; [nia|nia].
  - apply Z.ltb_ge in E. split; [lia|]. split; [lia|nia].
Qed.

(** A small quotient has a small binade. *)
Lemma binade_upper num den j :
  0 < num -> 0 < den -> 0 <= j -> num < den * 2 ^ j -> binade num den < j.
Proof.
  intros Hn Hd Hj Hlt. unfold binade.
  assert (Hln := log2_bounds num Hn).
  assert (Hld := log2_bounds den Hd).
  assert (H0 := Z.log2_nonneg den). assert (H1 := Z.log2_nonneg num).
  set (d := Z.log2 num - Z.log2 den) in *.
  destruct (Z_lt_le_dec d j) as [Hdj|Hdj].
  - destruct (if 0 <=? d then _ else _); lia.
  - assert (Hpow : 2 ^ Z.log2 num = 2 ^ d * 2 ^ Z.log2 den).
    { rewrite <- Z.pow_add_r by lia. f_equal. lia. }
    assert (Hpl : 0 < 2 ^ Z.log2 den) by (apply Z.pow_pos_nonneg; lia).
    assert (Hpj : 0 < 2 ^ j) by (apply Z.pow_pos_nonneg; lia).
    assert (Hle : 2 ^ j <= 2 ^ d) by (apply Z.pow_le_mono_r; lia).
    replace (0 <=? d) with true by (symmetry; apply Z.leb_le; lia).
    replace (num <? den * 2 ^ d) with true by (symmetry; apply Z.ltb_lt; nia).
    destruct (Z.eq_dec d j) as [->|Hne]; [lia|].
    exfalso.
    assert (Hle2 : 2 * 2 ^ j <= 2 ^ d).
    { rewrite <- Z.pow_succ_r by lia. apply Z.pow_le_mono_r; lia. }
    nia.
Qed.

(** A quotient that is not tiny has a binade that is not very negative. *)
Lemma binade_lower num den j :
  0 < num -> 0 < den -> 0 <= j -> den <= num * 2 ^ j -> - j - 1 <= binade num den.
Proof.
  intros Hn Hd Hj Hle. unfold binade.
  assert (Hmono : Z.log2 den <= Z.log2 (num * 2 ^ j)) by (apply Z.log2_le_mono; lia).
  rewrite Z.log2_mul_pow2 in Hmono by lia.
  destruct (if 0 <=? _ then _ else _); lia.
Qed.

Lemma pow_neg_ge e j : e <= - j -> 0 <= j -> 2 ^ j <= 2 ^ (- e).
Proof. intros. apply Z.pow_le_mono_r; lia. Qed.

(** A quotient that keeps away from the integers is truncated to the
    integer below it, also after rounding. *)
Lemma round_fraction num den Q :
  0 < num -> 0 < den -> 0 <= Q ->
  16 * Q * den + den <= 16 * num -> 16 * num <= 16 * Q * den + 15 * den ->
  num < den * 2 ^ 49 ->
  exists m e,
    round num den = Fin m e /\ binade num den - 52 <= e <= -4 /\
    0 <= m < (Q + 1) * 2 ^ (- e) /\ m / 2 ^ (- e) = Q.
Proof.
  intros Hn Hd HQ Hlo Hhi Hlt. unfold round.
  replace (num =? 0) with false by (symmetry; apply Z.eqb_neq; lia).
  assert (Hex := binade_upper num den 49 Hn Hd ltac:(lia) Hlt).
  set (e := Z.max (binade num den - 52) (-1074)).
  assert (He : binade num den - 52 <= e <= -4) by (subst e; lia).
  replace (0 <=? e) with false by (symmetry; apply Z.leb_gt; lia).
  replace (971 <? e) with false by (symmetry; apply Z.ltb_ge; lia).
  replace (e =? 971) with false by (symmetry; apply Z.eqb_neq; lia).
  cbn [orb andb].
  assert (HT : 2 ^ 4 <= 2 ^ (- e)) by (apply pow_neg_ge; lia).
  change (2 ^ 4) with 16 in HT.
  set (T := 2 ^ (- e)) in *.
  destruct (rne_spec (num * T) den Hd) as [H1 H2].
  set (m := rne (num * T) den) in *.
  assert (Hlow : Q * T <= m) by nia.
  assert (Hupp : m < Q * T + T) by nia.
  exists m, e. split; [reflexivity|]. split; [exact He|]. split; [nia|].
  symmetry. apply (Z.div_unique m T Q (m - T * Q)); lia.
Qed.

(** A quotient just above an integer, by a relative 2^-54, rounds to it. *)
Lemma round_above_integer num den Q :
  0 < den -> 1 <= Q ->
  num * 2 ^ 54 = Q * (2 ^ 54 + 1) * den ->
  num < den * 2 ^ 49 ->
  exists m e,
    round num den = Fin m e /\ -52 <= e <= -4 /\ m = Q * 2 ^ (- e).
Proof.
  intros Hd HQ Hrel Hlt.
  assert (Hge : den <= num) by nia.
  assert (Hn : 0 < num) by lia.
  destruct (binade_spec num den ltac:(lia)) as (Hex0 & Hlo & Hhi).
  assert (Hex := binade_upper num den 49 Hn Hd ltac:(lia) Hlt).
  unfold round.
  replace (num =? 0) with false by (symmetry; apply Z.eqb_neq; lia).
  set (ex := binade num den) in *.
  replace (Z.max (ex - 52) (-1074)) with (ex - 52) by lia.
  replace (0 <=? ex - 52) with false by (symmetry; apply Z.leb_gt; lia).
  replace (971 <? ex - 52) with false by (symmetry; apply Z.ltb_ge; lia).
  replace (ex - 52 =? 971) with false by (symmetry; apply Z.eqb_neq; lia).
  cbn [orb andb].
  assert (HTU : 2 ^ (- (ex - 52)) * 2 ^ ex = 2 ^ 52).
  { rewrite <- Z.pow_add_r by lia. f_equal. lia. }
  assert (HT : 0 < 2 ^ (- (ex - 52))) by (apply Z.pow_pos_nonneg; lia).
  assert (HU : 0 < 2 ^ ex) by (apply Z.pow_pos_nonneg; lia).
  set (T := 2 ^ (- (ex - 52))) in *. set (U := 2 ^ ex) in *.
  exists (rne (num * T) den), (ex - 52).
  split; [reflexivity|]. split; [lia|].
  apply rne_unique; [exact Hd|]. fold T.
  assert (HQD : 0 < Q * den) by (apply Z.mul_pos_pos; lia).
  assert (Hdelta : 2 ^ 54 * (num - Q * den) = Q * den) by lia.
  assert (HQU : Q < 2 * U).
  { apply (Z.mul_lt_mono_pos_r den); [exact Hd|].
    apply (Z.mul_lt_mono_pos_l (2 ^ 54)); [reflexivity|].
    assert (num * 2 ^ 54 < den * (2 * U) * 2 ^ 54)
      by (apply Z.mul_lt_mono_pos_r; [reflexivity|exact Hhi]).
    lia. }
  assert (HTQ : T * Q < 2 ^ 53).
  { change (2 ^ 53) with (2 * 2 ^ 52). rewrite <- HTU.
    replace (2 * (T * U)) with (T * (2 * U)) by ring.
    apply Z.mul_lt_mono_pos_l; [exact HT|exact HQU]. }
  assert (Hpos : 0 <= num - Q * den) by lia.
  replace (num * T - Q * T * den) with (T * (num - Q * den)) by ring.
  rewrite Z.abs_eq by (apply Z.mul_nonneg_nonneg; lia).
  apply (Z.mul_lt_mono_pos_l (2 ^ 54)); [reflexivity|].
  assert (E : 2 ^ 54 * (2 * (T * (num - Q * den))) = 2 * (T * Q) * den).
  { replace (2 ^ 54 * (2 * (T * (num - Q * den))))
      with (2 * T * (2 ^ 54 * (num - Q * den))) by ring.
    rewrite Hdelta. ring. }
  rewrite E.
  apply Z.mul_lt_mono_pos_r; [exact Hd|].
  change (2 ^ 54) with (2 * 2 ^ 53). lia.
Qed.

(** A quotient just below an integer, by a relative 2^-54 * 2/3, rounds
    to it. *)
Lemma round_below_integer num den Q :
  0 < den -> 2 <= Q ->
  num * (3 * 2 ^ 54) = Q * (3 * 2 ^ 54 - 2) * den ->
  num < den * 2 ^ 49 ->
  exists m e,
    round num den = Fin m e /\ -52 <= e <= -4 /\ m = Q * 2 ^ (- e).
Proof.
  intros Hd HQ Hrel Hlt.
  assert (Hge : den <= num) by nia.
  assert (Hn : 0 < num) by lia.
  destruct (binade_spec num den ltac:(lia)) as (Hex0 & Hlo & Hhi).
  assert (Hex := binade_upper num den 49 Hn Hd ltac:(lia) Hlt).
  unfold round.
  replace (num =? 0) with false by (symmetry; apply Z.eqb_neq; lia).
  set (ex := binade num den) in *.
  replace (Z.max (ex - 52) (-1074)) with (ex - 52) by lia.
  replace (0 <=? ex - 52) with false by (symmetry; apply Z.leb_gt; lia).
  replace (971 <? ex - 52) with false by (symmetry; apply Z.ltb_ge; lia).
  replace (ex - 52 =? 971) with false by (symmetry; apply Z.eqb_neq; lia).
  cbn [orb andb].
  assert (HTU : 2 ^ (- (ex - 52)) * 2 ^ ex = 2 ^ 52).
  { rewrite <- Z.pow_add_r by lia. f_equal. lia. }
  assert (HT : 0 < 2 ^ (- (ex - 52))) by (apply Z.pow_pos_nonneg; lia).
  assert (HU : 0 < 2 ^ ex) by (apply Z.pow_pos_nonneg; lia).
  set (T := 2 ^ (- (ex - 52))) in *. set (U := 2 ^ ex) in *.
  exists (rne (num * T) den), (ex - 52).
  split; [reflexivity|]. split; [lia|].
  apply rne_unique; [exact Hd|]. fold T.
  assert (HQD : 0 < Q * den) by (apply Z.mul_pos_pos; lia).
  assert (Hdelta : 3 * 2 ^ 54 * (Q * den - num) = 2 * (Q * den)) by lia.
  assert (HQU : Q * (3 * 2 ^ 54 - 2) < 3 * 2 ^ 55 * U).
  { apply (Z.mul_lt_mono_pos_r den); [exact Hd|].
    assert (num * (3 * 2 ^ 54) < den * (2 * U) * (3 * 2 ^ 54))
      by (apply Z.mul_lt_mono_pos_r; [reflexivity|exact Hhi]).
    lia. }
  assert (HTQ : T * (Q * (3 * 2 ^ 54 - 2)) < T * (3 * 2 ^ 55 * U))
    by (apply Z.mul_lt_mono_pos_l; [exact HT|exact HQU]).
  assert (HTQ' : T * Q <= 2 ^ 53).
  { replace (T * (3 * 2 ^ 55 * U)) with (3 * 2 ^ 55 * (T * U)) in HTQ by ring.
    rewrite HTU in HTQ. lia. }
  assert (Hpos : 0 <= Q * den - num) by lia.
  replace (num * T - Q * T * den) with (- (T * (Q * den - num))) by ring.
  rewrite Z.abs_opp, Z.abs_eq by (apply Z.mul_nonneg_nonneg; lia).
  apply (Z.mul_lt_mono_pos_l (3 * 2 ^ 54)); [reflexivity|].
  assert (E : 3 * 2 ^ 54 * (2 * (T * (Q * den - num))) = 4 * (T * Q) * den).
  { replace (3 * 2 ^ 54 * (2 * (T * (Q * den - num))))
      with (2 * T * (3 * 2 ^ 54 * (Q * den - num))) by ring.
    rewrite Hdelta. ring. }
  rewrite E.
  apply Z.mul_lt_mono_pos_r; [exact Hd|]. lia.
Qed.

(** In each of these cases the rounded quotient is finite, of moderate
    size, and truncates to [Q]. *)
Lemma round_trunc num den Q :
  0 < num -> 0 < den -> num < den * 2 ^ 49 -> trunc_case num den Q ->
  exists m e,
    round num den = Fin m e /\ -57 <= e <= -4 /\ 0 <= m < 2 ^ 107 /\
    to_int (Fin m e) = Ok Q.
Proof.
  intros Hn Hd Hlt [(HQ & Hlo & Hhi)|[(HQ & Hrel)|(HQ & Hrel)]].
  - destruct (round_fraction num den Q Hn Hd HQ Hlo Hhi Hlt)
      as (m & e & Hr & He & Hm & Hdiv).
    assert (Hbl := binade_lower num den 4 Hn Hd ltac:(lia) ltac:(change (2 ^ 4) with 16; lia)).
    exists m, e. split; [exact Hr|]. split; [lia|].
    assert (HT : 2 ^ (- e) <= 2 ^ 57) by (apply Z.pow_le_mono_r; lia).
    assert (HT0 : 0 < 2 ^ (- e)) by (apply Z.pow_pos_nonneg; lia).
    assert (HQ49 : Q + 1 <= 2 ^ 49).
    { assert (Q * den < 2 ^ 49 * den) by lia.
      assert (Q < 2 ^ 49) by (apply (Z.mul_lt_mono_pos_r den); assumption).
      lia. }
    split.
    + split; [lia|].
      apply (Z.lt_le_trans _ ((Q + 1) * 2 ^ (- e))); [lia|].
      change (2 ^ 107) with (2 ^ 50 * 2 ^ 57).
      apply Z.mul_le_mono_nonneg; lia.
    + cbn [to_int].
      replace (0 <=? e) with false by (symmetry; apply Z.leb_gt; lia).
      now rewrite Hdiv.
  - destruct (round_above_integer num den Q Hd HQ Hrel Hlt) as (m & e & Hr & He & ->).
    exists (Q * 2 ^ (- e)), e. split; [exact Hr|]. split; [lia|].
    assert (HT : 2 ^ (- e) <= 2 ^ 52) by (apply Z.pow_le_mono_r; lia).
    assert (HT0 : 0 < 2 ^ (- e)) by (apply Z.pow_pos_nonneg; lia).
    assert (HQ49 : Q < 2 ^ 49).
    { apply (Z.mul_lt_mono_pos_r den); [exact Hd|].
      apply (Z.mul_lt_mono_pos_r (2 ^ 54)); [reflexivity|].
      assert (num * 2 ^ 54 < den * 2 ^ 49 * 2 ^ 54)
        by (apply Z.mul_lt_mono_pos_r; [reflexivity|exact Hlt]).
      assert (0 < Q * den) by (apply Z.mul_pos_pos; lia).
      lia. }
    split.
    + split; [apply Z.mul_nonneg_nonneg; lia|].
      apply (Z.le_lt_trans _ (2 ^ 49 * 2 ^ 52)); [apply Z.mul_le_mono_nonneg; lia|reflexivity].
    + cbn [to_int].
      replace (0 <=? e) with false by (symmetry; apply Z.leb_gt; lia).
      now rewrite Z.div_mul by lia.
  - destruct (round_below_integer num den Q Hd HQ Hrel Hlt) as (m & e & Hr & He & ->).
    exists (Q * 2 ^ (- e)), e. split; [exact Hr|]. split; [lia|].
    assert (HT : 2 ^ (- e) <= 2 ^ 52) by (apply Z.pow_le_mono_r; lia).
    assert (HT0 : 0 < 2 ^ (- e)) by (apply Z.pow_pos_nonneg; lia).
    assert (HQ49 : Q <= 2 ^ 49).
    { assert (num * (3 * 2 ^ 54) < den * 2 ^ 49 * (3 * 2 ^ 54))
        by (apply Z.mul_lt_mono_pos_r; [reflexivity|exact Hlt]).
      assert (HQd : Q * den * (3 * 2 ^ 54 - 2) < 2 ^ 49 * den * (3 * 2 ^ 54)) by lia.
      destruct (Z_le_gt_dec Q (2 ^ 49)) as [Hle|Hgt]; [exact Hle|].
      exfalso.
      assert ((2 ^ 49 + 1) * den <= Q * den)
        by (apply Z.mul_le_mono_nonneg_r; lia).
      lia. }
    split.
    + split; [apply Z.mul_nonneg_nonneg; lia|].
      apply (Z.le_lt_trans _ (2 ^ 49 * 2 ^ 52)); [apply Z.mul_le_mono_nonneg; lia|reflexivity].
    + cbn [to_int].
      replace (0 <=? e) with false by (symmetry; apply Z.leb_gt; lia).
      now rewrite Z.div_mul by lia.
Qed.
End Rounding.

(** ** The budget section *)

Section Shares.
Import F64.

Lemma round_finite num den :
  0 <= num < 2 ^ 1000 -> 0 < den -> exists m e, round num den = Fin m e.
Proof.
  intros [Hn Hlt] Hd. unfold round.
  destruct (num =? 0) eqn:E; [eauto|]. apply Z.eqb_neq in E.
  assert (Hl : Z.log2 num < 1000) by (apply Z.log2_lt_pow2; lia).
  assert (H0 := Z.log2_nonneg den).
  assert (Hb : binade num den <= Z.log2 num).
  { unfold binade. destruct (if 0 <=? _ then _ else _); lia. }
  set (e := Z.max (binade num den - 52) (-1074)).
  replace (971 <? e) with false by (symmetry; apply Z.ltb_ge; lia).
  replace (e =? 971) with false by (symmetry; apply Z.eqb_neq; lia).
  cbn [orb andb]. eauto.
Qed.

(** Integers below 2^53 convert exactly. *)
Lemma of_int_exact n :
  0 < n < 2 ^ 53 ->
  of_int n = Ok (Fin (n * 2 ^ (52 - Z.log2 n)) (Z.log2 n - 52)).
Proof.
  intros [Hn Hlt].
  assert (Hl : Z.log2 n < 53) by (apply Z.log2_lt_pow2; lia).
  assert (H0 := Z.log2_nonneg n).
  assert (Hb := log2_bounds n Hn).
  assert (Hbin : binade n 1 = Z.log2 n).
  { unfold binade. change (Z.log2 1) with 0. rewrite Z.sub_0_r.
    replace (0 <=? Z.log2 n) with true by (symmetry; apply Z.leb_le; lia).
    replace (n <? 1 * 2 ^ Z.log2 n) with false by (symmetry; apply Z.ltb_ge; lia).
    reflexivity. }
  unfold of_int, round.
  replace (n =? 0) with false by (symmetry; apply Z.eqb_neq; lia).
  rewrite Hbin.
  replace (Z.max (Z.log2 n - 52) (-1074)) with (Z.log2 n - 52) by lia.
  replace (971 <? Z.log2 n - 52) with false by (symmetry; apply Z.ltb_ge; lia).
  replace (Z.log2 n - 52 =? 971) with false by (symmetry; apply Z.eqb_neq; lia).
  cbn [orb andb].
  destruct (0 <=? Z.log2 n - 52) eqn:E.
  - apply Z.leb_le in E. assert (El : Z.log2 n = 52) by lia.
    rewrite El. change (52 - 52) with 0. change (2 ^ 0) with 1.
    rewrite (rne_unique n (1 * 1) n) by lia. now rewrite Z.mul_1_r.
  - replace (- (Z.log2 n - 52)) with (52 - Z.log2 n) by lia.
    rewrite (rne_unique (n * 2 ^ (52 - Z.log2 n)) 1 (n * 2 ^ (52 - Z.log2 n))) by lia.
    reflexivity.
Qed.

(** The product of an integer by a constant [M * 2^-E']. *)
Lemma mul_int_const b M E' :
  0 < b < 2 ^ 50 -> 54 <= E' ->
  mul (Fin (b * 2 ^ (52 - Z.log2 b)) (Z.log2 b - 52)) (Fin M (- E'))
  = round (2 ^ (52 - Z.log2 b) * (b * M)) (2 ^ (52 - Z.log2 b) * 2 ^ E').
Proof.
  intros [Hb Hlt] HE.
  assert (Hl : Z.log2 b < 50) by (apply Z.log2_lt_pow2; lia).
  assert (H0 := Z.log2_nonneg b).
  unfold mul, round_scaled.
  replace (0 <=? Z.log2 b - 52 + - E') with false by (symmetry; apply Z.leb_gt; lia).
  f_equal; [ring|].
  rewrite <- Z.pow_add_r by lia. f_equal. lia.
Qed.

Lemma trunc_case_scale c num den Q :
  0 < c -> trunc_case num den Q -> trunc_case (c * num) (c * den) Q.
Proof.
  intros Hc [(HQ & Hlo & Hhi)|[(HQ & Hrel)|(HQ & Hrel)]].
  - left. split; [exact HQ|]. split.
    + replace (16 * Q * (c * den) + c * den) with (c * (16 * Q * den + den)) by ring.
      replace (16 * (c * num)) with (c * (16 * num)) by ring.
      apply Z.mul_le_mono_nonneg_l; lia.
    + replace (16 * Q * (c * den) + 15 * (c * den))
        with (c * (16 * Q * den + 15 * den)) by ring.
      replace (16 * (c * num)) with (c * (16 * num)) by ring.
      apply Z.mul_le_mono_nonneg_l; lia.
  - right. left. split; [exact HQ|].
    replace (c * num * 2 ^ 54) with (c * (num * 2 ^ 54)) by ring.
    rewrite Hrel. ring.
  - right. right. split; [exact HQ|].
    replace (c * num * (3 * 2 ^ 54)) with (c * (num * (3 * 2 ^ 54))) by ring.
    rewrite Hrel. ring.
Qed.

(** The product of a budget by a share constant: finite, of moderate
    size, truncating to [Q]. *)
Lemma mul_share b M E' Q :
  0 < b < 2 ^ 50 -> 54 <= E' <= 56 -> 0 < M ->
  b * M < 2 ^ E' * 2 ^ 49 ->
  trunc_case (b * M) (2 ^ E') Q ->
  exists m e,
    mul (Fin (b * 2 ^ (52 - Z.log2 b)) (Z.log2 b - 52)) (Fin M (- E')) = Fin m e /\
    -57 <= e <= -4 /\ 0 <= m < 2 ^ 107 /\ to_int (Fin m e) = Ok Q.
Proof.
  intros Hb HE HM Hlt Hcase. rewrite mul_int_const by lia.
  assert (Hl : Z.log2 b < 50) by (apply Z.log2_lt_pow2; lia).
  assert (H0 := Z.log2_nonneg b).
  assert (Hc : 0 < 2 ^ (52 - Z.log2 b)) by (apply Z.pow_pos_nonneg; lia).
  assert (HD : 0 < 2 ^ E') by (apply Z.pow_pos_nonneg; lia).
  apply round_trunc.
  - apply Z.mul_pos_pos; [exact Hc|]. apply Z.mul_pos_pos; lia.
  - apply Z.mul_pos_pos; assumption.
  - rewrite <- Z.mul_assoc. apply Z.mul_lt_mono_pos_l; assumption.
  - apply trunc_case_scale; assumption.
Qed.

(** The quotient of such a product by a day count is finite. *)
Lemma div_finite m e d :
  -57 <= e <= 0 -> 0 <= m < 2 ^ 107 -> 0 < d < 2 ^ 53 ->
  exists q, div (Fin m e) (Fin (d * 2 ^ (52 - Z.log2 d)) (Z.log2 d - 52)) = Ok q /\
            exists z, to_int q = Ok z.
Proof.
  intros He Hm [Hd Hlt].
  assert (Hl : Z.log2 d < 53) by (apply Z.log2_lt_pow2; lia).
  assert (H0 := Z.log2_nonneg d).
  assert (Hc : 0 < 2 ^ (52 - Z.log2 d)) by (apply Z.pow_pos_nonneg; lia).
  assert (Hm2 : 0 < d * 2 ^ (52 - Z.log2 d)) by (apply Z.mul_pos_pos; lia).
  unfold div.
  destruct (d * 2 ^ (52 - Z.log2 d)) as [|m2|m2] eqn:Em2; [lia| |lia].
  rewrite <- Em2.
  assert (Hfin : exists m' e',
             (if 0 <=? e - (Z.log2 d - 52)
              then round (m * 2 ^ (e - (Z.log2 d - 52))) (d * 2 ^ (52 - Z.log2 d))
              else round m (d * 2 ^ (52 - Z.log2 d) * 2 ^ (Z.log2 d - 52 - e)))
             = Fin m' e').
  { destruct (0 <=? e - (Z.log2 d - 52)) eqn:E.
    - apply Z.leb_le in E. apply round_finite; [|lia].
      assert (Hp : 2 ^ (e - (Z.log2 d - 52)) <= 2 ^ 52)
        by (apply Z.pow_le_mono_r; lia).
      assert (Hp0 : 0 < 2 ^ (e - (Z.log2 d - 52))) by (apply Z.pow_pos_nonneg; lia).
      split; [apply Z.mul_nonneg_nonneg; lia|].
      apply (Z.le_lt_trans _ (2 ^ 107 * 2 ^ 52)); [apply Z.mul_le_mono_nonneg; lia|reflexivity].
    - apply Z.leb_gt in E. apply round_finite.
      + split; [lia|]. apply (Z.lt_trans _ (2 ^ 107)); [lia|reflexivity].
      + apply Z.mul_pos_pos; [lia|]. apply Z.pow_pos_nonneg; lia. }
  destruct Hfin as (m' & e' & Hfin).
  eexists. split; [reflexivity|]. rewrite Hfin. cbn [to_int]. eauto.
Qed.

(** The share and the daily rate of a budget, for a constant whose
    product with the budget truncates to [Q]. *)
Lemma share_and_rate b M E' Q d :
  0 < b < 2 ^ 50 -> 54 <= E' <= 56 -> 0 < M ->
  b * M < 2 ^ E' * 2 ^ 49 ->
  trunc_case (b * M) (2 ^ E') Q ->
  0 < d < 2 ^ 53 ->
  share_of b (Fin M (- E')) = Ok Q /\
  exists z, rate_of b (Fin M (- E')) d = Ok z.
Proof.
  intros Hb HE HM Hlt Hcase Hd.
  destruct (mul_share b M E' Q Hb HE HM Hlt Hcase) as (m & e & Hmul & He & Hm & Hint).
  unfold share_of, rate_of.
  rewrite (of_int_exact b) by lia. rewrite (of_int_exact d) by lia.
  cbn [mbind result_bind Py.bind]. rewrite Hmul. split; [exact Hint|].
  destruct (div_finite m e d ltac:(lia) Hm Hd) as (q & -> & z & Hz).
  cbn [Py.bind]. eauto.
Qed.

Lemma share_and_rate_zero M E' d :
  0 < d < 2 ^ 53 ->
  share_of 0 (Fin M (- E')) = Ok 0 /\
  exists z, rate_of 0 (Fin M (- E')) d = Ok z.
Proof.
  intros Hd.
  assert (Hmul : mul (Fin 0 0) (Fin M (- E')) = Fin 0 0).
  { unfold mul, round_scaled. rewrite !Z.mul_0_l.
    destruct (0 <=? 0 + - E'); reflexivity. }
  unfold share_of, rate_of.
  change (of_int 0) with (Ok (Fin 0 0)). rewrite (of_int_exact d) by lia.
  cbn [mbind result_bind Py.bind]. rewrite Hmul. split; [reflexivity|].
  destruct (div_finite 0 0 d ltac:(lia) ltac:(split; [lia|reflexivity]) Hd)
    as (q & -> & z & Hz).
  cbn [Py.bind]. eauto.
Qed.

(** The four literals against tenths. *)
Lemma trunc_04 b : 0 < b < 2 ^ 50 ->
  trunc_case (b * 7205759403792794) (2 ^ 54) (4 * b / 10).
Proof.
  intros Hb. assert (Hq := Z.div_mod (4 * b) 10 ltac:(lia)).
  assert (Hr := Z.mod_pos_bound (4 * b) 10 ltac:(lia)).
  change (2 ^ 50) with 1125899906842624 in Hb.
  unfold trunc_case. change (2 ^ 54) with 18014398509481984.
  destruct (Z.eq_dec ((4 * b) mod 10) 0) as [E|E].
  - right. left. lia.
  - left. lia.
Qed.

Lemma trunc_03 b : 0 < b < 2 ^ 50 ->
  trunc_case (b * 5404319552844595) (2 ^ 54) (3 * b / 10).
Proof.
  intros Hb. assert (Hq := Z.div_mod (3 * b) 10 ltac:(lia)).
  assert (Hr := Z.mod_pos_bound (3 * b) 10 ltac:(lia)).
  change (2 ^ 50) with 1125899906842624 in Hb.
  unfold trunc_case. change (2 ^ 54) with 18014398509481984.
  destruct (Z.eq_dec ((3 * b) mod 10) 0) as [E|E].
  - right. right. lia.
  - left. lia.
Qed.

Lemma trunc_02 b : 0 < b < 2 ^ 50 ->
  trunc_case (b * 7205759403792794) (2 ^ 55) (2 * b / 10).
Proof.
  intros Hb. assert (Hq := Z.div_mod (2 * b) 10 ltac:(lia)).
  assert (Hr := Z.mod_pos_bound (2 * b) 10 ltac:(lia)).
  change (2 ^ 50) with 1125899906842624 in Hb.
  unfold trunc_case. change (2 ^ 54) with 18014398509481984.
  change (2 ^ 55) with 36028797018963968.
  destruct (Z.eq_dec ((2 * b) mod 10) 0) as [E|E].
  - right. left. lia.
  - left. lia.
Qed.

Lemma trunc_01 b : 0 < b < 2 ^ 50 ->
  trunc_case (b * 7205759403792794) (2 ^ 56) (b / 10).
Proof.
  intros Hb. assert (Hq := Z.div_mod b 10 ltac:(lia)).
  assert (Hr := Z.mod_pos_bound b 10 ltac:(lia)).
  change (2 ^ 50) with 1125899906842624 in Hb.
  unfold trunc_case. change (2 ^ 54) with 18014398509481984.
  change (2 ^ 56) with 72057594037927936.
  destruct (Z.eq_dec (b mod 10) 0) as [E|E].
  - right. left. lia.
  - left. lia.
Qed.

Lemma percent_tenths k b : k * 10 * b / 100 = k * b / 10.
Proof.
  replace (k * 10 * b) with (10 * (k * b)) by ring.
  change 100 with (10 * 10). apply Z.div_mul_cancel_l; lia.
Qed.

(** The budget section for budgets and day counts of ordinary size. *)
Lemma budget_breakdown_exact b d :
  0 <= b < 2 ^ 50 -> 1 <= d < 2 ^ 50 ->
  exists bd,
    budget_breakdown b d = Ok bd /\ exact_split b bd /\
    b - 3 <= lines_total bd <= b.
Proof.
  intros Hb Hd.
  assert (Hd' : 0 < d < 2 ^ 53) by (change (2 ^ 50) with 1125899906842624 in Hd;
                                     change (2 ^ 53) with 9007199254740992; lia).
  assert (Hall : exists a f ac tr an fd,
             share_of b c04 = Ok a /\ rate_of b c04 d = Ok an /\
             share_of b c03 = Ok f /\ rate_of b c03 d = Ok fd /\
             share_of b c02 = Ok ac /\ share_of b c01 = Ok tr /\
             a = 4 * b / 10 /\ f = 3 * b / 10 /\ ac = 2 * b / 10 /\ tr = b / 10).
  { destruct (Z.eq_dec b 0) as [->|Hne].
    - destruct (share_and_rate_zero 7205759403792794 54 d Hd') as (H4 & an & H4r).
      destruct (share_and_rate_zero 5404319552844595 54 d Hd') as (H3 & fd & H3r).
      destruct (share_and_rate_zero 7205759403792794 55 d Hd') as (H2 & _).
      destruct (share_and_rate_zero 7205759403792794 56 d Hd') as (H1 & _).
      exists 0, 0, 0, 0, an, fd. repeat split; assumption || reflexivity.
    - assert (Hb' : 0 < b < 2 ^ 50) by lia.
      assert (Hlt : b < 1125899906842624) by (change (2 ^ 50) with 1125899906842624 in Hb; lia).
      destruct (share_and_rate b 7205759403792794 54 (4 * b / 10) d Hb'
                  ltac:(lia) ltac:(lia)
                  ltac:(change (2 ^ 54 * 2 ^ 49) with 10141204801825835211973625643008; lia)
                  (trunc_04 b Hb') Hd') as (H4 & an & H4r).
      destruct (share_and_rate b 5404319552844595 54 (3 * b / 10) d Hb'
                  ltac:(lia) ltac:(lia)
                  ltac:(change (2 ^ 54 * 2 ^ 49) with 10141204801825835211973625643008; lia)
                  (trunc_03 b Hb') Hd') as (H3 & fd & H3r).
      destruct (share_and_rate b 7205759403792794 55 (2 * b / 10) d Hb'
                  ltac:(lia) ltac:(lia)
                  ltac:(change (2 ^ 55 * 2 ^ 49) with 20282409603651670423947251286016; lia)
                  (trunc_02 b Hb') Hd') as (H2 & _).
      destruct (share_and_rate b 7205759403792794 56 (b / 10) d Hb'
                  ltac:(lia) ltac:(lia)
                  ltac:(change (2 ^ 56 * 2 ^ 49) with 40564819207303340847894502572032; lia)
                  (trunc_01 b Hb') Hd') as (H1 & _).
      exists (4 * b / 10), (3 * b / 10), (2 * b / 10), (b / 10), an, fd.
      repeat split; assumption || reflexivity. }
  destruct Hall as (a & f & ac & tr & an & fd & H4 & H4r & H3 & H3r & H2 & H1 &
                    -> & -> & -> & ->).
  unfold budget_breakdown. rewrite H4, H4r, H3, H3r, H2, H1.
  cbn [mbind result_bind Py.bind].
  eexists. split; [reflexivity|]. split.
  - unfold exact_split. cbn.
    rewrite (percent_tenths 4), (percent_tenths 3), (percent_tenths 2).
    replace (10 * b / 100) with (1 * 10 * b / 100) by (f_equal; ring).
    rewrite (percent_tenths 1), Z.mul_1_l. auto.
  - unfold lines_total. cbn.
    assert (Hq4 := Z.div_mod (4 * b) 10 ltac:(lia)).
    assert (Hr4 := Z.mod_pos_bound (4 * b) 10 ltac:(lia)).
    assert (Hq3 := Z.div_mod (3 * b) 10 ltac:(lia)).
    assert (Hr3 := Z.mod_pos_bound (3 * b) 10 ltac:(lia)).
    assert (Hq2 := Z.div_mod (2 * b) 10 ltac:(lia)).
    assert (Hr2 := Z.mod_pos_bound (2 * b) 10 ltac:(lia)).
    assert (Hq1 := Z.div_mod b 10 ltac:(lia)).
    assert (Hr1 := Z.mod_pos_bound b 10 ltac:(lia)).
    lia.
Qed.
(** With a day count of zero the budget section raises. *)
Lemma budget_breakdown_zero_days b : forall bd, budget_breakdown b 0 <> Ok bd.
Proof.
  intros bd. unfold budget_breakdown, share_of, rate_of.
  destruct (of_int b) as [x|e]; [|discriminate].
  cbn [mbind result_bind Py.bind].
  destruct (to_int (mul x c04)) as [a|e]; [|discriminate].
  change (of_int 0) with (Ok (Fin 0 0)).
  cbn [mbind result_bind Py.bind].
  assert (Hdiv : forall y, div y (Fin 0 0)
                           = Raise (ZeroDivisionError "float division by zero")).
  { intros [m e| |]; reflexivity. }
  rewrite (Hdiv (mul x c04)). cbn [mbind result_bind Py.bind]. discriminate.
Qed.

End Shares.

Lemma filter_digits_all s : all_chars is_digit (filter_chars is_digit s) = true.
Proof.
  induction s as [|a s IH]; [reflexivity|]. cbn [filter_chars].
  destruct (is_digit a) eqn:E; [|exact IH]. cbn [all_chars]. now rewrite E.
Qed.

Lemma int_acc_nonneg s : forall acc,
  all_chars is_digit s = true -> 0 <= acc -> 0 <= int_acc acc s.
Proof.
  induction s as [|a s IH]; intros acc Hs Ha; [exact Ha|].
  cbn [all_chars] in Hs. apply andb_prop in Hs as [Hd Hs]. cbn [int_acc].
  apply IH; [exact Hs|].
  unfold is_digit in Hd. apply andb_prop in Hd as [H1 _]. apply N.leb_le in H1.
  unfold digit_val. lia.
Qed.

Lemma extract_budget_nonneg v : 0 <= extract_budget v.
Proof.
  unfold extract_budget, extract_budget_body, py_int.
  repeat match goal with
         | |- context [if ?b then _ else _] => destruct b
         end; try lia.
  apply int_acc_nonneg; [apply filter_digits_all|lia].
Qed.

(** A profile whose duration normalises to zero days gets the error line,
    whatever the providers return. *)
Lemma zero_days_is_an_error w p st :
  extract_days (dget_or p "duration" (PyStr "5 days")) = 0 ->
  exists e st',
    generate_detailed_itinerary w p st
    = (Ok ("⚠️ Error generating itinerary: " ++ exn_str e), st').
Proof.
  intros Hd. destruct (generate_outcome w p st) as (s & st' & Hg & [Hc|(e & _ & ->)]).
  - destruct (compose_shape _ _ _ _ _ Hc) as (_ & _ & bd & Hbd & _).
    rewrite Hd in Hbd. now apply budget_breakdown_zero_days in Hbd.
  - eauto.
Qed.

(** C9 (amended). When the normalised budget is below 2^50 and the
    normalised day count lies between 1 and 2^50, the budget section is the
    fixed split of the budget amount, 40% accommodation, 30% food, 20%
    activities and 10% transportation, each line rounded down to an
    integer; the four lines add up to the total or to at most 3 less; and
    every itinerary that the composition returns holds this section. *)
Theorem budget_section_is_a_split (w : World) (p : gmap string val) (st : Session) :
  extract_budget (dget_or p "budget" (PyStr "$2000")) < 2 ^ 50 ->
  1 <= extract_days (dget_or p "duration" (PyStr "5 days")) < 2 ^ 50 ->
  exists bd,
    budget_breakdown (extract_budget (dget_or p "budget" (PyStr "$2000")))
                     (extract_days (dget_or p "duration" (PyStr "5 days"))) = Ok bd /\
    exact_split (extract_budget (dget_or p "budget" (PyStr "$2000"))) bd /\
    extract_budget (dget_or p "budget" (PyStr "$2000")) - 3 <= lines_total bd
      <= extract_budget (dget_or p "budget" (PyStr "$2000")) /\
    (forall s st',
        compose w p st = (Ok s, st') ->
        exists pre post,
          s = pre ++
              budget_heading (extract_budget (dget_or p "budget" (PyStr "$2000"))) ++
              render_breakdown (extract_budget (dget_or p "budget" (PyStr "$2000"))) bd ++
              post).
Proof.
  intros Hb Hd.
  destruct (budget_breakdown_exact _ _ (conj (extract_budget_nonneg _) Hb) Hd)
    as (bd & Hbd & Hsplit & Hsum).
  exists bd. split; [exact Hbd|]. split; [exact Hsplit|]. split; [exact Hsum|].
  intros s st' Hc.
  destruct (compose_shape _ _ _ _ _ Hc) as (pre & post & bd' & Hbd' & ->).
  rewrite Hbd in Hbd'. injection Hbd' as <-.
  exists ("# " ++ pre), post. now rewrite app_assoc'.
Qed.

Lemma budget_section_is_a_split_witness :
  exists bd,
    budget_breakdown 2000 3 = Ok bd /\
    exact_split 2000 bd /\
    2000 - 3 <= lines_total bd <= 2000 /\
    (forall s st',
        compose offline modest_profile init_session_state = (Ok s, st') ->
        exists pre post,
          s = pre ++ budget_heading 2000 ++ render_breakdown 2000 bd ++ post).
Proof.
  apply (budget_section_is_a_split offline modest_profile init_session_state).
  - vm_compute. reflexivity.
  - vm_compute. split; [discriminate|reflexivity].
Defined.

(** C9 as stated fails: the profile is complete and its budget is 10^30,
    yet the four lines are not the 40/30/20/10 split of that amount and
    add up to more than the total. *)
Lemma budget_section_large_budget :
  complete lavish_profile /\
  extract_budget (dget_or lavish_profile "budget" (PyStr "$2000")) = 10 ^ 30 /\
  extract_days (dget_or lavish_profile "duration" (PyStr "5 days")) = 3 /\
  exists bd,
    budget_breakdown (10 ^ 30) 3 = Ok bd /\
    accommodation_total bd = 400000000000000036101347606528 /\
    accommodation_total bd <> 40 * 10 ^ 30 / 100 /\
    lines_total bd = 10 ^ 30 + 55068996927488 /\
    ~ exact_split (10 ^ 30) bd /\
    ~ (10 ^ 30 - 3 <= lines_total bd <= 10 ^ 30).
Proof.
  split; [split; reflexivity|]. split; [reflexivity|]. split; [reflexivity|].
  eexists. split; [vm_compute; reflexivity|].
  split; [reflexivity|]. split; [vm_compute; discriminate|].
  split; [reflexivity|]. split.
  - intros (H & _). vm_compute in H. discriminate H.
  - vm_compute. intros [_ H]. apply H. reflexivity.
Qed.

(** The itinerary of that profile shows these lines. *)
Example lavish_itinerary_line :
  match fst (generate_detailed_itinerary offline lavish_profile init_session_state) with
  | Ok s =>
      str_in "- Accommodation: $400,000,000,000,000,036,101,347,606,528 ($133,333,333,333,333,351,231,177,883,648/night)" s
  | Raise _ => false
  end = true.
Proof. vm_compute. reflexivity. Qed.

Lemma only_flag_refl st : only_flag_and_draws st st.
Proof. repeat split; auto. Qed.

Lemma only_flag_trans a b c :
  only_flag_and_draws a b -> only_flag_and_draws b c -> only_flag_and_draws a c.
Proof.
  intros (H1 & H2 & H3 & H4 & H5) (G1 & G2 & G3 & G4 & G5).
  repeat split; try congruence; auto. lia.
Qed.

Lemma keeps_ret {A} (a : A) : keeps (mret a).
Proof. intros st. apply only_flag_refl. Qed.

Lemma keeps_lift {A} (r : result A) : keeps (m_lift r).
Proof. intros st. apply only_flag_refl. Qed.

Lemma keeps_get : keeps m_get.
Proof. intros st. apply only_flag_refl. Qed.

Lemma keeps_bind {A B} (c : M A) (f : A -> M B) :
  keeps c -> (forall a, keeps (f a)) -> keeps (c ≫= f).
Proof.
  intros Hc Hf st. unfold mbind, M_bind, m_bind.
  specialize (Hc st). destruct (c st) as [[a|e] st1]; cbn [snd] in *.
  - eapply only_flag_trans; [exact Hc|apply Hf].
  - exact Hc.
Qed.

Lemma keeps_note ran : keeps (m_modify (note_web_search ran)).
Proof.
  intros st. cbn. repeat split; auto. cbn. intros ->. now destruct ran.
Qed.

Lemma keeps_choice {A} w (d : A) l : keeps (random_choice w d l).
Proof. intros st. cbn. repeat split; auto. cbn. lia. Qed.

Lemma keeps_catch {A} (c : M A) h : keeps c -> (forall e, keeps (h e)) -> keeps (m_catch c h).
Proof.
  intros Hc Hh st. unfold m_catch.
  specialize (Hc st). destruct (c st) as [[a|e] st1]; cbn [snd] in *.
  - exact Hc.
  - eapply only_flag_trans; [exact Hc|apply Hh].
Qed.

Ltac keeps_step :=
  first
    [ apply keeps_ret | apply keeps_lift | apply keeps_get | apply keeps_note
    | apply keeps_choice
    | apply keeps_bind; [|intros]
    | match goal with
      | |- keeps (match ?x with _ => _ end) => destruct x
      | |- keeps (if ?b then _ else _) => destruct b
      end ].

Lemma keeps_destination_info w destination p : keeps (get_destination_info w destination p).
Proof.
  unfold get_destination_info. repeat keeps_step.
Qed.

Lemma keeps_render_day w dest acts dining_l day : keeps (render_day w dest acts dining_l day).
Proof. unfold render_day. repeat keeps_step. Qed.

Lemma keeps_render_days w dest acts dining_l days : keeps (render_days w dest acts dining_l days).
Proof.
  induction days as [|d days IH]; cbn [render_days]; repeat keeps_step. exact IH.
Qed.

Lemma keeps_compose w p : keeps (compose w p).
Proof.
  unfold compose. cbv zeta.
  repeat first [apply keeps_destination_info | apply keeps_render_days | keeps_step].
Qed.

Lemma keeps_generate w p : keeps (generate_detailed_itinerary w p).
Proof.
  unfold generate_detailed_itinerary. apply keeps_catch; [apply keeps_compose|].
  intros e. apply keeps_ret.
Qed.

(** ** The turn handler and the session *)

Lemma handle_invalid w prompt st :
  user_message prompt = [] ->
  handle_user_response w prompt st = (Ok invalid_reply, st).
Proof.
  unfold handle_user_response, m_catch, handle_turn, user_message.
  destruct prompt as [| | | |text|]; try reflexivity.
  destruct (String.eqb_spec text ""); [subst; reflexivity|discriminate].
Qed.

Lemma user_message_text text : text <> "" -> user_message (PyStr text) = [("user", text)].
Proof. intros H. cbn. now destruct (String.eqb_spec text ""). Qed.

(** The two kinds of prompt. *)
Lemma prompt_cases prompt :
  user_message prompt = [] \/
  exists text, prompt = PyStr text /\ text <> "" /\ user_message prompt = [("user", text)].
Proof.
  destruct prompt as [| | | |text|]; try (left; reflexivity).
  destruct (String.eqb_spec text "") as [->|H]; [left; reflexivity|].
  right. exists text. split; [reflexivity|]. split; [exact H|]. now apply user_message_text.
Qed.

(** A turn on a non-empty text, as a whole. *)
Lemma handle_text w text st :
  text <> "" ->
  handle_user_response w (PyStr text) st =
    let st1 := recorded w text st in
    if ready_to_generate (merged w text st) then
      if str_in "yes" (lower text) || str_in "generate" (lower text) then
        let '(r, st2) := generate_detailed_itinerary w (merged w text st) st1 in
        match r with
        | Ok itinerary =>
            (Ok itinerary, set_user_info (<["itinerary" := PyStr itinerary]>) st2)
        | Raise e => (Ok ("⚠️ Error processing your request: " ++ exn_str e), st2)
        end
      else (Ok offer_reply, st1)
    else
      match dietary_default (merged w text st) with
      | Ok info =>
          (Ok (answer text (get_next_question info)), set_user_info (fun _ => info) st1)
      | Raise e => (Ok ("⚠️ Error processing your request: " ++ exn_str e), st1)
      end.
Proof.
  intros H. unfold handle_user_response, m_catch.
  rewrite handle_turn_text by exact H. cbv zeta. rewrite recorded_user_info.
  destruct (ready_to_generate _).
  - destruct (_ || _); [|reflexivity].
    now destruct (generate_detailed_itinerary _ _ _) as [[?|?] ?].
  - now destruct (dietary_default _).
Qed.


(** What [generate_detailed_itinerary] returns starts with the title mark
    or with the warning sign. *)
Lemma generate_head w p st s st' :
  generate_detailed_itinerary w p st = (Ok s, st') ->
  (exists rest, s = "# " ++ rest) \/ (exists rest, s = "⚠️ Error generating itinerary: " ++ rest).
Proof.
  intros H. destruct (generate_outcome w p st) as (s0 & st0 & H0 & Hs).
  rewrite H in H0. injection H0 as <- <-.
  destruct Hs as [Hc|(e & _ & ->)]; [left|right; eauto].
  destruct (compose_shape _ _ _ _ _ Hc) as (pre & post & bd & _ & ->). eauto.
Qed.

Lemma generate_ok w p st :
  exists s, generate_detailed_itinerary w p st
            = (Ok s, snd (generate_detailed_itinerary w p st)).
Proof.
  destruct (generate_outcome w p st) as (s & st' & H & _). exists s. now rewrite H.
Qed.

(** The fields of the extractor's result, one by one. *)
Lemma lookup_set_if_eq {A} k (v : option A) (mp : gmap string A) :
  set_if k v mp !! k = match v with Some x => Some x | None => mp !! k end.
Proof. destruct v; simpl; [apply lookup_insert_eq|reflexivity]. Qed.

Lemma extract_lookup w text k :
  text <> "" ->
  extract_travel_info w (PyStr text) !! k =
    if String.eqb k "accommodation_preference" then first_label accom_map (lower text)
    else if String.eqb k "mobility_concerns" then first_label mobility_map (lower text)
    else if String.eqb k "dietary_restrictions" then first_label dietary_map (lower text)
    else if String.eqb k "interests" then extract_interests w (lower text)
    else if String.eqb k "purpose" then first_label purpose_map (lower text)
    else if String.eqb k "budget" then extract_budget_text (lower text)
    else if String.eqb k "duration" then extract_duration (lower text)
    else if String.eqb k "destination" then extract_destination (lower text)
    else None.
Proof.
  intros H. unfold extract_travel_info.
  destruct (String.eqb_spec text ""); [congruence|]. cbv zeta.
  repeat match goal with
         | |- context [String.eqb k ?f] =>
             destruct (String.eqb_spec k f) as [->|?];
             [rewrite ?lookup_set_if_ne by discriminate; rewrite lookup_set_if_eq;
              match goal with
              | |- match ?v with _ => _ end = _ => destruct v; [reflexivity|]
              end;
              rewrite ?lookup_set_if_ne by discriminate; apply lookup_empty
             |rewrite (lookup_set_if_ne f k) by congruence]
         end.
  apply lookup_empty.
Qed.

Lemma extract_keys w prompt k :
  is_Some (extract_travel_info w prompt !! k) -> In k required_fields.
Proof.
  destruct prompt as [| | | |text|]; try (cbn; rewrite lookup_empty; intros [? [=]]).
  destruct (String.eqb_spec text "") as [->|H].
  { cbn. rewrite lookup_empty. intros [? [=]]. }
  rewrite extract_lookup by exact H.
  repeat match goal with
         | |- context [String.eqb k ?f] =>
             destruct (String.eqb_spec k f) as [->|?]; [intros _; simpl; auto 10|]
         end.
  intros [? [=]].
Qed.

Lemma extract_no_itinerary w prompt : extract_travel_info w prompt !! "itinerary" = None.
Proof.
  destruct (extract_travel_info w prompt !! "itinerary") eqn:E; [|reflexivity].
  assert (H : In "itinerary" required_fields) by (eapply extract_keys; eauto).
  simpl in H. repeat destruct H as [H|H]; discriminate || contradiction.
Qed.

Lemma merged_itinerary w text st :
  merged w text st !! "itinerary" = user_info st !! "itinerary".
Proof. unfold merged. now rewrite lookup_merge, extract_no_itinerary. Qed.

Lemma dietary_default_other p info k :
  dietary_default p = Ok info -> k <> "dietary_restrictions" -> info !! k = p !! k.
Proof.
  unfold dietary_default. intros H Hk.
  destruct (negb _); [|now injection H as <-].
  destruct (py_lower _); [|discriminate]. cbn in H. injection H as <-.
  destruct (negb _); [|reflexivity]. now rewrite lookup_insert_ne.
Qed.

Lemma dietary_default_dietary p info :
  dietary_default p = Ok info ->
  truthy (dget p "dietary_restrictions") = true ->
  truthy (dget info "dietary_restrictions") = true.
Proof.
  unfold dietary_default. intros H Ht. rewrite Ht in H. now injection H as <-.
Qed.

Lemma handle_session (w : World) (prompt : val) (st : Session) :
  conversation (snd (handle_user_response w prompt st))
  = (conversation st ++ user_message prompt)%list /\
  current_question (snd (handle_user_response w prompt st)) = current_question st /\
  (used_web_search st = true ->
   used_web_search (snd (handle_user_response w prompt st)) = true).
Proof.
  destruct (prompt_cases prompt) as [E|(text & -> & Ht & E)].
  - rewrite handle_invalid by exact E. rewrite E, app_nil_r. auto.
  - rewrite E, handle_text by exact Ht. cbv zeta.
    destruct (ready_to_generate _).
    + destruct (_ || _); [|cbn; auto].
      pose proof (keeps_generate w (merged w text st) (recorded w text st))
        as (_ & Hc & Hq & Hf & _).
      destruct (generate_detailed_itinerary _ _ _) as [[s|e] st2]; cbn in *; auto.
    + destruct (dietary_default _); cbn; auto.
Qed.


(** X1. A turn adds the user's message, and nothing else, to the
    conversation: a valid prompt is appended as one "user" message, an
    invalid one adds nothing.  The handler never updates the current
    question and never lowers the web-search flag. *)
Theorem turn_records_the_prompt (w : World) (prompt : val) (st : Session) :
  conversation (snd (handle_user_response w prompt st))
  = (conversation st ++ user_message prompt)%list /\
  current_question (snd (handle_user_response w prompt st)) = current_question st /\
  (used_web_search st = true ->
   used_web_search (snd (handle_user_response w prompt st)) = true).
Proof. exact (handle_session w prompt st). Qed.

(** X2. The itinerary slot is written by a generating turn only, and what
    is written is the reply of that turn, the error line included; the
    other slots are then those of the merged profile. *)
Theorem itinerary_is_the_generated_reply (w : World) (prompt : val) (st : Session) :
  exists reply,
    fst (handle_user_response w prompt st) = Ok reply /\
    user_info (snd (handle_user_response w prompt st)) !! "itinerary"
    = (if generates w prompt st then Some (PyStr reply)
       else user_info st !! "itinerary") /\
    (generates w prompt st = true ->
     forall text k, prompt = PyStr text -> k <> "itinerary" ->
       user_info (snd (handle_user_response w prompt st)) !! k = merged w text st !! k).
Proof.
  destruct (prompt_cases prompt) as [E|(text & -> & Ht & E)].
  - rewrite handle_invalid by exact E. exists invalid_reply.
    assert (G : generates w prompt st = false).
    { destruct prompt as [| | | |text|]; try reflexivity. cbn in E |- *.
      now destruct (String.eqb text ""). }
    rewrite G. repeat split; auto. discriminate.
  - rewrite handle_text by exact Ht. cbv zeta. unfold generates.
    destruct (String.eqb_spec text ""); [contradiction|]. cbn [negb andb].
    destruct (ready_to_generate _); cbn [andb].
    + destruct (_ || _).
      * pose proof (keeps_generate w (merged w text st) (recorded w text st))
          as (Hu & _).
        destruct (generate_ok w (merged w text st) (recorded w text st)) as [s Hs].
        rewrite Hs in *. cbn [fst snd] in *. exists s. split; [reflexivity|].
        split; [cbn; now rewrite lookup_insert_eq|].
        intros _ text' k [= <-] Hk. cbn. rewrite lookup_insert_ne by congruence.
        now rewrite Hu.
      * exists offer_reply. split; [reflexivity|]. split; [|discriminate].
        apply merged_itinerary.
    + destruct (dietary_default _) as [info|e] eqn:Hd; eexists;
        (split; [reflexivity|]); (split; [|discriminate]); cbn.
      * rewrite (dietary_default_other _ _ _ Hd) by discriminate. apply merged_itinerary.
      * apply merged_itinerary.
Qed.

Lemma refine_not_other text field q :
  refine_vague_input text field = Some q ->
  existsb (String.eqb q) other_questions = false /\ q <> "".
Proof.
  unfold refine_vague_input.
  repeat match goal with
         | |- context [if ?b then _ else _] => destruct b
         end; intros [= <-]; (split; [vm_compute; reflexivity|discriminate]).
Qed.

Lemma answer_core_question text field :
  In field core_fields ->
  existsb (String.eqb (answer text ("get_" ++ field))) other_questions = false.
Proof.
  intros Hf. unfold answer.
  destruct (if existsb _ _ then _ else _) as [q|] eqn:Er.
  - destruct (existsb _ clarified_questions); [|discriminate].
    destruct (refine_not_other _ _ _ Er) as [Hq Hne].
    destruct (String.eqb_spec q ""); [congruence|exact Hq].
  - simpl in Hf. destruct Hf as [<-|[<-|[<-|[<-|[<-|[]]]]]]; vm_compute; reflexivity.
Qed.

Lemma dietary_default_ready p info :
  dietary_default p = Ok info -> ready_to_generate info = ready_to_generate p.
Proof.
  unfold dietary_default. intros Hd.
  destruct (negb _); [|now injection Hd as <-].
  destruct (py_lower _); [|discriminate]. cbn in Hd.
  injection Hd as <-. destruct (negb _); [|reflexivity].
  apply ready_insert_dietary.
Qed.

(** X3. Every call of the handler returns a reply, and the reply is never
    the question about dietary restrictions, mobility or accommodation,
    never the request to confirm the generation and never the default of
    the question table: while a core slot is missing the scan stops at a
    core slot, and once none is missing the scan is not run. *)
Theorem only_core_questions_are_asked (w : World) (prompt : val) (st : Session) :
  match fst (handle_user_response w prompt st) with
  | Ok reply => existsb (String.eqb reply) other_questions = false
  | Raise _ => False
  end.
Proof.
  destruct (prompt_cases prompt) as [E|(text & -> & Ht & E)].
  - rewrite handle_invalid by exact E. reflexivity.
  - rewrite handle_text by exact Ht. cbv zeta.
    destruct (ready_to_generate (merged w text st)) eqn:Hr.
    + destruct (_ || _); [|reflexivity].
      destruct (generate_detailed_itinerary _ _ _) as [[s|e] st2] eqn:G; [|reflexivity].
      cbn [fst]. destruct (generate_head _ _ _ _ _ G) as [[rest ->]|[rest ->]]; reflexivity.
    + destruct (dietary_default (merged w text st)) as [info|e] eqn:Hd; [|reflexivity].
      cbn [fst]. unfold get_next_question.
      destruct (first_missing_core info) as (field & Hf & ->).
      { now rewrite (dietary_default_ready _ _ Hd). }
      now apply answer_core_question.
Qed.

Lemma is_profile_insert p k s :
  is_profile p -> is_profile (<[k := PyStr s]> p).
Proof.
  unfold is_profile. rewrite !forallb_forall. intros H f Hf.
  destruct (String.eqb_spec k f) as [->|Hne].
  - now rewrite lookup_insert_eq.
  - rewrite lookup_insert_ne by exact Hne. now apply H.
Qed.

Lemma handle_profile (w : World) (prompt : val) (st : Session) :
  is_profile (user_info st) ->
  is_profile (user_info (snd (handle_user_response w prompt st))) /\
  handle_turn w prompt st = handle_user_response w prompt st.
Proof.
  intros Hp. destruct (prompt_cases prompt) as [E|(text & -> & Ht & E)].
  - rewrite handle_invalid by exact E. split; [exact Hp|].
    unfold handle_turn, user_message in *. destruct prompt as [| | | |text|]; try reflexivity.
    destruct (String.eqb_spec text ""); [subst; reflexivity|discriminate].
  - assert (Hm : is_profile (merged w text st)) by now apply is_profile_merge.
    rewrite handle_text, handle_turn_text by exact Ht. cbv zeta.
    rewrite recorded_user_info.
    destruct (ready_to_generate _).
    + destruct (_ || _); [|split; [exact Hm|reflexivity]].
      pose proof (keeps_generate w (merged w text st) (recorded w text st)) as (Hu & _).
      destruct (generate_ok w (merged w text st) (recorded w text st)) as [s Hs].
      rewrite Hs in *. cbn [fst snd] in *. split; [|reflexivity].
      cbn. rewrite Hu. now apply is_profile_insert.
    + rewrite dietary_default_profile
        by (apply profile_field; [exact Hm|simpl; auto 10]).
      split; [|reflexivity]. cbn.
      destruct (_ && _); [now apply is_profile_insert|exact Hm].
Qed.

(** X4. A session whose profile is well formed stays so after any turn, and
    on such a session nothing in the body of the handler raises: the
    answer is never produced by the [except] clause. *)
Theorem turn_keeps_the_profile (w : World) (prompt : val) (st : Session) :
  is_profile (user_info st) ->
  is_profile (user_info (snd (handle_user_response w prompt st))) /\
  handle_turn w prompt st = handle_user_response w prompt st.
Proof. exact (handle_profile w prompt st). Qed.

Lemma turn_keeps_the_profile_witness :
  is_profile (user_info (snd (handle_user_response offline (PyStr "2 weeks in Rome")
                                init_session_state))) /\
  handle_turn offline (PyStr "2 weeks in Rome") init_session_state
  = handle_user_response offline (PyStr "2 weeks in Rome") init_session_state.
Proof.
  apply (turn_keeps_the_profile offline (PyStr "2 weeks in Rome") init_session_state).
  reflexivity.
Defined.

Lemma first_label_in table text l :
  first_label table text = Some l -> In l (map snd table).
Proof.
  induction table as [|[pattern label] table IH]; cbn [first_label]; [discriminate|].
  destruct (found pattern text).
  - intros [= <-]. now left.
  - intros H. right. now apply IH.
Qed.

Lemma first_group_nonempty c ns g : first_group c ns = Some g -> g <> "".
Proof.
  induction ns as [|n ns IH]; cbn [first_group]; [discriminate|].
  destruct (group c n) as [t|]; [|exact IH].
  destruct (String.eqb_spec t ""); [exact IH|]. now intros [= <-].
Qed.

Lemma label_nonempty (table : list (re * string)) l :
  forallb (fun '(_, label) => negb (String.eqb label "")) table = true ->
  In l (map snd table) -> l <> "".
Proof.
  rewrite forallb_forall. intros H Hl. apply in_map_iff in Hl as ([pattern label] & <- & Hin).
  specialize (H _ Hin). cbn in *. now destruct (String.eqb_spec label "").
Qed.

(** Whatever the extractor writes into a slot other than the destination
    and the interests is a non-empty string. *)
Lemma extract_value_nonempty w prompt field s :
  In field lasting_fields ->
  extract_travel_info w prompt !! field = Some s -> s <> "".
Proof.
  intros Hf. destruct (prompt_cases prompt) as [E|(text & -> & Ht & E)].
  - assert (Hempty : extract_travel_info w prompt = ∅).
    { destruct prompt as [| | | |text|]; try reflexivity. cbn in E |- *.
      now destruct (String.eqb text ""). }
    rewrite Hempty, lookup_empty. discriminate.
  - rewrite extract_lookup by exact Ht.
    simpl in Hf. destruct Hf as [<-|[<-|[<-|[<-|[<-|[<-|[<-|[]]]]]]]];
      cbv [String.eqb Ascii.eqb Bool.eqb].
    + unfold extract_duration. destruct (search _ _); [|discriminate].
      destruct (first_group _ _) as [g|]; [|discriminate].
      intros [= <-]. now destruct g.
    + unfold extract_budget_text. destruct (search _ _); [|discriminate].
      apply first_group_nonempty.
    + intros H. eapply label_nonempty; [|eapply first_label_in, H]. reflexivity.
    + intros H. eapply label_nonempty; [|eapply first_label_in, H]. reflexivity.
    + intros H. eapply label_nonempty; [|eapply first_label_in, H]. reflexivity.
    + intros H. eapply label_nonempty; [|eapply first_label_in, H]. reflexivity.
    + discriminate.
Qed.

Lemma merged_lasting w prompt ui field :
  In field lasting_fields ->
  truthy (dget ui field) = true ->
  truthy (dget (merge_extracted (extract_travel_info w prompt) ui) field) = true.
Proof.
  intros Hf Ht. unfold dget in *. rewrite lookup_merge.
  destruct (extract_travel_info w prompt !! field) as [s|] eqn:E; [|exact Ht].
  cbn. apply (extract_value_nonempty _ _ _ _ Hf) in E.
  now destruct (String.eqb_spec s "").
Qed.

(** X5. A filled slot stays filled: after any turn, each of the slots
    duration, budget, purpose, dietary restrictions, mobility concerns,
    accommodation preference and itinerary that held a value still holds
    one. *)
Theorem filled_slots_stay_filled (w : World) (prompt : val) (st : Session)
  (field : string) :
  In field lasting_fields ->
  truthy (dget (user_info st) field) = true ->
  truthy (dget (user_info (snd (handle_user_response w prompt st))) field) = true.
Proof.
  intros Hf Hfilled. destruct (prompt_cases prompt) as [E|(text & -> & Ht & E)].
  - now rewrite handle_invalid by exact E.
  - assert (Hm : truthy (dget (merged w text st) field) = true)
      by now apply merged_lasting.
    rewrite handle_text by exact Ht. cbv zeta.
    destruct (ready_to_generate _).
    + destruct (_ || _); [|exact Hm].
      pose proof (keeps_generate w (merged w text st) (recorded w text st)) as (Hu & _).
      destruct (generate_detailed_itinerary _ _ _) as [[s|e] st2] eqn:G; cbn [fst snd] in *.
      * cbn. rewrite Hu. unfold dget.
        destruct (String.eqb_spec "itinerary" field) as [<-|Hne].
        -- rewrite lookup_insert_eq. cbn.
           destruct (generate_head _ _ _ _ _ G) as [[rest ->]|[rest ->]]; reflexivity.
        -- rewrite lookup_insert_ne by exact Hne. exact Hm.
      * now rewrite Hu.
    + destruct (dietary_default (merged w text st)) as [info|e] eqn:Hd; [|exact Hm].
      cbn. destruct (String.eqb_spec field "dietary_restrictions") as [->|Hne].
      * now apply (dietary_default_dietary _ _ Hd).
      * unfold dget. now rewrite (dietary_default_other _ _ _ Hd) by exact Hne.
Qed.

Lemma filled_slots_stay_filled_witness :
  truthy (dget (user_info (snd (handle_user_response offline (PyStr "to Rome, cheap")
                                  (session_of modest_profile)))) "budget") = true.
Proof.
  apply (filled_slots_stay_filled offline (PyStr "to Rome, cheap")
           (session_of modest_profile) "budget").
  - simpl. auto.
  - reflexivity.
Defined.

(** The destination is not such a slot: an utterance can replace a stored
    destination by the empty string. *)
Example destination_can_be_emptied :
  dget (user_info (session_of modest_profile)) "destination" = PyStr "Paris" /\
  dget (user_info (snd (handle_user_response offline (PyStr "in ,")
                          (session_of modest_profile)))) "destination" = PyStr "".
Proof. vm_compute. split; reflexivity. Qed.

(** ** The extractor and the normalisers *)

(** X6. The extractor writes slots of the profile only: every key of its
    result is one of the eight slots, the itinerary is never among them,
    and a prompt that is empty or not a text gives the empty mapping. *)
Theorem extractor_writes_slots_only (w : World) (prompt : val) :
  dom (extract_travel_info w prompt) ⊆ list_to_set required_fields /\
  extract_travel_info w prompt !! "itinerary" = None /\
  (truthy prompt && is_str prompt = false -> extract_travel_info w prompt = ∅).
Proof.
  split; [|split].
  - intros k Hk. apply elem_of_dom in Hk. apply extract_keys in Hk.
    apply elem_of_list_to_set, list_elem_of_In, Hk.
  - apply extract_no_itinerary.
  - intros H. destruct prompt as [| | | |text|]; try reflexivity.
    cbn in H |- *. destruct (String.eqb text ""); [reflexivity|discriminate H].
Qed.

Lemma lower_char_idem c : lower_char (lower_char c) = lower_char c.
Proof. destruct c as [[] [] [] [] [] [] [] []]; reflexivity. Qed.

Lemma lower_idem s : lower (lower s) = lower s.
Proof.
  induction s as [|c s IH]; [reflexivity|]. cbn [lower]. now rewrite lower_char_idem, IH.
Qed.

Lemma lower_empty s : String.eqb (lower s) "" = String.eqb s "".
Proof. now destruct s. Qed.

(** X7. The case of the letters never matters: the two normalisers, the
    extractor and the clarifier give the same result on a text and on its
    lower-cased form. *)
Theorem letter_case_is_ignored (w : World) (s : string) :
  extract_days (PyStr (lower s)) = extract_days (PyStr s) /\
  extract_budget (PyStr (lower s)) = extract_budget (PyStr s) /\
  extract_travel_info w (PyStr (lower s)) = extract_travel_info w (PyStr s) /\
  (forall field, refine_vague_input (lower s) field = refine_vague_input s field).
Proof.
  repeat split.
  - unfold extract_days, extract_days_body. cbn [truthy py_str].
    now rewrite lower_empty, lower_idem.
  - unfold extract_budget, extract_budget_body. cbn [truthy py_str].
    now rewrite lower_empty, lower_idem.
  - unfold extract_travel_info. now rewrite lower_empty, lower_idem.
  - intros field. unfold refine_vague_input. now rewrite lower_idem.
Qed.

(** A keyword that starts with a letter does not begin inside a run of
    digits. *)
Lemma str_in_after_digits kw ds rest :
  all_chars is_digit ds = true ->
  match kw with String c _ => is_digit c = false | EmptyString => False end ->
  str_in kw (ds ++ rest) = str_in kw rest.
Proof.
  intros Hd Hk. destruct kw as [|c kw]; [contradiction|].
  induction ds as [|a ds IH]; [now rewrite app_nil|].
  simpl in Hd. apply andb_prop in Hd as [Ha Hd].
  rewrite app_cons. cbn [str_in startswith]. rewrite (IH Hd).
  destruct (Ascii.eqb_spec c a) as [->|_]; [congruence|reflexivity].
Qed.

(** The words in which the extractor stores a duration, read back. *)
Lemma extract_days_of_days n :
  n <> "" -> all_chars is_digit n = true ->
  extract_days (PyStr (n ++ " days"))
  = if (int_max_str_digits <? String.length n)%nat then 5 else int_of_digits n.
Proof.
  intros Hn Hd. rewrite extract_days_text by (now destruct n).
  unfold mentions. rewrite lower_app, (lower_digits _ Hd).
  change (lower " days") with " days".
  rewrite !str_in_after_digits by (assumption || reflexivity).
  change (str_in "week" " days") with false. change (str_in "month" " days") with false.
  cbv iota. destruct n as [|a ds]; [congruence|].
  unfold search. rewrite <- (app_nil (String a ds ++ " days")).
  rewrite search_first_integer by (assumption || reflexivity).
  reflexivity.
Qed.

(** X8. A duration that the extractor stores is read back by
    [extract_days] as the number that was typed, within the limit of
    [int]: the stored text is "<N> days", and its day count is N when N
    has at most 4300 digits, whatever unit, day, week or month, followed
    the number in the utterance; for a longer N the day count is the
    default 5. *)
Theorem stored_duration_counts_its_number (w : World) (prompt : val) (d : string) :
  extract_travel_info w prompt !! "duration" = Some d ->
  exists n, d = n ++ " days" /\ n <> "" /\ all_chars is_digit n = true /\
            ((String.length n <= int_max_str_digits)%nat ->
             extract_days (PyStr d) = int_of_digits n) /\
            ((int_max_str_digits < String.length n)%nat ->
             extract_days (PyStr d) = 5).
Proof.
  intros H. destruct (prompt_cases prompt) as [E|(text & -> & Ht & E)].
  - assert (Hempty : extract_travel_info w prompt = ∅).
    { destruct prompt as [| | | |text|]; try reflexivity. cbn in E |- *.
      now destruct (String.eqb text ""). }
    rewrite Hempty, lookup_empty in H. discriminate.
  - rewrite extracted_duration in H by exact Ht.
    destruct (extract_duration_sound _ _ H) as (n & -> & Hn & Hd & _).
    exists n. rewrite (extract_days_of_days n Hn Hd).
    split; [reflexivity|]. split; [exact Hn|]. split; [exact Hd|].
    split; intros Hl.
    + apply Nat.ltb_ge in Hl. now rewrite Hl.
    + apply Nat.ltb_lt in Hl. now rewrite Hl.
Qed.

Lemma stored_duration_counts_its_number_witness :
  exists n, "2 days" = n ++ " days" /\ n <> "" /\ all_chars is_digit n = true /\
            ((String.length n <= int_max_str_digits)%nat ->
             extract_days (PyStr "2 days") = int_of_digits n) /\
            ((int_max_str_digits < String.length n)%nat ->
             extract_days (PyStr "2 days") = 5).
Proof.
  apply (stored_duration_counts_its_number offline (PyStr "2 weeks in Rome") "2 days").
  vm_compute. reflexivity.
Defined.

(** ** The amounts *)

(** X9. Neither normaliser returns a negative number: the day count and the
    budget amount are at least 0, and 0 itself is a possible day count. *)
Theorem normalised_amounts_are_not_negative (v : val) :
  0 <= extract_days v /\ 0 <= extract_budget v /\
  extract_days (PyStr "0 days") = 0.
Proof.
  split; [|split; [apply extract_budget_nonneg|reflexivity]].
  unfold extract_days, extract_days_body.
  destruct (negb _); [lia|]. destruct (str_in "week" _); [lia|].
  destruct (str_in "month" _); [lia|].
  destruct (search _ _) as [c|] eqn:E; [|lia].
  destruct (group c 1) as [d|] eqn:G; [|lia].
  assert (H : caps_digits (lower (py_str v)) c).
  { eapply search_from_digit_groups; [|apply suffix_refl|exact E]. constructor. }
  destruct (H _ _ G) as (_ & Hd & _).
  unfold py_int. destruct (_ <? _)%nat; [lia|].
  apply int_acc_nonneg; [exact Hd|lia].
Qed.

Lemma int_acc_app a : forall acc b, int_acc acc (a ++ b) = int_acc (int_acc acc a) b.
Proof.
  induction a as [|x a IH]; intros acc b; [now rewrite app_nil|].
  rewrite app_cons. cbn [int_acc]. apply IH.
Qed.

Lemma int_acc_shift b : forall acc,
  int_acc acc b = acc * 10 ^ Z.of_nat (String.length b) + int_acc 0 b.
Proof.
  induction b as [|x b IH]; intros acc.
  - cbn. lia.
  - cbn [int_acc String.length]. rewrite IH, (IH (10 * 0 + digit_val x)).
    rewrite Nat2Z.inj_succ, Z.pow_succ_r by lia. ring.
Qed.

Lemma int_of_digits_app a b :
  int_of_digits (a ++ b)
  = int_of_digits a * 10 ^ Z.of_nat (String.length b) + int_of_digits b.
Proof. unfold int_of_digits. rewrite int_acc_app. apply int_acc_shift. Qed.

Lemma app_empty_r (a : string) : a ++ "" = a.
Proof. induction a as [|x a IH]; [reflexivity|]. now rewrite app_cons, IH. Qed.

Lemma filter_chars_app f a b :
  filter_chars f (a ++ b) = filter_chars f a ++ filter_chars f b.
Proof.
  induction a as [|x a IH]; [now rewrite !app_nil|].
  rewrite app_cons. cbn [filter_chars]. destruct (f x); [|exact IH].
  now rewrite app_cons, IH.
Qed.

Lemma filter_digits_id ds : all_chars is_digit ds = true -> filter_chars is_digit ds = ds.
Proof.
  induction ds as [|x ds IH]; [reflexivity|]. cbn. intros H.
  apply andb_prop in H as [-> H]. now rewrite IH.
Qed.

Lemma filter_digits_punctuation s : punctuation s = true -> filter_chars is_digit s = "".
Proof.
  induction s as [|x s IH]; [reflexivity|]. unfold punctuation. cbn. intros H.
  apply andb_prop in H as [Hx H]. apply andb_prop in Hx as [_ Hx].
  destruct (is_digit x); [discriminate|]. now apply IH.
Qed.

(** Texts without letters. *)
Lemma lower_no_letter s :
  all_chars (fun c => negb (is_alpha c)) s = true -> lower s = s.
Proof.
  induction s as [|x s IH]; [reflexivity|]. cbn. intros H.
  apply andb_prop in H as [Hx H]. rewrite (IH H). f_equal.
  unfold lower_char, is_alpha in *. destruct (is_upper x); [discriminate|reflexivity].
Qed.

Lemma str_in_no_letter kw s :
  all_chars (fun c => negb (is_alpha c)) s = true ->
  match kw with String c _ => is_alpha c = true | EmptyString => False end ->
  str_in kw s = false.
Proof.
  intros Hs Hk. destruct kw as [|c kw]; [contradiction|].
  induction s as [|x s IH]; [reflexivity|].
  cbn in Hs. apply andb_prop in Hs as [Hx Hs].
  cbn [str_in startswith]. rewrite (IH Hs).
  destruct (Ascii.eqb_spec c x) as [->|_]; [|reflexivity].
  rewrite Hk in Hx. discriminate.
Qed.

Lemma no_letter_app a b :
  all_chars (fun c => negb (is_alpha c)) (a ++ b)
  = all_chars (fun c => negb (is_alpha c)) a && all_chars (fun c => negb (is_alpha c)) b.
Proof.
  induction a as [|x a IH]; [now rewrite app_nil|].
  rewrite app_cons. cbn [all_chars]. now rewrite IH, andb_assoc.
Qed.

Lemma digit_not_alpha c : is_digit c = true -> is_alpha c = false.
Proof. destruct c as [[] [] [] [] [] [] [] []]; (reflexivity || discriminate). Qed.

Lemma no_letter_digits ds :
  all_chars is_digit ds = true -> all_chars (fun c => negb (is_alpha c)) ds = true.
Proof.
  induction ds as [|x ds IH]; [reflexivity|]. cbn. intros H.
  apply andb_prop in H as [Hx H]. now rewrite (digit_not_alpha _ Hx), IH.
Qed.

Lemma no_letter_punctuation s :
  punctuation s = true -> all_chars (fun c => negb (is_alpha c)) s = true.
Proof.
  induction s as [|x s IH]; [reflexivity|]. unfold punctuation. cbn. intros H.
  apply andb_prop in H as [Hx H]. apply andb_prop in Hx as [-> _]. now apply IH.
Qed.

(** The budget of a text without letters: all its digits, read as one
    number. *)
Lemma extract_budget_no_letter s :
  all_chars (fun c => negb (is_alpha c)) s = true ->
  filter_chars is_digit s <> "" ->
  extract_budget (PyStr s)
  = if (int_max_str_digits <? String.length (filter_chars is_digit s))%nat then 2000
    else int_of_digits (filter_chars is_digit s).
Proof.
  intros Hs Hd. unfold extract_budget, extract_budget_body. cbn [truthy py_str].
  destruct (String.eqb_spec s "") as [->|_]; [now cbn in Hd|]. cbn [negb].
  rewrite (lower_no_letter _ Hs).
  rewrite !str_in_no_letter by (exact Hs || reflexivity). cbn [orb].
  destruct (String.eqb_spec (filter_chars is_digit s) "") as [E|_]; [congruence|].
  unfold py_int. now destruct (_ <? _)%nat.
Qed.

(** X10. [extract_budget] joins all the digits of a text: when a text
    without letters holds two runs of digits, whatever separates them (a
    decimal point, a comma, a dash), the amount is the two runs read as
    one number, as long as they have at most 4300 digits together; with
    more digits [int] raises and the amount is the default 2000. *)
Theorem budget_joins_all_digits (pre a sep b post : string) :
  punctuation pre = true -> punctuation sep = true -> punctuation post = true ->
  a <> "" -> all_chars is_digit a = true -> all_chars is_digit b = true ->
  ((String.length a + String.length b <= int_max_str_digits)%nat ->
   extract_budget (PyStr (pre ++ a ++ sep ++ b ++ post))
   = int_of_digits a * 10 ^ Z.of_nat (String.length b) + int_of_digits b) /\
  ((int_max_str_digits < String.length a + String.length b)%nat ->
   extract_budget (PyStr (pre ++ a ++ sep ++ b ++ post)) = 2000).
Proof.
  intros Hpre Hsep Hpost Ha Hda Hdb.
  assert (F : filter_chars is_digit (pre ++ a ++ sep ++ b ++ post) = a ++ b).
  { rewrite !filter_chars_app.
    rewrite (filter_digits_punctuation pre), (filter_digits_punctuation sep),
      (filter_digits_punctuation post) by assumption.
    rewrite (filter_digits_id a), (filter_digits_id b) by assumption.
    now rewrite !app_nil, app_empty_r. }
  rewrite extract_budget_no_letter.
  - rewrite F, length_app. split; intros Hl.
    + apply Nat.ltb_ge in Hl. rewrite Hl. apply int_of_digits_app.
    + apply Nat.ltb_lt in Hl. now rewrite Hl.
  - rewrite !no_letter_app.
    rewrite (no_letter_punctuation pre), (no_letter_punctuation sep),
      (no_letter_punctuation post) by assumption.
    now rewrite (no_letter_digits a), (no_letter_digits b) by assumption.
  - rewrite F. destruct a; [congruence|discriminate].
Qed.

Lemma budget_joins_all_digits_witness :
  extract_budget (PyStr ("$" ++ "2500" ++ "." ++ "50" ++ ""))
  = int_of_digits "2500" * 10 ^ Z.of_nat (String.length "50") + int_of_digits "50".
Proof.
  apply (budget_joins_all_digits "$" "2500" "." "50" ""); try reflexivity.
  - discriminate.
  - unfold int_max_str_digits. cbn. lia.
Defined.

(** The groups of [f"{n:,}"]: a number below 1000 prints as its digits,
    and pads to three digits that hold the same number. *)
Lemma three_digits_table :
  forallb (fun i =>
             let d := Z.of_nat i in
             let pad := if d <? 10 then "00" else if d <? 100 then "0" else "" in
             all_chars is_digit (str_of_Z d) && (int_of_digits (str_of_Z d) =? d) &&
             Nat.eqb (String.length (pad ++ str_of_Z d)) 3 &&
             (int_of_digits (pad ++ str_of_Z d) =? d) &&
             all_chars is_digit pad &&
             Nat.eqb (String.length (str_of_Z d))
                     (if d <? 10 then 1%nat else if d <? 100 then 2%nat else 3%nat))
          (List.seq 0 1000) = true.
Proof. vm_compute. reflexivity. Qed.

Lemma three_digits d :
  0 <= d < 1000 ->
  let pad := if d <? 10 then "00" else if d <? 100 then "0" else "" in
  all_chars is_digit (str_of_Z d) = true /\ int_of_digits (str_of_Z d) = d /\
  String.length (pad ++ str_of_Z d) = 3%nat /\
  int_of_digits (pad ++ str_of_Z d) = d /\ all_chars is_digit pad = true /\
  String.length (str_of_Z d)
  = (if d <? 10 then 1%nat else if d <? 100 then 2%nat else 3%nat).
Proof.
  intros Hd. pose proof three_digits_table as T. rewrite forallb_forall in T.
  specialize (T (Z.to_nat d)). rewrite Z2Nat.id in T by lia.
  cbv zeta in *.
  assert (Hin : In (Z.to_nat d) (List.seq 0 1000)) by (apply in_seq; lia).
  specialize (T Hin).
  repeat (apply andb_prop in T as [T ?]).
  repeat split; try assumption.
  - now apply Z.eqb_eq.
  - now apply Nat.eqb_eq.
  - now apply Z.eqb_eq.
  - now apply Nat.eqb_eq.
Qed.

Lemma all_chars_app f a b : all_chars f (a ++ b) = all_chars f a && all_chars f b.
Proof.
  induction a as [|x a IH]; [now rewrite app_nil|].
  rewrite app_cons. cbn [all_chars]. now rewrite IH, andb_assoc.
Qed.

(** What [group3] builds reads, without its commas, as the number. *)
Lemma group3_digits fuel : forall n acc,
  0 <= n < 2 ^ Z.of_nat fuel ->
  all_chars (fun c => is_digit c || Ascii.eqb c ",") acc = true ->
  all_chars (fun c => is_digit c || Ascii.eqb c ",") (group3 fuel n acc) = true /\
  int_of_digits (filter_chars is_digit (group3 fuel n acc))
  = n * 10 ^ Z.of_nat (String.length (filter_chars is_digit acc))
    + int_of_digits (filter_chars is_digit acc).
Proof.
  assert (Hdc : forall s, all_chars is_digit s = true ->
                          all_chars (fun c => is_digit c || Ascii.eqb c ",") s = true).
  { induction s as [|x s IH]; [reflexivity|]. cbn. intros H.
    apply andb_prop in H as [-> H]. now apply IH. }
  induction fuel as [|fuel IH]; intros n acc Hn Hacc.
  - cbn [group3]. split; [exact Hacc|]. change (2 ^ Z.of_nat 0) with 1 in Hn.
    replace n with 0 by lia. lia.
  - cbn [group3]. destruct (Z.ltb_spec n 1000) as [Hlt|Hge].
    + destruct (three_digits n ltac:(lia)) as (Hd & Hv & _).
      split.
      * now rewrite all_chars_app, (Hdc _ Hd), Hacc.
      * rewrite filter_chars_app, (filter_digits_id _ Hd), int_of_digits_app, Hv.
        reflexivity.
    + cbv zeta.
      assert (Hm := Z.mod_pos_bound n 1000 ltac:(lia)).
      destruct (three_digits (n mod 1000) Hm) as (Hd & _ & Hl & Hv & Hp & _).
      cbv zeta in Hl, Hv, Hp.
      set (pad := if n mod 1000 <? 10 then "00"
                  else if n mod 1000 <? 100 then "0" else "") in *.
      assert (Hq : 0 <= n / 1000 < 2 ^ Z.of_nat fuel).
      { split; [apply Z.div_pos; lia|].
        rewrite Nat2Z.inj_succ, Z.pow_succ_r in Hn by lia.
        apply Z.div_lt_upper_bound; lia. }
      assert (Hacc' : all_chars (fun c => is_digit c || Ascii.eqb c ",")
                        ("," ++ pad ++ str_of_Z (n mod 1000) ++ acc) = true).
      { rewrite !all_chars_app, (Hdc _ Hp), (Hdc _ Hd), Hacc. reflexivity. }
      destruct (IH (n / 1000) _ Hq Hacc') as [H1 H2]. split; [exact H1|].
      rewrite H2. rewrite !filter_chars_app.
      change (filter_chars is_digit ",") with "". rewrite app_nil.
      rewrite (filter_digits_id _ Hp), (filter_digits_id _ Hd).
      rewrite <- app_assoc'. rewrite length_app, Hl, int_of_digits_app, Hv.
      rewrite Nat2Z.inj_add, Z.pow_add_r by lia.
      change (10 ^ Z.of_nat 3) with 1000.
      pose proof (Z.div_mod n 1000 ltac:(lia)) as E.
      set (q := n / 1000) in *. set (r := n mod 1000) in *.
      set (P := 10 ^ Z.of_nat (String.length (filter_chars is_digit acc))).
      clearbody q r P. subst n. ring.
Qed.

Lemma no_letter_commas s :
  all_chars (fun c => is_digit c || Ascii.eqb c ",") s = true ->
  all_chars (fun c => negb (is_alpha c)) s = true.
Proof.
  induction s as [|x s IH]; [reflexivity|]. cbn. intros H.
  apply andb_prop in H as [Hx H]. rewrite (IH H), andb_true_r.
  apply orb_prop in Hx as [Hx|Hx].
  - now rewrite (digit_not_alpha _ Hx).
  - apply Ascii.eqb_eq in Hx as ->. reflexivity.
Qed.

(** What [group3] builds has no more digits than the number. *)
Lemma group3_length fuel : forall n acc k,
  0 <= n < 10 ^ Z.of_nat (S k) ->
  (String.length (filter_chars is_digit (group3 fuel n acc))
   <= S k + String.length (filter_chars is_digit acc))%nat.
Proof.
  induction fuel as [|fuel IH]; intros n acc k Hn.
  - cbn [group3]. lia.
  - cbn [group3]. destruct (Z.ltb_spec n 1000) as [Hlt|Hge].
    + destruct (three_digits n ltac:(lia)) as (Hd & _ & _ & _ & _ & Hl).
      rewrite filter_chars_app, (filter_digits_id _ Hd), length_app, Hl.
      destruct (Z.ltb_spec n 10); [lia|].
      destruct k as [|k]; [change (10 ^ Z.of_nat 1) with 10 in Hn; lia|].
      destruct (Z.ltb_spec n 100); [lia|].
      destruct k as [|k]; [change (10 ^ Z.of_nat 2) with 100 in Hn; lia|]. lia.
    + cbv zeta.
      assert (Hm := Z.mod_pos_bound n 1000 ltac:(lia)).
      destruct (three_digits (n mod 1000) Hm) as (Hd & _ & Hl & _ & Hp & _).
      cbv zeta in Hl, Hp.
      set (pad := if n mod 1000 <? 10 then "00"
                  else if n mod 1000 <? 100 then "0" else "") in *.
      destruct k as [|k]; [change (10 ^ Z.of_nat 1) with 10 in Hn; lia|].
      destruct k as [|k]; [change (10 ^ Z.of_nat 2) with 100 in Hn; lia|].
      destruct k as [|k]; [change (10 ^ Z.of_nat 3) with 1000 in Hn; lia|].
      assert (Hq : 0 <= n / 1000 < 10 ^ Z.of_nat (S k)).
      { split; [apply Z.div_pos; lia|].
        apply Z.div_lt_upper_bound; [lia|].
        replace (Z.of_nat (S (S (S (S k))))) with (3 + Z.of_nat (S k)) in Hn by lia.
        rewrite Z.pow_add_r in Hn by lia. change (10 ^ 3) with 1000 in Hn. lia. }
      pose proof (IH (n / 1000) ("," ++ pad ++ str_of_Z (n mod 1000) ++ acc) k Hq) as H.
      rewrite !filter_chars_app in H.
      change (filter_chars is_digit ",") with "" in H. rewrite app_nil in H.
      rewrite (filter_digits_id _ Hp), (filter_digits_id _ Hd) in H.
      rewrite <- (app_assoc' pad (str_of_Z (n mod 1000)) (filter_chars is_digit acc)) in H.
      rewrite length_app, Hl in H. lia.
Qed.

(** An amount of at most 4300 digits, printed with the dollar sign and
    the thousands separators, reads back as itself. *)
Lemma printed_amount_reads_back (n : Z) :
  0 <= n -> n < 10 ^ Z.of_nat int_max_str_digits ->
  extract_budget (PyStr ("$" ++ fmt_commas n)) = n.
Proof.
  intros Hn Hmax. destruct (Z.eq_dec n 0) as [->|Hne]; [reflexivity|].
  unfold fmt_commas. destruct (Z.ltb_spec n 0) as [?|_]; [lia|].
  assert (Hf : 0 <= n < 2 ^ Z.of_nat (Z.to_nat (Z.log2 n) + 1)).
  { split; [lia|]. rewrite Nat2Z.inj_add, Z2Nat.id by apply Z.log2_nonneg.
    change (Z.of_nat 1) with 1. rewrite Z.add_1_r. apply Z.log2_spec. lia. }
  destruct (group3_digits _ n "" Hf eq_refl) as [Hc Hv].
  change (filter_chars is_digit "") with "" in Hv. cbn [String.length] in Hv.
  change (int_of_digits "") with 0 in Hv. rewrite Z.pow_0_r, Z.mul_1_r, Z.add_0_r in Hv.
  set (g := group3 _ n "") in *.
  assert (F : filter_chars is_digit ("$" ++ g) = filter_chars is_digit g) by reflexivity.
  assert (Hl : (String.length (filter_chars is_digit g) <= int_max_str_digits)%nat).
  { pose proof (group3_length (Z.to_nat (Z.log2 n) + 1) n "" 4299
                  (conj Hn Hmax)) as H.
    cbn [filter_chars String.length] in H. fold g in H.
    unfold int_max_str_digits. lia. }
  rewrite extract_budget_no_letter.
  - rewrite F. apply Nat.ltb_ge in Hl. now rewrite Hl.
  - rewrite no_letter_app, (no_letter_commas _ Hc). reflexivity.
  - rewrite F. intros E. rewrite E in Hv. cbn in Hv. lia.
Qed.

(** X11. The amount as the itinerary prints it, with the dollar sign and the
    thousands separators of [f"${budget_num:,}"], is read back by
    [extract_budget] as the same amount, for every amount of at most 4300
    digits: these are the amounts that can be printed. *)
Theorem printed_budget_reads_back (n : Z) :
  0 <= n -> n < 10 ^ Z.of_nat int_max_str_digits ->
  extract_budget (PyStr ("$" ++ fmt_commas n)) = n.
Proof. exact (printed_amount_reads_back n). Qed.

Lemma printed_budget_reads_back_witness :
  extract_budget (PyStr ("$" ++ fmt_commas 1234567)) = 1234567.
Proof.
  apply (printed_budget_reads_back 1234567); [lia|]. vm_compute. reflexivity.
Defined.

(** A run of digits reads as a number below the power of ten of its
    length. *)
Lemma int_of_digits_bound s :
  all_chars is_digit s = true ->
  0 <= int_of_digits s < 10 ^ Z.of_nat (String.length s).
Proof.
  unfold int_of_digits. induction s as [|c s IH]; intros Hs; [cbn; lia|].
  cbn [all_chars] in Hs. apply andb_prop in Hs as [Hc Hs]. specialize (IH Hs).
  cbn [int_acc String.length]. rewrite int_acc_shift.
  rewrite Nat2Z.inj_succ, Z.pow_succ_r by lia.
  assert (Hv : 0 <= digit_val c <= 9).
  { unfold is_digit in Hc. apply andb_prop in Hc as [H1 H2].
    apply N.leb_le in H1. apply N.leb_le in H2. unfold digit_val. lia. }
  nia.
Qed.

(** The amounts that [extract_budget] returns have at most 4300 digits. *)
Lemma extract_budget_bound v : extract_budget v < 10 ^ Z.of_nat int_max_str_digits.
Proof.
  assert (Hc : 5000 < 10 ^ Z.of_nat int_max_str_digits) by (vm_compute; reflexivity).
  unfold extract_budget, extract_budget_body, py_int.
  repeat match goal with
         | |- context [if ?b then _ else _] => destruct b eqn:?
         end; try lia.
  match goal with
  | H : (_ <? _)%nat = false |- _ => apply Nat.ltb_ge in H; rename H into Hl
  end.
  pose proof (int_of_digits_bound _ (filter_digits_all (lower (py_str v)))) as [_ Hb].
  eapply Z.lt_le_trans; [exact Hb|].
  apply Z.pow_le_mono_r; lia.
Qed.

(** X29. Every amount that [extract_budget] returns survives being
    printed: printed with the dollar sign and the thousands separators
    of [f"${budget_num:,}"] and read again by [extract_budget], it is the
    same amount.  In particular it has at most 4300 digits, so printing
    it does not raise. *)
Theorem returned_budget_reads_back (v : val) :
  0 <= extract_budget v < 10 ^ Z.of_nat int_max_str_digits /\
  extract_budget (PyStr ("$" ++ fmt_commas (extract_budget v))) = extract_budget v.
Proof.
  pose proof (extract_budget_nonneg v) as H0.
  pose proof (extract_budget_bound v) as H1.
  split; [lia|]. now apply printed_amount_reads_back.
Qed.

(** ** The preference filter *)

Lemma filter_sublist {A} (f : A -> bool) (l : list A) : List.filter f l `sublist_of` l.
Proof.
  induction l as [|x l IH]; cbn [List.filter]; [constructor|].
  destruct (f x); now constructor.
Qed.

Lemma firstn_sublist {A} n (l : list A) : firstn n l `sublist_of` l.
Proof.
  revert n. induction l as [|x l IH]; intros [|n]; cbn [firstn]; try constructor.
  - apply sublist_nil_l.
  - apply IH.
Qed.

(** X12. The preference filter only selects: on a profile and well-formed
    items its result is a sublist of the input, the same items in the same
    order with some left out. *)
Theorem filter_returns_a_sublist (items : list item) (p : gmap string val) :
  is_profile p -> Forall is_item items ->
  exists l, filter_by_preferences items p = Ok l /\ l `sublist_of` items.
Proof.
  intros Hp Hi. rewrite (filter_by_preferences_typed _ _ Hp Hi). eexists.
  split; [reflexivity|].
  destruct (List.filter (kept p) items) eqn:E.
  - apply firstn_sublist.
  - rewrite <- E. apply filter_sublist.
Qed.

Lemma filter_returns_a_sublist_witness :
  exists l, filter_by_preferences six_items empty_profile = Ok l /\
            l `sublist_of` six_items.
Proof.
  apply (filter_returns_a_sublist six_items empty_profile).
  - reflexivity.
  - repeat constructor.
Defined.

Lemma filter_filter {A} (f : A -> bool) (l : list A) :
  List.filter f (List.filter f l) = List.filter f l.
Proof.
  induction l as [|x l IH]; [reflexivity|]. cbn [List.filter].
  destruct (f x) eqn:E; [|exact IH]. cbn [List.filter]. now rewrite E, IH.
Qed.

Lemma filter_nil_firstn {A} (f : A -> bool) n (l : list A) :
  List.filter f l = [] -> List.filter f (firstn n l) = [].
Proof.
  revert n. induction l as [|x l IH]; intros [|n]; cbn [firstn List.filter]; auto.
  destruct (f x); [discriminate|]. apply IH.
Qed.

Lemma firstn_firstn_same {A} n (l : list A) : firstn n (firstn n l) = firstn n l.
Proof.
  revert n. induction l as [|x l IH]; intros [|n]; cbn [firstn]; auto. now rewrite IH.
Qed.

Lemma Forall_sublist {A} (P : A -> Prop) (l1 l2 : list A) :
  l1 `sublist_of` l2 -> Forall P l2 -> Forall P l1.
Proof.
  induction 1 as [|x l1 l2 _ IH|x l1 l2 _ IH]; intros H; auto.
  - inversion H; subst. constructor; auto.
  - inversion H; subst. auto.
Qed.

(** X13. Filtering a second time changes nothing: the result of the filter,
    filtered again with the same profile, comes back as it is. *)
Theorem filter_twice_is_filter_once (items l : list item) (p : gmap string val) :
  is_profile p -> Forall is_item items ->
  filter_by_preferences items p = Ok l ->
  filter_by_preferences l p = Ok l.
Proof.
  intros Hp Hi H. rewrite (filter_by_preferences_typed _ _ Hp Hi) in H.
  injection H as <-.
  destruct (List.filter (kept p) items) as [|it kept_items] eqn:E.
  - rewrite filter_by_preferences_typed;
      [|exact Hp|eapply Forall_sublist; [apply firstn_sublist|exact Hi]].
    now rewrite (filter_nil_firstn _ _ _ E), firstn_firstn_same.
  - rewrite <- E. rewrite filter_by_preferences_typed;
      [|exact Hp|eapply Forall_sublist; [apply filter_sublist|exact Hi]].
    rewrite filter_filter. now rewrite E.
Qed.

Lemma filter_twice_is_filter_once_witness :
  filter_by_preferences (firstn 5 six_items) empty_profile = Ok (firstn 5 six_items).
Proof.
  apply (filter_twice_is_filter_once six_items (firstn 5 six_items) empty_profile).
  - reflexivity.
  - repeat constructor.
  - vm_compute. reflexivity.
Defined.

Lemma split_from_nonempty sep fuel : forall cur s, split_from sep fuel cur s <> [].
Proof.
  induction fuel as [|fuel IH]; intros cur s; cbn [split_from]; [discriminate|].
  destruct (startswith sep s); [discriminate|]. destruct s; [discriminate|apply IH].
Qed.

Lemma for_each_app {A B} (f : B -> A -> result B) (l1 l2 : list A) : forall acc,
  for_each f (l1 ++ l2) acc = (acc' ← for_each f l1 acc; for_each f l2 acc').
Proof.
  induction l1 as [|x l1 IH]; intros acc; [reflexivity|].
  cbn [app for_each]. destruct (f acc x) as [acc'|e]; cbn; [apply IH|reflexivity].
Qed.

Lemma py_lower_not_text v : is_str v = false -> py_lower v = Raise (no_attr (type_name v) "lower").
Proof. destruct v; (reflexivity || discriminate). Qed.

(** X14. With interests set, an item whose name or category is present but
    is not a text makes the filter raise: the loop lower-cases the name and
    the category of every item, and the [AttributeError] of the first such
    item leaves the function. *)
Theorem filter_raises_on_untyped_item (p : gmap string val) (pre post : list item)
  (it : item) (v : val) :
  is_profile p -> truthy (dget p "interests") = true ->
  Forall is_item pre ->
  (it !! "name" = Some v \/
   (absent_or_text (it !! "name") = true /\ it !! "type" = Some v)) ->
  is_str v = false ->
  filter_by_preferences (pre ++ it :: post) p = Raise (no_attr (type_name v) "lower").
Proof.
  intros Hp Ht Hpre Hit Hv. unfold filter_by_preferences.
  rewrite (profile_not_empty _ Hp). cbn [orb].
  rewrite bool_decide_eq_false_2 by (now destruct pre).
  rewrite (preference_interests_profile _ Hp). cbn [mbind result_bind Py.bind].
  assert (Hk : interest_keywords p <> []).
  { unfold interest_keywords.
    rewrite (truthy_text p "interests") in Ht
      by (apply profile_field; [exact Hp|simpl; auto 10]).
    destruct (String.eqb _ ""); [discriminate|]. apply split_from_nonempty. }
  rewrite for_each_app, filter_loop by assumption. cbn [mbind result_bind Py.bind].
  destruct (interest_keywords p) as [|kw kws]; [congruence|].
  assert (E : keep_item (kw :: kws) p it = Raise (no_attr (type_name v) "lower")).
  { unfold keep_item. destruct Hit as [Hn|[Hn Hty]].
    - unfold dget_or. rewrite Hn. change (default (PyStr "") (Some v)) with v.
      now rewrite (py_lower_not_text _ Hv).
    - rewrite (lower_item_field _ _ Hn). cbn [mbind result_bind Py.bind].
      unfold dget_or. rewrite Hty. change (default (PyStr "") (Some v)) with v.
      now rewrite (py_lower_not_text _ Hv). }
  cbn [for_each]. now rewrite E.
Qed.

Lemma filter_raises_on_untyped_item_witness :
  filter_by_preferences
    ([named "Louvre"] ++ <["type" := PyNone]> (named "Ritz") :: [named "Lido"])
    modest_profile
  = Raise (no_attr (type_name PyNone) "lower").
Proof.
  apply (filter_raises_on_untyped_item modest_profile [named "Louvre"] [named "Lido"]
           (<["type" := PyNone]> (named "Ritz")) PyNone).
  - reflexivity.
  - reflexivity.
  - repeat constructor.
  - right. split; reflexivity.
  - reflexivity.
Defined.

(** ** Destination information *)

(** X15. For a destination given as text [get_destination_info] always
    returns: a failure inside is answered by its [except] clause.  When
    the lower-cased destination is a key of the database, Paris, Rome or
    Tokyo in any case of the letters, the description and the transport
    tips are those of the database whatever the providers return; for any
    other destination there are no transport tips and the description is
    the generic line or "<Title> is a popular travel destination.". *)
Theorem destination_info_from_database (w : World) (dest : string)
  (p : gmap string val) (st : Session) :
  exists d st',
    get_destination_info w (PyStr dest) p st = (Ok d, st') /\
    match DESTINATION_DATABASE !! lower dest with
    | Some e => description d = db_description e /\ transport d = Some (db_transport e)
    | None =>
        transport d = None /\
        (description d = "A wonderful travel destination with many attractions" \/
         description d = title dest ++ " is a popular travel destination.")
    end.
Proof.
  unfold get_destination_info.
  unfold mbind, M_bind, m_bind, m_modify, mret, M_ret, m_ret. cbv zeta.
  repeat match goal with
         | |- context [match ?x with _ => _ end] =>
             lazymatch x with
             | DESTINATION_DATABASE !! _ => fail
             | _ => destruct x
             end
         end;
    (do 2 eexists; split; [reflexivity|]);
    destruct (DESTINATION_DATABASE !! lower dest); cbn; auto.
Qed.

(** ** The schedule *)

Lemma bind_ok {A B} (c : M A) (f : A -> M B) st b st' :
  (c ≫= f) st = (Ok b, st') ->
  exists a st1, c st = (Ok a, st1) /\ f a st1 = (Ok b, st').
Proof.
  unfold mbind, M_bind, m_bind. destruct (c st) as [[a|e] st1]; [eauto|discriminate].
Qed.

Lemma ret_ok {A} (a b : A) st st' :
  (mret a : M A) st = (Ok b, st') -> a = b /\ st = st'.
Proof. now intros [= -> ->]. Qed.

Lemma lift_ok {A} (r : result A) a st st' : m_lift r st = (Ok a, st') -> r = Ok a /\ st = st'.
Proof. unfold m_lift. now intros [= -> ->]. Qed.

Lemma random_choice_in {A} (w : World) (dflt : A) l st a st' :
  l <> [] -> random_choice w dflt l st = (Ok a, st') -> In a l.
Proof.
  intros Hl. unfold random_choice. intros [= <- _]. apply nth_In.
  apply Nat.mod_upper_bound. destruct l; [congruence|discriminate].
Qed.

Lemma names_or_nonempty items fallback : names_or items fallback <> [].
Proof. unfold names_or. destruct (map _ _); discriminate. Qed.

Lemma render_day_block w dest acts dining_l day st s st' :
  render_day w dest acts dining_l day st = (Ok s, st') ->
  day_block w dest acts dining_l day s.
Proof.
  unfold render_day. intros H.
  apply bind_ok in H as (date & st0 & Hdate & H). apply lift_ok in Hdate as [Hdate _].
  cbv zeta in H.
  apply bind_ok in H as (morning_acts & st1 & Hm & H). apply lift_ok in Hm as [Hm _].
  apply bind_ok in H as (morning & st2 & Hmc & H).
  apply random_choice_in in Hmc; [|apply names_or_nonempty].
  apply bind_ok in H as (afternoon_acts & st3 & Ha & H). apply lift_ok in Ha as [Ha _].
  apply bind_ok in H as (afternoon & st4 & Hac & H).
  apply random_choice_in in Hac; [|apply names_or_nonempty].
  apply bind_ok in H as (evening_options & st5 & Ho & H).
  apply bind_ok in H as (evening & st6 & He & H).
  apply random_choice_in in He; [|now destruct evening_options].
  apply ret_ok in H as [<- _].
  exists date, morning_acts, afternoon_acts, morning, afternoon, evening.
  repeat (split; [assumption|]). split.
  - apply in_app_iff in He as [He|He]; apply in_app_iff; [left|now right].
    destruct dining_l as [|x dining_l].
    + apply ret_ok in Ho as [<- _]. destruct He.
    + apply bind_ok in Ho as (d & st7 & Hd & Ho). apply ret_ok in Ho as [<- _].
      apply random_choice_in in Hd; [|discriminate].
      destruct He as [<-|[]]. apply in_map_iff in Hd as (y & <- & Hy).
      apply in_map_iff. eauto.
  - unfold day_heading. cbv zeta.
    destruct (match weather_forecast w dest day with Some _ => _ | None => _ end);
      rewrite ?app_empty_r, !app_assoc'; reflexivity.
Qed.

Lemma render_days_blocks w dest acts dining_l days : forall st s st',
  render_days w dest acts dining_l days st = (Ok s, st') ->
  exists blocks,
    s = String.concat "" blocks /\ Forall2 (day_block w dest acts dining_l) days blocks.
Proof.
  induction days as [|day days IH]; intros st s st' H; cbn [render_days] in H.
  - apply ret_ok in H as [<- _]. exists []. split; [reflexivity|constructor].
  - apply bind_ok in H as (block & st1 & Hb & H).
    apply bind_ok in H as (rest & st2 & Hr & H).
    apply ret_ok in H as [<- _].
    destruct (IH _ _ _ Hr) as (blocks & -> & Hf).
    exists (block :: blocks). split.
    + cbn [String.concat]. destruct blocks; [|reflexivity].
      cbn [String.concat]. now rewrite app_empty_r.
    + constructor; [eapply render_day_block; eauto|exact Hf].
Qed.

(** X16. A composed itinerary is made of these parts, in this order: the
    overview, which opens with the title line of the title-cased
    destination and the day count; the sections of the filtered
    activities, dining places and accommodation; the heading of the
    schedule; one block for each day and no more, from day 1 to the day
    count, each made of the heading of its day and of the morning,
    afternoon and evening lines, whose entries are among those the loop
    draws from; the budget section; the transport tips; and the note on
    web searches when the flag is set. *)
Theorem schedule_has_a_block_per_day (w : World) (p : gmap string val)
  (st st' : Session) (s : string) :
  compose w p st = (Ok s, st') ->
  let days := extract_days (dget_or p "duration" (PyStr "5 days")) in
  let budget_num := extract_budget (dget_or p "budget" (PyStr "$2000")) in
  exists place d acts dining_l accommodation_l s_acts s_dining s_accommodation blocks b,
    dget_or p "destination" (PyStr "your destination") = PyStr place /\
    fst (get_destination_info w (PyStr place) p st) = Ok d /\
    filter_by_preferences (activities d) p = Ok acts /\
    filter_by_preferences (dining d) p = Ok dining_l /\
    filter_by_preferences (accommodation d) p = Ok accommodation_l /\
    render_section "## 🎭 Recommended Activities" 8 acts = Ok s_acts /\
    render_section "## 🍽️ Dining Recommendations" 5 dining_l = Ok s_dining /\
    render_section "## 🏨 Accommodation Options" 3 accommodation_l = Ok s_accommodation /\
    budget_breakdown budget_num days = Ok b /\
    s = render_overview (title place) days d p ++
        s_acts ++ s_dining ++ s_accommodation ++
        schedule_heading days ++ String.concat "" blocks ++
        budget_heading budget_num ++ render_breakdown budget_num b ++
        render_transport (transport d) ++
        (if used_web_search st' then web_search_note else "") /\
    List.length blocks = Z.to_nat days /\
    forall i block,
      blocks !! i = Some block ->
      day_block w place acts dining_l (Z.of_nat (S i)) block.
Proof.
  unfold compose. cbv zeta. intros H.
  apply bind_ok in H as (d & st1 & Hd & H).
  apply bind_ok in H as (acts & st2 & Hacts & H). apply lift_ok in Hacts as [Hacts _].
  apply bind_ok in H as (dining_l & st3 & Hdin & H). apply lift_ok in Hdin as [Hdin _].
  apply bind_ok in H as (accommodation_l & st4 & Hacc & H).
  apply lift_ok in Hacc as [Hacc _].
  apply bind_ok in H as (place & st5 & Hplace & H).
  apply bind_ok in H as (s_acts & st6 & Hsa & H). apply lift_ok in Hsa as [Hsa _].
  apply bind_ok in H as (s_dining & st7 & Hsd & H). apply lift_ok in Hsd as [Hsd _].
  apply bind_ok in H as (s_accommodation & st8 & Hsc & H).
  apply lift_ok in Hsc as [Hsc _].
  apply bind_ok in H as (schedule & st9 & Hsch & H).
  apply bind_ok in H as (b & st10 & Hb & H). apply lift_ok in Hb as [Hb _].
  apply bind_ok in H as (st11 & st12 & Hget & H).
  unfold m_get in Hget. injection Hget as <- <-.
  apply ret_ok in H as [<- <-].
  apply lift_ok in Hplace as [Hplace _].
  destruct (dget_or p "destination" (PyStr "your destination")) as [| | | |name|] eqn:Ed;
    try discriminate Hplace.
  injection Hplace as <-. cbn [py_str] in Hsch.
  destruct (render_days_blocks _ _ _ _ _ _ _ _ Hsch) as (blocks & -> & Hbl).
  set (days := extract_days (dget_or p "duration" (PyStr "5 days"))) in *.
  set (budget_num := extract_budget (dget_or p "budget" (PyStr "$2000"))) in *.
  exists name, d, acts, dining_l, accommodation_l, s_acts, s_dining, s_accommodation,
    blocks, b.
  split; [reflexivity|]. split; [now rewrite Hd|].
  repeat (split; [assumption|]). split; [|split].
  - destruct (used_web_search st10); rewrite ?app_empty_r, !app_assoc'; reflexivity.
  - apply Forall2_length in Hbl. rewrite <- Hbl. unfold day_range.
    now rewrite length_map, length_seq.
  - intros i block Hi.
    destruct (Forall2_lookup_r _ _ _ _ _ Hbl Hi) as (day & Hday & Hblock).
    unfold day_range in Hday. rewrite list_lookup_fmap in Hday.
    destruct (List.seq 1 (Z.to_nat days) !! i) as [k|] eqn:Ek; [|discriminate].
    injection Hday as <-. apply lookup_seq in Ek as [-> _]. exact Hblock.
Qed.

Lemma schedule_has_a_block_per_day_witness :
  exists s st' acts dining_l blocks,
    compose offline modest_profile init_session_state = (Ok s, st') /\
    List.length blocks = 3%nat /\
    forall i block,
      blocks !! i = Some block ->
      day_block offline "Paris" acts dining_l (Z.of_nat (S i)) block.
Proof.
  destruct (compose offline modest_profile init_session_state) as [[s|e] st'] eqn:E.
  - exists s, st'.
    destruct (schedule_has_a_block_per_day offline modest_profile init_session_state
                st' s E)
      as (place & d & acts & dining_l & _ & _ & _ & _ & blocks & _ & Hp & _ & _ & _ & _
          & _ & _ & _ & _ & _ & Hl & Hb).
    injection Hp as <-. exists acts, dining_l, blocks.
    split; [reflexivity|]. split; [exact Hl|exact Hb].
  - exfalso.
    assert (F : fst (compose offline modest_profile init_session_state) = Raise e)
      by (rewrite E; reflexivity).
    vm_compute in F. discriminate F.
Defined.

(** ** The stored destination *)

Lemma upper_char_class c :
  is_alpha (upper_char c) = is_alpha c /\ is_space (upper_char c) = is_space c /\
  upper_char (upper_char c) = upper_char c.
Proof. destruct c as [[] [] [] [] [] [] [] []]; repeat split; reflexivity. Qed.

Lemma lower_char_class c :
  is_alpha (lower_char c) = is_alpha c /\ is_space (lower_char c) = is_space c.
Proof. destruct c as [[] [] [] [] [] [] [] []]; repeat split; reflexivity. Qed.

Lemma cased_char_class (b : bool) c :
  let c' := if b then lower_char c else upper_char c in
  is_alpha c' = is_alpha c /\ is_space c' = is_space c /\
  (if b then lower_char c' else upper_char c') = c'.
Proof.
  destruct b; cbv zeta.
  - destruct (lower_char_class c) as [H1 H2]. repeat split; auto. apply lower_char_idem.
  - apply upper_char_class.
Qed.

Lemma title_from_idem s : forall b, title_from b (title_from b s) = title_from b s.
Proof.
  induction s as [|c s IH]; intros b; [reflexivity|]. cbn [title_from].
  destruct (cased_char_class b c) as (Ha & _ & Hc). cbv zeta in *.
  now rewrite Ha, Hc, IH.
Qed.

Lemma all_chars_title f s :
  (forall c b, f (if b : bool then lower_char c else upper_char c) = f c) ->
  forall b, all_chars f (title_from b s) = all_chars f s.
Proof.
  intros Hf. induction s as [|c s IH]; intros b; [reflexivity|].
  cbn [title_from all_chars]. now rewrite Hf, IH.
Qed.

Lemma all_chars_filter f s : all_chars f (filter_chars f s) = true.
Proof.
  induction s as [|c s IH]; [reflexivity|]. cbn [filter_chars].
  destruct (f c) eqn:E; [|exact IH]. cbn [all_chars]. now rewrite E.
Qed.

Lemma all_chars_lstrip f s : all_chars f s = true -> all_chars f (lstrip s) = true.
Proof.
  induction s as [|c s IH]; [reflexivity|]. cbn [lstrip all_chars]. intros H.
  destruct (is_space c); [|exact H]. apply andb_prop in H as [_ H]. now apply IH.
Qed.

Lemma all_chars_rstrip f s : all_chars f s = true -> all_chars f (rstrip s) = true.
Proof.
  induction s as [|c s IH]; [reflexivity|]. cbn [rstrip all_chars]. intros H.
  apply andb_prop in H as [Hc H]. specialize (IH H).
  destruct (rstrip s) as [|c' r].
  - destruct (is_space c); [reflexivity|]. cbn. now rewrite Hc.
  - cbn [all_chars] in *. now rewrite Hc.
Qed.

(** A text that does not begin with a space. *)
Lemma lstrip_head s : match lstrip s with String c _ => is_space c = false | "" => True end.
Proof.
  induction s as [|c s IH]; [exact I|]. cbn [lstrip].
  destruct (is_space c) eqn:E; [exact IH|exact E].
Qed.

Lemma lstrip_clean s :
  match s with String c _ => is_space c = false | "" => True end -> lstrip s = s.
Proof. destruct s as [|c s]; [reflexivity|]. cbn. now intros ->. Qed.

Lemma rstrip_head s :
  match s with String c _ => is_space c = false | "" => True end ->
  match rstrip s with String c _ => is_space c = false | "" => True end.
Proof.
  destruct s as [|c s]; [auto|]. cbn [rstrip]. intros H.
  destruct (rstrip s); [now rewrite H|exact H].
Qed.

Lemma rstrip_idem s : rstrip (rstrip s) = rstrip s.
Proof.
  induction s as [|c s IH]; [reflexivity|]. cbn [rstrip].
  destruct (rstrip s) as [|c' r] eqn:E.
  - destruct (is_space c) eqn:Ec; [reflexivity|]. cbn. now rewrite Ec.
  - cbn [rstrip] in IH |- *. now rewrite IH.
Qed.

Lemma rstrip_title s : forall b, rstrip (title_from b s) = title_from b (rstrip s).
Proof.
  induction s as [|c s IH]; intros b; [reflexivity|]. cbn [title_from rstrip].
  rewrite IH. destruct (cased_char_class b c) as (_ & Hs & _). cbv zeta in Hs.
  destruct (rstrip s) as [|c' r]; cbn [title_from].
  - rewrite Hs. now destruct (is_space c).
  - reflexivity.
Qed.

Lemma title_head s b :
  match s with String c _ => is_space c = false | "" => True end ->
  match title_from b s with String c _ => is_space c = false | "" => True end.
Proof.
  destruct s as [|c s]; [auto|]. cbn [title_from].
  destruct (cased_char_class b c) as (_ & Hs & _). cbv zeta in Hs. now rewrite Hs.
Qed.

(** The destination as the extractor cleans it. *)
Lemma clean_destination g :
  let d := title (strip (filter_chars (fun c => is_alpha c || is_space c) g)) in
  all_chars (fun c => is_alpha c || is_space c) d = true /\ strip d = d /\ title d = d.
Proof.
  cbv zeta. unfold title, strip. repeat split.
  - rewrite all_chars_title.
    + apply all_chars_rstrip, all_chars_lstrip, all_chars_filter.
    + intros c b. destruct (cased_char_class b c) as (Ha & Hs & _). cbv zeta in *.
      now rewrite Ha, Hs.
  - rewrite lstrip_clean by apply title_head, rstrip_head, lstrip_head.
    now rewrite rstrip_title, rstrip_idem.
  - apply title_from_idem.
Qed.

(** X17. A destination that the extractor stores holds letters and
    whitespace only, has no whitespace at either end and is in title
    case: stripping it or title-casing it again changes nothing. *)
Theorem stored_destination_is_clean (w : World) (prompt : val) (d : string) :
  extract_travel_info w prompt !! "destination" = Some d ->
  all_chars (fun c => is_alpha c || is_space c) d = true /\ strip d = d /\ title d = d.
Proof.
  intros H. destruct (prompt_cases prompt) as [E|(text & -> & Ht & E)].
  - assert (Hempty : extract_travel_info w prompt = ∅).
    { destruct prompt as [| | | |text|]; try reflexivity. cbn in E |- *.
      now destruct (String.eqb text ""). }
    rewrite Hempty, lookup_empty in H. discriminate.
  - rewrite extract_lookup in H by exact Ht. cbv [String.eqb Ascii.eqb Bool.eqb] in H.
    unfold extract_destination in H.
    destruct (search _ _); [|discriminate].
    destruct (first_group _ _) as [g|]; [|discriminate].
    injection H as <-. apply clean_destination.
Qed.

Lemma stored_destination_is_clean_witness :
  all_chars (fun c => is_alpha c || is_space c) "St" = true /\
  strip "St" = "St" /\ title "St" = "St".
Proof.
  apply (stored_destination_is_clean offline (PyStr "Heading to ST. Malo!") "St").
  vm_compute. reflexivity.
Defined.

(** ** The stored interests *)

Lemma substring_all s : String.substring 0 (String.length s) s = s.
Proof. induction s as [|c s IH]; [reflexivity|]. cbn. now rewrite IH. Qed.

(** Reading a word without a comma moves it into the current piece. *)
Lemma split_from_word x : forall cur fuel rest,
  all_chars (fun c => negb (Ascii.eqb c ",")) x = true ->
  split_from ", " (String.length x + fuel) cur (x ++ rest)
  = split_from ", " fuel (cur ++ x) rest.
Proof.
  induction x as [|c x IH]; intros cur fuel rest Hx.
  - now rewrite app_nil, app_empty_r.
  - cbn [all_chars] in Hx. apply andb_prop in Hx as [Hc Hx].
    rewrite app_cons. cbn [String.length Nat.add split_from startswith].
    rewrite Ascii.eqb_sym, (negb_true_iff _) in Hc. rewrite Hc. cbn [andb].
    rewrite IH by exact Hx. f_equal.
    rewrite app_assoc'. now rewrite app_cons, app_nil.
Qed.

Lemma split_from_join l : forall fuel,
  l <> [] ->
  Forall (fun x => all_chars (fun c => negb (Ascii.eqb c ",")) x = true) l ->
  (String.length (join ", " l) < fuel)%nat ->
  split_from ", " fuel "" (join ", " l) = l.
Proof.
  induction l as [|x l IH]; intros fuel Hne Hl Hf; [congruence|].
  inversion Hl as [|? ? Hx Hl']; subst.
  destruct l as [|y l].
  - cbn [join] in *.
    replace fuel with (String.length x + (fuel - String.length x))%nat by lia.
    pose proof (split_from_word x "" (fuel - String.length x) "" Hx) as W.
    rewrite app_empty_r, app_nil in W. rewrite W.
    destruct (fuel - String.length x)%nat eqn:E; [lia|]. reflexivity.
  - change (join ", " (x :: y :: l)) with (x ++ ", " ++ join ", " (y :: l)) in *.
    rewrite !length_app in Hf. cbn [String.length] in Hf.
    replace fuel with (String.length x + (fuel - String.length x))%nat by lia.
    rewrite split_from_word by exact Hx.
    destruct (fuel - String.length x)%nat as [|fuel'] eqn:E; [lia|].
    rewrite app_nil.
    change (split_from ", " (S fuel') x (", " ++ join ", " (y :: l)))
      with (x :: split_from ", " fuel' ""
                   (String.substring 0 (String.length (join ", " (y :: l)) - 0)
                                     (join ", " (y :: l)))).
    rewrite Nat.sub_0_r, substring_all. f_equal.
    apply IH; [discriminate|exact Hl'|lia].
Qed.

Lemma split_join l :
  l <> [] ->
  Forall (fun x => all_chars (fun c => negb (Ascii.eqb c ",")) x = true) l ->
  split ", " (join ", " l) = l.
Proof. intros Hne Hl. unfold split. apply split_from_join; auto. Qed.

Lemma all_labels_in table text x :
  In x (all_labels table text) -> In x (map snd table).
Proof.
  induction table as [|[pattern label] table IH]; cbn [all_labels]; [auto|].
  destruct (found pattern text); cbn; intuition.
Qed.

(** X18. The interests survive the way they are stored: the extractor joins
    the detected labels with ", " and the consumers split the stored text
    at ", "; when the set of labels is iterated as a set is, the pieces
    are exactly the labels in the order of that iteration, each a label
    of the table. *)
Theorem stored_interests_split_back (w : World) (text s : string) :
  (forall x, In x (set_iter w (all_labels interest_map (lower text)))
             <-> In x (all_labels interest_map (lower text))) ->
  extract_travel_info w (PyStr text) !! "interests" = Some s ->
  split ", " s = set_iter w (all_labels interest_map (lower text)) /\
  Forall (fun x => In x (map snd interest_map)) (split ", " s).
Proof.
  intros Hset H.
  destruct (String.eqb_spec text "") as [->|Ht].
  { cbn in H. rewrite lookup_empty in H. discriminate. }
  rewrite extract_lookup in H by exact Ht. cbv [String.eqb Ascii.eqb Bool.eqb] in H.
  unfold extract_interests in H.
  destruct (all_labels interest_map (lower text)) as [|l0 labels] eqn:E; [discriminate|].
  injection H as <-.
  assert (Hin : Forall (fun x => In x (map snd interest_map))
                       (set_iter w (l0 :: labels))).
  { apply List.Forall_forall. intros x Hx. apply Hset in Hx. rewrite <- E in Hx.
    eapply all_labels_in, Hx. }
  assert (Hsplit : split ", " (join ", " (set_iter w (l0 :: labels)))
                   = set_iter w (l0 :: labels)).
  { apply split_join.
    - intros Hnil. assert (Hx : In l0 (set_iter w (l0 :: labels))) by (apply Hset; now left).
      rewrite Hnil in Hx. contradiction.
    - eapply List.Forall_impl; [|exact Hin]. intros x Hx.
      cbn in Hx. repeat destruct Hx as [<-|Hx]; try reflexivity. contradiction. }
  rewrite Hsplit. split; [reflexivity|exact Hin].
Qed.

Lemma stored_interests_split_back_witness :
  split ", " "Art, Food"
  = set_iter offline (all_labels interest_map (lower "Art museums and FOOD")) /\
  Forall (fun x => In x (map snd interest_map)) (split ", " "Art, Food").
Proof.
  apply (stored_interests_split_back offline "Art museums and FOOD" "Art, Food").
  - intros x. vm_compute. tauto.
  - vm_compute. reflexivity.
Defined.

(** ** The page *)

Lemma assoc_or_question k :
  assoc_or k question_map "How can I help you with your travel plans?" <> "".
Proof.
  unfold question_map. cbn [assoc_or].
  repeat match goal with
         | |- (if ?b then _ else _) <> _ => destruct b; [discriminate|]
         end.
  discriminate.
Qed.

Lemma answer_nonempty text next_q : answer text next_q <> "".
Proof.
  unfold answer. destruct (if existsb _ _ then _ else _) as [q|].
  - destruct (String.eqb_spec q ""); [apply assoc_or_question|assumption].
  - apply assoc_or_question.
Qed.

(** The handler returns, and its reply is not empty. *)
Lemma handle_reply w prompt st :
  exists reply,
    handle_user_response w prompt st
    = (Ok reply, snd (handle_user_response w prompt st)) /\ reply <> "".
Proof.
  destruct (prompt_cases prompt) as [E|(text & -> & Ht & E)].
  - rewrite handle_invalid by exact E. eexists. split; [reflexivity|discriminate].
  - rewrite handle_text by exact Ht. cbv zeta.
    destruct (ready_to_generate _).
    + destruct (_ || _); [|eexists; split; [reflexivity|discriminate]].
      destruct (generate_detailed_itinerary _ _ _) as [[s|e] st2] eqn:G.
      * eexists. split; [reflexivity|].
        destruct (generate_head _ _ _ _ _ G) as [[rest ->]|[rest ->]]; discriminate.
      * eexists. split; [reflexivity|discriminate].
    + destruct (dietary_default _).
      * eexists. split; [reflexivity|apply answer_nonempty].
      * eexists. split; [reflexivity|discriminate].
Qed.

(** The slots that only the extractor writes. *)
Lemma handle_other_slots w text st k :
  text <> "" -> k <> "itinerary" -> k <> "dietary_restrictions" ->
  user_info (snd (handle_user_response w (PyStr text) st)) !! k = merged w text st !! k.
Proof.
  intros Ht Hk1 Hk2. rewrite handle_text by exact Ht. cbv zeta.
  destruct (ready_to_generate _).
  - destruct (_ || _); [|reflexivity].
    pose proof (keeps_generate w (merged w text st) (recorded w text st)) as (Hu & _).
    destruct (generate_detailed_itinerary _ _ _) as [[s|e] st2]; cbn [snd] in *.
    + cbn. rewrite lookup_insert_ne by congruence. now rewrite Hu.
    + now rewrite Hu.
  - destruct (dietary_default _) as [info|e] eqn:Hd; [|reflexivity].
    cbn. now rewrite (dietary_default_other _ _ _ Hd).
Qed.

Lemma handle_itinerary w text st :
  text <> "" ->
  truthy (dget (user_info (snd (handle_user_response w (PyStr text) st))) "itinerary") = true ->
  ready_to_generate (merged w text st) = true \/
  truthy (dget (user_info st) "itinerary") = true.
Proof.
  intros Ht. rewrite handle_text by exact Ht. cbv zeta.
  destruct (ready_to_generate _); [auto|].
  intros H. right. unfold dget in *. rewrite <- (merged_itinerary w text st).
  destruct (dietary_default _) as [info|e] eqn:Hd; [|exact H].
  cbn in H. now rewrite (dietary_default_other _ _ _ Hd) in H by discriminate.
Qed.

Lemma bind_eq {A B} (c : M A) (f : A -> M B) st a st1 :
  c st = (Ok a, st1) -> (c ≫= f) st = f a st1.
Proof. intros H. unfold mbind, M_bind, m_bind. now rewrite H. Qed.

Lemma well_formed_init : well_formed init_session_state.
Proof.
  repeat split; try reflexivity; try discriminate.
  exists []. split; [reflexivity|constructor].
Qed.

Lemma well_formed_reset st : well_formed (reset_conversation st).
Proof.
  repeat split; try reflexivity; try discriminate.
  exists []. split; [reflexivity|constructor].
Qed.

Lemma dialogue_exchange c u a :
  dialogue c -> u <> "" -> a <> "" ->
  dialogue ((c ++ [("user", u)]) ++ [("assistant", a)]).
Proof.
  intros (exchanges & -> & Hf) Hu Ha. exists (exchanges ++ [(u, a)])%list. split.
  - rewrite flat_map_app. cbn [flat_map exchange fst snd].
    rewrite app_nil_r. cbn [app]. now rewrite <- !app_assoc.
  - apply Forall_app. split; [exact Hf|]. repeat constructor; assumption.
Qed.

Lemma merged_destination_text w text st :
  is_profile (user_info st) ->
  (is_str (dget (user_info st) "destination") = true \/
   truthy (dget (merged w text st) "destination") = true) ->
  is_str (dget (merged w text st) "destination") = true.
Proof.
  intros Hp H. unfold merged, dget in *. rewrite lookup_merge in *.
  destruct (extract_travel_info w (PyStr text) !! "destination"); [reflexivity|].
  destruct H as [H|H]; [exact H|].
  pose proof (profile_field _ "destination" Hp ltac:(simpl; auto 10)) as Hd.
  destruct (user_info st !! "destination") as [[| | | |s|]|]; try discriminate; reflexivity.
Qed.

Lemma ready_destination p : ready_to_generate p = true -> truthy (dget p "destination") = true.
Proof.
  unfold ready_to_generate, core_fields. cbn [forallb]. intros H.
  now apply andb_prop in H as [H _].
Qed.

(** A turn of the chat, with its reply recorded, keeps a session well
    formed. *)
Lemma well_formed_turn w text st reply :
  text <> "" -> reply <> "" -> well_formed st ->
  handle_user_response w (PyStr text) st
  = (Ok reply, snd (handle_user_response w (PyStr text) st)) ->
  well_formed (append_message "assistant" reply
                 (snd (handle_user_response w (PyStr text) st))).
Proof.
  intros Ht Hr (Hp & Hi & Hd & Hq) E.
  destruct (handle_profile w (PyStr text) st Hp) as [Hp' _].
  destruct (handle_session w (PyStr text) st) as (Hc & Hq' & _).
  rewrite user_message_text in Hc by exact Ht.
  set (st' := snd (handle_user_response w (PyStr text) st)) in *.
  repeat split.
  - exact Hp'.
  - cbn. intros Hit. unfold st'.
    unfold dget. rewrite handle_other_slots by (assumption || discriminate).
    apply merged_destination_text; [exact Hp|].
    destruct (handle_itinerary w text st Ht Hit) as [H|H].
    + right. now apply ready_destination.
    + left. now apply Hi.
  - cbn. rewrite Hc. now apply dialogue_exchange.
  - cbn. congruence.
Qed.

Lemma file_name_ok p :
  is_str (dget p "destination") = true -> is_profile p ->
  exists f, file_name p = Ok f.
Proof.
  intros Hs Hp. unfold file_name, dget_or, dget in *.
  destruct (p !! "destination") as [[| | | |s|]|]; try discriminate.
  cbn. eauto.
Qed.

(** One run from a well-formed session: it does not raise, and it leaves
    a well-formed session. *)
Lemma main_well_formed w inp st :
  well_formed st ->
  (exists rerun, fst (main w inp st) = Ok rerun) /\ well_formed (snd (main w inp st)).
Proof.
  intros Hw. unfold main.
  destruct (start_new_trip inp).
  { cbn. split; [eauto|apply well_formed_reset]. }
  assert (Hshow : forall st0, well_formed st0 ->
    let c : M bool :=
      st ← m_get;
      if truthy (dget (user_info st) "itinerary") then
        _ ← m_lift (file_name (user_info st));
        if edit_trip_details inp then
          _ ← m_modify reset_conversation; mret true
        else mret false
      else mret false in
    (exists rerun, fst (c st0) = Ok rerun) /\ well_formed (snd (c st0))).
  { intros st0 Hw0. cbv zeta.
    unfold mbind, M_bind, m_bind, m_get, m_modify, m_lift, mret, M_ret, m_ret.
    destruct (truthy (dget (user_info st0) "itinerary")) eqn:Hit; [|cbn; eauto].
    destruct Hw0 as (Hp & Hi & Hd & Hq).
    destruct (file_name_ok _ (Hi Hit) Hp) as [f ->].
    destruct (edit_trip_details inp); cbn.
    - split; [eauto|apply well_formed_reset].
    - split; [eauto|]. repeat split; assumption. }
  destruct (chat_input inp) as [prompt|]; [|apply (Hshow st Hw)].
  cbn [truthy]. destruct (String.eqb_spec prompt "") as [->|Hne]; [apply (Hshow st Hw)|].
  cbn [negb].
  destruct (handle_reply w (PyStr prompt) st) as (reply & E & Hr).
  set (st' := snd (handle_user_response w (PyStr prompt) st)) in *.
  assert (Hchat :
    (response ← handle_user_response w (PyStr prompt);
     if truthy (PyStr response)
     then _ ← m_modify (append_message "assistant" response); mret true
     else mret false) st
    = (Ok true, append_message "assistant" reply st')).
  { rewrite (bind_eq _ _ _ _ _ E).
    cbn [truthy]. destruct (String.eqb_spec reply ""); [contradiction|]. reflexivity. }
  rewrite (bind_eq _ _ _ _ _ Hchat).
  cbn [fst snd]. split; [eexists; reflexivity|].
  change (well_formed (append_message "assistant" reply st')).
  now apply well_formed_turn.
Qed.

Lemma reachable_well_formed w st : reachable w st -> well_formed st.
Proof.
  induction 1 as [|inp st _ IH]; [apply well_formed_init|].
  now apply main_well_formed.
Qed.

(** X19. A run of the page from a session that the page can reach does not
    raise: in particular the name of the file to download, which is
    built whenever an itinerary is stored, always finds a destination
    that is a text. *)
Theorem page_never_fails (w : World) (st : Session) (inp : Inputs) :
  reachable w st -> exists rerun, fst (main w inp st) = Ok rerun.
Proof.
  intros H.
  destruct (main_well_formed w inp st (reachable_well_formed w st H)) as [Hr _].
  exact Hr.
Qed.

Lemma page_never_fails_witness :
  exists rerun,
    fst (main offline {| start_new_trip := false; chat_input := Some "yes";
                         edit_trip_details := false |}
           (snd (main offline {| start_new_trip := false;
                                 chat_input := Some "a week in Rome for art, budget 900";
                                 edit_trip_details := false |}
                   init_session_state))) = Ok rerun.
Proof.
  apply (page_never_fails offline).
  apply reachable_run, reachable_init.
Defined.

(** X20. Every session that the page can reach is well formed: its profile
    holds the nine fields, each null or a text; its conversation is the
    welcome followed by exchanges, each a non-empty message of the user
    and the non-empty reply to it; and its current question is still
    "get_destination", which nothing but the reset ever writes. *)
Theorem reachable_sessions_are_well_formed (w : World) (st : Session) :
  reachable w st ->
  is_profile (user_info st) /\
  dialogue (conversation st) /\
  current_question st = "get_destination".
Proof.
  intros H. destruct (reachable_well_formed w st H) as (Hp & _ & Hd & Hq). auto.
Qed.

Lemma reachable_sessions_are_well_formed_witness :
  let st := snd (main offline {| start_new_trip := false;
                                 chat_input := Some "a week in Rome for art, budget 900";
                                 edit_trip_details := false |}
                   init_session_state) in
  is_profile (user_info st) /\
  dialogue (conversation st) /\
  current_question st = "get_destination".
Proof.
  apply (reachable_sessions_are_well_formed offline).
  apply reachable_run, reachable_init.
Defined.

(** ** Whole words *)

(** A match somewhere in a text is found by the search, which may stop at
    an earlier one. *)
Lemma search_from_found r pre : forall prev s c,
  match_here r (after prev pre) s = Some c ->
  exists c', search_from r prev (pre ++ s) = Some c'.
Proof.
  induction pre as [|a pre IH]; intros prev s c H.
  - rewrite app_nil. cbn [after] in H.
    destruct s; cbn [search_from]; rewrite H; eauto.
  - rewrite app_cons. cbn [search_from].
    destruct (match_here r prev _); [eauto|]. now apply (IH (Some a) s c).
Qed.

Lemma whole_found word pre post :
  word <> "" ->
  word_before (after None pre) = false ->
  word_after (word ++ post) = true ->
  word_before (after (after None pre) word) = true ->
  word_after post = false ->
  found (whole word) (pre ++ word ++ post) = true.
Proof.
  intros Hw H1 H2 H3 H4. unfold found, search.
  destruct (search_from_found (whole word) pre None (word ++ post) []) as [c ->];
    [|reflexivity].
  unfold match_here, whole. cbn [seq m]. rewrite H1, H2. cbn [xorb].
  rewrite lit_match. now rewrite H3, H4.
Qed.

Lemma whole_search_sound word s : forall prev c,
  search_from (whole word) prev s = Some c -> str_in word s = true.
Proof.
  assert (Hm : forall prev s c, match_here (whole word) prev s = Some c ->
                                startswith word s = true).
  { intros prev s0 c. unfold match_here, whole. cbn [seq m].
    destruct (xorb _ _); [|discriminate]. intros H.
    apply lit_sound in H as (prev' & s' & -> & _). apply startswith_app. }
  induction s as [|a s IH]; intros prev c; cbn [search_from].
  - destruct (match_here _ _ _) eqn:E; [|discriminate].
    intros _. apply str_in_prefix. eapply Hm, E.
  - destruct (match_here _ _ _) eqn:E.
    + intros _. apply str_in_prefix. eapply Hm, E.
    + intros H. cbn [str_in]. rewrite (IH _ _ H). apply orb_true_r.
Qed.

Lemma whole_not_found word s : str_in word s = false -> found (whole word) s = false.
Proof.
  intros H. unfold found, search.
  destruct (search_from _ _ _) eqn:E; [|reflexivity].
  apply whole_search_sound in E. congruence.
Qed.

(** X21. An utterance that holds the word "budget", whole and in any case
    of the letters, records the accommodation preference "Budget", unless
    it also holds "luxur" or "boutique": naming an amount as "budget 900"
    fills the accommodation slot as well. *)
Theorem budget_word_sets_accommodation (w : World) (text pre post : string) :
  lower text = pre ++ "budget" ++ post ->
  word_before (after None pre) = false -> word_after post = false ->
  str_in "luxur" (lower text) = false -> str_in "boutique" (lower text) = false ->
  extract_travel_info w (PyStr text) !! "accommodation_preference" = Some "Budget".
Proof.
  intros Ht Hb Ha Hl Hq.
  assert (Hne : text <> "").
  { intros ->. cbn in Ht. destruct pre; discriminate. }
  rewrite extract_lookup by exact Hne. cbv [String.eqb Ascii.eqb Bool.eqb].
  unfold accom_map. cbn [first_label].
  rewrite (whole_not_found _ _ Hl), (whole_not_found _ _ Hq), Ht.
  now rewrite whole_found.
Qed.

Lemma budget_word_sets_accommodation_witness :
  extract_travel_info offline (PyStr "My budget is $900") !! "accommodation_preference"
  = Some "Budget".
Proof.
  apply (budget_word_sets_accommodation offline "My budget is $900" "my " " is $900");
    reflexivity.
Defined.

(** ** The destination pattern *)

(** What [(.+?)] reads is not empty. *)
Lemma lazy_dot_sound {A} (k : cont A) fuel : forall prev s c x,
  lazy_loop (m dot) k fuel prev s c = Some x ->
  exists prev' s', shorter s' s = true /\ k prev' s' c = Some x.
Proof.
  induction fuel as [|fuel IH]; intros prev s c x H; cbn [lazy_loop m dot] in H;
    (destruct s as [|a s]; [discriminate|]);
    (destruct (negb (Ascii.eqb a "010")); [|discriminate]).
  - destruct (k (Some a) s c) as [y|] eqn:E; [|discriminate].
    exists (Some a), s. split; [apply shorter_tail|congruence].
  - destruct (k (Some a) s c) as [y|] eqn:E.
    + exists (Some a), s. split; [apply shorter_tail|congruence].
    + destruct (shorter s (String a s)); [|discriminate].
      destruct (IH _ _ _ _ H) as (p' & s' & Hs & Hk). exists p', s'. split; [|exact Hk].
      unfold shorter in *. apply Nat.ltb_lt in Hs. apply Nat.ltb_lt.
      cbn [String.length]. lia.
Qed.

Lemma take_nonempty n a s : take (S n) (String a s) <> "".
Proof. discriminate. Qed.

(** The separator after the destination keeps the groups. *)
Lemma terminator_sound prev s c x :
  m (alt [space; Lit ","; Lit "."; Eol]) prev s c (fun _ _ c' => Some c') = Some x ->
  x = c.
Proof.
  cbn [alt m space lit].
  destruct s as [|a s].
  - now intros [= <-].
  - destruct (is_space a); [now intros [= <-]|].
    destruct (Ascii.eqb "," a); [now intros [= <-]|].
    destruct (Ascii.eqb "." a); [now intros [= <-]|].
    destruct s; [|discriminate]. destruct (Ascii.eqb a "010"); [now intros [= <-]|discriminate].
Qed.

Lemma keyword_groups :
  digit_groups (alt [Lit "going to"; Lit "visiting";
                     seq [Lit "travel"; Opt (Lit "ing"); Lit " to"];
                     seq [Lit "destination i"; Opt (Lit "s")];
                     Lit "in"; Lit "trip to"; Lit "heading to"; Lit "visit";
                     Lit "go to"]).
Proof. cbn [alt seq]. repeat constructor. Qed.

(** A match of the destination pattern fills its first or its second
    group with a text that is not empty. *)
Lemma destination_match_group prev s c :
  match_here destination_re prev s = Some c ->
  exists g, first_group c [1; 2]%nat = Some g.
Proof.
  unfold match_here, destination_re. cbn [m].
  match goal with
  | |- match ?a with _ => _ end = _ -> _ => destruct a as [y|] eqn:E
  end.
  - intros [= <-]. cbn [seq m] in E.
    apply (m_digit_groups _ keyword_groups _ _ s) in E
      as (p1 & s1 & c1 & Hs1 & Hc1 & E); [|apply suffix_refl|apply caps_digits_nil].
    assert (Hstar : digit_groups (Star space)) by repeat constructor.
    apply (m_digit_groups _ Hstar _ _ s) in E
      as (p2 & s2 & c2 & Hs2 & _ & E); [|exact Hs1|exact Hc1].
    apply lazy_dot_sound in E as (p3 & s3 & Hs3 & E).
    apply terminator_sound in E as ->.
    unfold set_cap. cbn [first_group group Nat.eqb].
    unfold shorter in Hs3. apply Nat.ltb_lt in Hs3.
    destruct s2 as [|a s2]; [cbn in Hs3; lia|].
    destruct (String.length (String a s2) - String.length s3)%nat eqn:El;
      [cbn [String.length] in *; lia|].
    cbn [take String.eqb]. eauto.
  - cbn [seq m alt]. destruct prev; [discriminate|].
    intros H.
    assert (Hcity : exists city s',
               In city ["paris"; "rome"; "london"; "new york"; "tokyo"] /\
               s = city ++ s' /\ c = set_cap 2 city []).
    { repeat match type of H with
             | match ?a with _ => _ end = _ =>
                 let F := fresh "F" in destruct a as [z|] eqn:F; [injection H as <-|]
             end;
        match goal with
        | F : lit ?l _ _ _ _ = Some _ |- _ =>
            apply lit_sound in F as (p' & s' & -> & F); exists l, s';
            rewrite take_consumed in F;
            destruct (xorb _ _); [injection F as <-|discriminate F];
            split; [simpl; auto 10|split; reflexivity]
        end. }
    destruct Hcity as (city & s' & Hin & -> & ->).
    simpl in Hin. destruct Hin as [<-|[<-|[<-|[<-|[<-|[]]]]]]; cbn; eauto.
Qed.

Lemma destination_search_group s : forall prev c,
  search_from destination_re prev s = Some c ->
  exists g, first_group c [1; 2]%nat = Some g.
Proof.
  induction s as [|a s IH]; intros prev c; cbn [search_from].
  - destruct (match_here _ _ _) eqn:E; [|discriminate].
    intros [= <-]. eapply destination_match_group, E.
  - destruct (match_here _ _ _) eqn:E.
    + intros [= <-]. eapply destination_match_group, E.
    + apply IH.
Qed.

Lemma terminator_some prev s c :
  match s with
  | "" => true
  | String a _ => is_space a || Ascii.eqb "," a || Ascii.eqb "." a
  end = true ->
  m (alt [space; Lit ","; Lit "."; Eol]) prev s c (fun _ _ c' => Some c') = Some c.
Proof.
  cbn [alt m space lit]. destruct s as [|a s]; [reflexivity|].
  destruct (is_space a); [reflexivity|]. destruct (Ascii.eqb "," a); [reflexivity|].
  destruct (Ascii.eqb "." a); [reflexivity|discriminate].
Qed.

(** [(.+?)] followed by a separator matches from any character that is
    not a line feed: the line feed is itself a separator. *)
Lemma lazy_dot_some {A} (k : cont A) rest : forall fuel prev a c,
  a <> "010"%char -> (String.length rest <= fuel)%nat ->
  (forall p s' c',
      match s' with
      | "" => true
      | String b _ => is_space b || Ascii.eqb "," b || Ascii.eqb "." b
      end = true -> is_Some (k p s' c')) ->
  is_Some (lazy_loop (m dot) k fuel prev (String a rest) c).
Proof.
  induction rest as [|b rest IH]; intros fuel prev a c Ha Hf Hk.
  - destruct fuel; cbn [lazy_loop m dot];
      (destruct (Ascii.eqb_spec a "010"); [contradiction|]); cbn [negb];
      destruct (Hk (Some a) "" c eq_refl) as [x ->]; eauto.
  - cbn [String.length] in Hf. destruct fuel as [|fuel]; [lia|].
    cbn [lazy_loop m dot]. destruct (Ascii.eqb_spec a "010"); [contradiction|]. cbn [negb].
    destruct (k (Some a) (String b rest) c) as [x|] eqn:E; [eauto|].
    rewrite shorter_tail.
    apply IH; [|lia|exact Hk].
    intros ->. destruct (Hk (Some a) (String "010" rest) c eq_refl) as [x Hx]. congruence.
Qed.

Lemma or_some_r {A} r1 r2 prev s c (k : cont A) :
  is_Some (m r2 prev s c k) -> is_Some (m (Or r1 r2) prev s c k).
Proof. cbn [m]. destruct (m r1 prev s c k); eauto. Qed.

Lemma or_some_l {A} r1 r2 prev s c (k : cont A) :
  is_Some (m r1 prev s c k) -> is_Some (m (Or r1 r2) prev s c k).
Proof. cbn [m]. intros [x ->]. eauto. Qed.

Lemma star_some {A} step (k : cont A) fuel prev s c :
  is_Some (k prev s c) -> is_Some (star_loop step k fuel prev s c).
Proof.
  intros H. destruct fuel; cbn [star_loop]; [exact H|].
  match goal with |- is_Some (match ?a with _ => _ end) => destruct a end; eauto.
Qed.

(** The keyword "in" followed by a character matches the destination
    pattern. *)
Lemma destination_match_in prev a rest :
  a <> "010"%char ->
  is_Some (match_here destination_re prev ("in" ++ String a rest)).
Proof.
  intros Ha. unfold match_here, destination_re. apply or_some_l.
  cbn [seq]. cbn [m]. cbn [alt].
  do 4 apply or_some_r. apply or_some_l.
  cbn [m]. rewrite lit_match. apply star_some. cbn [m].
  apply lazy_dot_some; [exact Ha|cbn [String.length]; lia|].
  intros p s' c' Hs'. eexists. apply terminator_some. exact Hs'.
Qed.

(** X22. The letters "in" trigger the destination pattern wherever they
    stand: an utterance in which "in" is followed by any character but a
    line feed gets a destination update, also when the two letters are
    part of a word, and the turn writes that update into the profile. *)
Theorem in_sets_a_destination (w : World) (text pre rest : string) (a : ascii) :
  lower text = pre ++ "in" ++ String a rest -> a <> "010"%char ->
  exists d,
    extract_travel_info w (PyStr text) !! "destination" = Some d /\
    forall st,
      user_info (snd (handle_user_response w (PyStr text) st)) !! "destination"
      = Some (PyStr d).
Proof.
  intros Ht Ha.
  assert (Hne : text <> "").
  { intros ->. cbn in Ht. destruct pre; discriminate. }
  destruct (destination_match_in (after None pre) a rest Ha) as [c0 Hc0].
  destruct (search_from_found destination_re pre None _ _ Hc0) as [c Hc].
  destruct (destination_search_group _ _ _ Hc) as [g Hg].
  assert (Hd : extract_travel_info w (PyStr text) !! "destination"
               = Some (title (strip (filter_chars (fun c => is_alpha c || is_space c) g)))).
  { rewrite extract_lookup by exact Hne. cbv [String.eqb Ascii.eqb Bool.eqb].
    unfold extract_destination, search. now rewrite Ht, Hc, Hg. }
  eexists. split; [exact Hd|]. intros st.
  rewrite handle_other_slots by (assumption || discriminate).
  unfold merged. now rewrite lookup_merge, Hd.
Qed.

Lemma in_sets_a_destination_witness :
  exists d,
    extract_travel_info offline (PyStr "I like paintings") !! "destination" = Some d /\
    forall st,
      user_info (snd (handle_user_response offline (PyStr "I like paintings") st))
        !! "destination" = Some (PyStr d).
Proof.
  apply (in_sets_a_destination offline "I like paintings" "i like pa" "ings" "t").
  - reflexivity.
  - discriminate.
Defined.

(** The update of that utterance: the letters after "in". *)
Example paintings_destination :
  extract_travel_info offline (PyStr "I like paintings") !! "destination" = Some "Tings".
Proof. vm_compute. reflexivity. Qed.

(** ** Providers *)

(** *** Web search *)

Lemma result_divs_link divs results :
  result_divs divs = Some results ->
  Forall (fun r : jitem => is_Some (r !! "link")) results.
Proof.
  revert results. induction divs as [|g divs IH]; intros results; cbn [result_divs].
  - intros [= <-]. constructor.
  - destruct (anchor g) as [[href|]|]; cbn; [|discriminate|apply IH].
    destruct (result_divs divs) as [rs|]; [|discriminate]. cbn.
    intros [= <-]. constructor; [|now apply IH]. now eexists.
Qed.

Lemma Forall_firstn {A} (P : A -> Prop) n (l : list A) : Forall P l -> Forall P (firstn n l).
Proof. intros H. eapply Forall_sublist; [apply firstn_sublist|exact H]. Qed.

(** Every result of a web search has a link. *)
Lemma web_search_link keys net query n :
  Forall (fun r : jitem => is_Some (r !! "link")) (web_search keys net query n).
Proof.
  unfold web_search. destruct (configured (SERPER_API_KEY keys)).
  - unfold serper_api_search.
    destruct (serper_api net query n) as [doc|]; [|constructor]. cbn.
    destruct (jget doc "organic" _) as [organic|]; [|constructor]. cbn.
    destruct (jiter organic) as [results|]; [|constructor]. cbn.
    destruct (mapM _ results) as [rs|] eqn:E; [|constructor]. cbn.
    apply mapM_Some_1 in E. induction E as [|r y results rs Hr _ IH]; constructor; [|exact IH].
    destruct (jget r "title" _); [|discriminate]. cbn in Hr.
    destruct (jget r "link" _); [|discriminate]. cbn in Hr.
    destruct (jget r "snippet" _); [|discriminate]. cbn in Hr.
    injection Hr as <-. now eexists.
  - cbn. unfold fallback_google_search.
    destruct (google_page net query n) as [divs|]; [|constructor]. cbn.
    destruct (result_divs divs) as [rs|] eqn:E; [|constructor]. cbn.
    apply Forall_firstn. eapply result_divs_link, E.
Qed.

(** What the loop over the scraped pages gives, for results with links. *)
Lemma scrape_results_ok net results :
  Forall (fun r : jitem => is_Some (r !! "link")) results ->
  exists recommendations,
    scrape_results net results = Some recommendations /\
    Forall (fun it : jitem =>
              exists heading link description,
                it = {[ "name" := JVal (PyStr heading);
                        "type" := JVal (PyStr "attraction");
                        "source" := link;
                        "description" := JVal (PyStr description) ]} /\
                existsb (fun word => str_in word (lower heading)) marker_words = true)
           recommendations.
Proof.
  induction 1 as [|r results [link Hl] _ (recs & E & IH)]; cbn [scrape_results].
  - exists []. split; [reflexivity|constructor].
  - rewrite Hl, E. cbn. eexists. split; [reflexivity|].
    apply Forall_app. split; [|exact IH].
    destruct (scrape_website net link) as [scraped|]; [|constructor].
    unfold page_recommendations. apply List.Forall_flat_map, List.Forall_forall.
    intros heading _.
    destruct (existsb _ marker_words) eqn:Em; constructor; [|constructor].
    eauto 10.
Qed.

Lemma length_firstn_le {A} n (l : list A) : (List.length (firstn n l) <= n)%nat.
Proof. rewrite length_firstn. lia. Qed.

Lemma web_recommendations keys net destination interests :
  let r := get_web_based_recommendations keys net destination interests in
  snd r = true /\ (List.length (fst r) <= 5)%nat /\
  Forall (fun it : jitem =>
            exists heading link description,
              it = {[ "name" := JVal (PyStr heading);
                      "type" := JVal (PyStr "attraction");
                      "source" := link;
                      "description" := JVal (PyStr description) ]} /\
              existsb (fun word => str_in word (lower heading)) marker_words = true)
         (fst r).
Proof.
  cbv zeta. unfold get_web_based_recommendations.
  match goal with
  | |- context [scrape_results net ?l] =>
      destruct (scrape_results_ok net l) as (recs & -> & Hf)
  end.
  - apply Forall_firstn, web_search_link.
  - cbn [fst snd]. split; [reflexivity|]. split; [apply length_firstn_le|].
    now apply Forall_firstn.
Qed.

(** X23. [get_web_based_recommendations] always reaches the line that sets
    the web-search flag: every search result has a link, so nothing in
    its body raises.  It returns at most five items; each is an
    "attraction" named by a heading that holds "best", "top", "must-see"
    or "recommend" in any case of the letters, with the link it was found
    at and a description. *)
Theorem web_recommendations_are_marked_headings (keys : Keys) (net : Net)
  (destination : string) (interests : val) :
  snd (get_web_based_recommendations keys net destination interests) = true /\
  (List.length (fst (get_web_based_recommendations keys net destination interests))
   <= 5)%nat /\
  Forall (fun it : jitem =>
            dom it = {[ "name"; "type"; "source"; "description" ]} /\
            it !! "type" = Some (JVal (PyStr "attraction")) /\
            exists heading,
              it !! "name" = Some (JVal (PyStr heading)) /\
              existsb (fun word => mentions word heading) marker_words = true)
         (fst (get_web_based_recommendations keys net destination interests)).
Proof.
  destruct (web_recommendations keys net destination interests) as (Hs & Hl & Hf).
  cbv zeta in *. split; [exact Hs|]. split; [exact Hl|].
  eapply List.Forall_impl; [|exact Hf].
  intros it (heading & link & description & -> & Hm). split; [|split].
  - rewrite !dom_insert_L, dom_singleton_L. set_solver.
  - reflexivity.
  - exists heading. split; [reflexivity|exact Hm].
Qed.

(** *** Geocoding and weather *)

Lemma known_coordinates_database destination :
  In (lower destination) ["paris"; "rome"; "tokyo"] ->
  is_Some (known_coordinates destination).
Proof.
  unfold known_coordinates. intros H. simpl in H.
  destruct H as [<-|[<-|[<-|[]]]]; cbn; eauto.
Qed.

(** X24. [get_geocode] answers nothing without the Google key, whatever
    the destination: the table of known coordinates is read only after a
    request that succeeded.  With the key, an answer whose list of
    results is empty gives nothing either, since taking its first element
    raises; an answer without a "results" field gives the coordinates of
    the table, which exist for Paris, Rome and Tokyo in any case of the
    letters. *)
Theorem geocode_falls_back_after_a_request (keys : Keys) (net : Net)
  (destination : string) :
  (configured (GOOGLE_PLACES_API_KEY keys) = false ->
   get_geocode keys net destination = None) /\
  (forall fields,
      configured (GOOGLE_PLACES_API_KEY keys) = true ->
      geocode_api net destination = Some (JObj fields) ->
      (field "results" fields = Some (JArr []) ->
       get_geocode keys net destination = None) /\
      (field "results" fields = None ->
       get_geocode keys net destination = known_coordinates destination)) /\
  (In (lower destination) ["paris"; "rome"; "tokyo"] ->
   is_Some (known_coordinates destination)).
Proof.
  split; [|split].
  - intros H. unfold get_geocode. now rewrite H.
  - intros fields Hk Hd. unfold get_geocode. rewrite Hk, Hd. cbn [negb].
    split; intros Hr; cbn; rewrite Hr; reflexivity.
  - apply known_coordinates_database.
Qed.

Example geocode_of_paris :
  get_geocode no_keys sample_net "Paris" = None /\
  get_geocode all_keys sample_net "PARIS" = Some "48.8566,2.3522" /\
  get_geocode all_keys unreachable "Paris" = None.
Proof. repeat split; reflexivity. Qed.

Lemma weather_report_keys doc r :
  weather_report doc = Some r -> dom r = {[ "temp"; "conditions"; "icon" ]}.
Proof.
  unfold weather_report. intros H.
  repeat match type of H with
         | (?o ≫= _) = _ => destruct o; [cbn in H|discriminate H]
         end.
  injection H as <-. rewrite !dom_insert_L, dom_singleton_L. set_solver.
Qed.

Lemma first_forecast_keys date forecasts r :
  first_forecast date forecasts = Some (Some r) ->
  dom r = {[ "temp"; "conditions"; "icon" ]}.
Proof.
  induction forecasts as [|f forecasts IH]; cbn [first_forecast]; [discriminate|].
  destruct (jget f "dt_txt" _) as [dt|]; [cbn|discriminate].
  destruct (jcontains date dt) as [[]|]; [cbn|cbn; exact IH|discriminate].
  destruct (weather_report f) as [r'|] eqn:E; [cbn|discriminate].
  intros [= <-]. eapply weather_report_keys, E.
Qed.

(** X25. [get_weather_forecast] needs both the weather key and the Google
    key: when either is missing it returns nothing for every destination
    and date, so the schedule shows no weather.  What it returns
    otherwise is a dictionary with the three keys temp, conditions and
    icon. *)
Theorem weather_needs_both_keys (keys : Keys) (net : Net) (destination date : string) :
  (configured (WEATHER_API_KEY keys) && configured (GOOGLE_PLACES_API_KEY keys) = false ->
   get_weather_forecast keys net destination date = None) /\
  (forall r,
      get_weather_forecast keys net destination date = Some r ->
      dom r = {[ "temp"; "conditions"; "icon" ]}).
Proof.
  split.
  - intros H. unfold get_weather_forecast.
    destruct (configured (WEATHER_API_KEY keys)); [|reflexivity]. cbn in H.
    unfold get_geocode. now rewrite H.
  - intros r. unfold get_weather_forecast. cbv zeta.
    match goal with
    | |- default None ?b = _ -> _ =>
        assert (Hb : forall x, default None b = Some x -> b = Some (Some x))
          by (intros x; destruct b as [[?|]|]; cbn; congruence);
        intros H; apply Hb in H; clear Hb
    end.
    destruct (configured (WEATHER_API_KEY keys)); cbn [negb] in H; [|discriminate H].
    destruct (get_geocode keys net destination) as [geocode|]; [|discriminate H].
    destruct (String.eqb geocode ""); [discriminate H|].
    destruct (split "," geocode !! 0%nat) as [lat|]; [|discriminate H].
    destruct (split "," geocode !! 1%nat) as [lon|]; [|discriminate H].
    cbn [mbind option_bind] in H.
    destruct (forecast_api net lat lon) as [doc|]; [|discriminate H].
    cbn [mbind option_bind] in H.
    destruct (jget doc "list" _) as [l|]; [|discriminate H].
    cbn [mbind option_bind] in H.
    destruct (jiter l) as [forecasts|]; [|discriminate H].
    cbn [mbind option_bind] in H.
    destruct (first_forecast date forecasts) as [[r'|]|] eqn:E; [| |discriminate H].
    + injection H as <-. eapply first_forecast_keys, E.
    + cbn [mbind option_bind] in H.
      destruct (weather_api net lat lon) as [current|]; [|discriminate H].
      cbn [mbind option_bind] in H.
      destruct (weather_report current) as [r'|] eqn:Er; [|discriminate H].
      injection H as <-. eapply weather_report_keys, Er.
Qed.

Example weather_of_paris :
  get_weather_forecast {| GOOGLE_PLACES_API_KEY := None; TRIPADVISOR_API_KEY := None;
                          WEATHER_API_KEY := Some "w"; SERPER_API_KEY := None |}
    sample_net "Paris" "2026-01-01" = None /\
  get_weather_forecast all_keys sample_net "Paris" "2026-01-01"
  = Some {[ "temp" := JVal (PyDec 215 1); "conditions" := JVal (PyStr "clear sky");
            "icon" := JVal (PyStr "01d") ]}.
Proof. split; vm_compute; reflexivity. Qed.

(** *** Places and attractions *)

Lemma jslice_length n j l : jslice n j = Some l -> (List.length l <= n)%nat.
Proof.
  unfold jslice. destruct j as [v|a|f]; [| |discriminate];
    (destruct (jiter _) as [l0|]; [cbn|discriminate]);
    intros [= <-]; apply length_firstn_le.
Qed.

Lemma jslice_truthy n j : jtruthy j = true -> jslice (S n) j <> Some [].
Proof.
  unfold jslice, jtruthy. destruct j as [v|[|x a]|f]; try discriminate.
  destruct v as [| | | |s|l]; try discriminate.
  - destruct s; [discriminate|]. cbn. discriminate.
  - destruct l; [discriminate|]. cbn. discriminate.
Qed.

(** The places of an answer, as [get_google_places] returns them. *)
Lemma google_place_items (query : val) places items :
  mapM (fun place =>
          name ← jget place "name" (JVal PyNone);
          rating ← jget place "rating" (JVal PyNone);
          price_level ← jget place "price_level" (JVal (PyInt 0));
          location ← jget place "formatted_address" (JVal PyNone);
          Some ({[ "name" := name; "type" := JVal query;
                   "rating" := rating; "price_level" := price_level;
                   "location" := location ]} : jitem))
       places = Some items ->
  List.length items = List.length places /\
  Forall (fun it : jitem =>
            dom it = {[ "name"; "type"; "rating"; "price_level"; "location" ]} /\
            it !! "type" = Some (JVal query))
         items.
Proof.
  intros H. apply mapM_Some_1 in H. split.
  - symmetry. eapply Forall2_length, H.
  - induction H as [|place it places items Hp _ IH]; constructor; [|exact IH].
    repeat match type of Hp with
           | (?o ≫= _) = _ => destruct o; [cbn in Hp|discriminate Hp]
           end.
    injection Hp as <-. split; [|reflexivity].
    rewrite !dom_insert_L, dom_singleton_L. set_solver.
Qed.

(** X26. [get_google_places] either hands over to the web
    recommendations, which it does without the Google key, when the
    request fails and when it finds nothing, or returns between one and
    five places of its own; each of these has the keys name, type,
    rating, price_level and location, and its type is the query as it was
    passed, null when the accommodation preference is not set. *)
Theorem google_places_are_typed_by_the_query (keys : Keys) (net : Net)
  (destination : string) (query : val) (budget_filter : option Z) :
  (configured (GOOGLE_PLACES_API_KEY keys) = false ->
   get_google_places keys net destination query budget_filter
   = get_web_based_recommendations keys net destination query) /\
  (get_google_places keys net destination query budget_filter
   = get_web_based_recommendations keys net destination query \/
   exists items,
     get_google_places keys net destination query budget_filter = (items, false) /\
     (1 <= List.length items <= 5)%nat /\
     Forall (fun it : jitem =>
               dom it = {[ "name"; "type"; "rating"; "price_level"; "location" ]} /\
               it !! "type" = Some (JVal query))
            items).
Proof.
  unfold get_google_places. cbv zeta. split.
  - intros ->. reflexivity.
  - destruct (configured (GOOGLE_PLACES_API_KEY keys)); [|left; reflexivity]. cbn [negb].
    destruct (places_api net _ _) as [doc|]; [|left; reflexivity].
    cbn [mbind option_bind].
    destruct (jget doc "results" _) as [results|]; [|left; reflexivity].
    cbn [mbind option_bind].
    destruct (jtruthy results) eqn:Et; [|left; reflexivity]. cbn [negb].
    destruct (jslice 5 results) as [places|] eqn:Es; [|left; reflexivity].
    cbn [mbind option_bind].
    match goal with
    | |- context [mapM ?f places] => destruct (mapM f places) as [items|] eqn:Em
    end; [|left; reflexivity].
    right. exists items. split; [reflexivity|].
    destruct (google_place_items _ _ _ Em) as [Hl Hf]. split; [|exact Hf].
    rewrite Hl. split; [|eapply jslice_length, Es].
    destruct places; [|cbn; lia]. now apply jslice_truthy in Es.
Qed.

Example google_places_without_preference :
  map (lookup "type") (fst (get_google_places all_keys sample_net "Paris" PyNone (Some 2)))
  = [Some (JVal PyNone); Some (JVal PyNone)] /\
  get_google_places no_keys sample_net "Paris" PyNone (Some 2)
  = get_web_based_recommendations no_keys sample_net "Paris" PyNone.
Proof. split; vm_compute; reflexivity. Qed.

Lemma named_after_sound interests results kept :
  named_after interests results = Some kept ->
  Forall (fun r =>
            exists name,
              jget r "name" (JVal (PyStr "")) = Some (JVal (PyStr name)) /\
              existsb (fun i => str_in (lower i) (lower name)) interests = true)
         kept.
Proof.
  revert kept. induction results as [|r results IH]; intros kept; cbn [named_after].
  - intros [= <-]. constructor.
  - destruct (jget r "name" _) as [name|] eqn:En; [|discriminate]. cbn [mbind option_bind].
    destruct (jlower name) as [n|] eqn:El; [|discriminate]. cbn [mbind option_bind].
    destruct (named_after interests results) as [kept'|]; [|discriminate].
    cbn [mbind option_bind]. intros [= <-].
    destruct (existsb _ interests) eqn:Ee; [|now apply IH].
    constructor; [|now apply IH].
    destruct name as [[| | | |s|]| |]; try discriminate El. injection El as <-.
    exists s. split; [exact En|exact Ee].
Qed.

(** A name that holds a non-empty interest is a field of the place. *)
Lemma named_field r name interests :
  jget r "name" (JVal (PyStr "")) = Some (JVal (PyStr name)) ->
  existsb (fun i => str_in (lower i) (lower name)) interests = true ->
  Forall (fun i => i <> "") interests ->
  jget r "name" (JVal PyNone) = Some (JVal (PyStr name)).
Proof.
  unfold jget. destruct r as [| |fields]; try discriminate.
  destruct (field "name" fields) as [j|]; [auto|]. cbn. intros [= <-] He Hi. exfalso.
  apply existsb_exists in He as (i & Hin & Hs).
  rewrite List.Forall_forall in Hi. specialize (Hi _ Hin).
  destruct i; [congruence|]. discriminate Hs.
Qed.

(** X27. [get_tripadvisor_attractions] hands over to the web
    recommendations without its key and when anything raises; otherwise
    it returns at most five attractions, possibly none, each with the
    keys name, type, rating and location and the type "attraction".
    With interests, none of them empty, every attraction returned has a
    name that is a text and holds one of the interests, in any case of
    the letters. *)
Theorem tripadvisor_attractions_match_interests (keys : Keys) (net : Net)
  (destination : string) (interests : option (list string)) :
  let web := get_web_based_recommendations keys net destination
               (match interests with
                | Some (i :: l) => PyList (i :: l)
                | _ => PyStr "attractions"
                end) in
  (configured (TRIPADVISOR_API_KEY keys) = false ->
   get_tripadvisor_attractions keys net destination interests = web) /\
  (get_tripadvisor_attractions keys net destination interests = web \/
   exists items,
     get_tripadvisor_attractions keys net destination interests = (items, false) /\
     (List.length items <= 5)%nat /\
     Forall (fun it : jitem =>
               dom it = {[ "name"; "type"; "rating"; "location" ]} /\
               it !! "type" = Some (JVal (PyStr "attraction")))
            items /\
     forall i l,
       interests = Some (i :: l) -> Forall (fun i => i <> "") (i :: l) ->
       Forall (fun it : jitem =>
                 exists name,
                   it !! "name" = Some (JVal (PyStr name)) /\
                   existsb (fun i => str_in (lower i) (lower name)) (i :: l) = true)
              items).
Proof.
  unfold get_tripadvisor_attractions. cbv zeta. split.
  - intros ->. reflexivity.
  - destruct (configured (TRIPADVISOR_API_KEY keys)); [|left; reflexivity]. cbn [negb].
    destruct (tripadvisor_api net _ _) as [doc|]; [|left; reflexivity].
    cbn [mbind option_bind].
    destruct (jget doc "data" _) as [results|]; [|left; reflexivity].
    cbn [mbind option_bind].
    match goal with
    | |- context [(?c ≫= _)] =>
        match c with
        | match interests with _ => _ end => destruct c as [places|] eqn:Ep
        end
    end; [|left; reflexivity].
    cbn [mbind option_bind].
    match goal with
    | |- context [mapM ?f places] => destruct (mapM f places) as [items|] eqn:Em
    end; [|left; reflexivity].
    right. exists items. split; [reflexivity|].
    apply mapM_Some_1 in Em.
    assert (Hlen : (List.length places <= 5)%nat).
    { destruct interests as [[|i l]|]; try (eapply jslice_length, Ep).
      destruct (jiter results) as [rs|]; [|discriminate]. cbn [mbind option_bind] in Ep.
      destruct (named_after (i :: l) rs); [|discriminate]. cbn [mbind option_bind] in Ep.
      injection Ep as <-. apply length_firstn_le. }
    split; [rewrite <- (Forall2_length _ _ _ Em); exact Hlen|]. split.
    + clear Ep Hlen. induction Em as [|place it places items Hp _ IH]; constructor;
        [|exact IH].
      repeat match type of Hp with
             | (?o ≫= _) = _ => destruct o; [cbn in Hp|discriminate Hp]
             end.
      injection Hp as <-. split; [|reflexivity].
      rewrite !dom_insert_L, dom_singleton_L. set_solver.
    + intros i l -> Hne.
      destruct (jiter results) as [rs|]; [|discriminate]. cbn [mbind option_bind] in Ep.
      destruct (named_after (i :: l) rs) as [kept|] eqn:Ek; [|discriminate].
      cbn [mbind option_bind] in Ep. injection Ep as <-.
      apply named_after_sound in Ek. apply (Forall_firstn _ 5) in Ek.
      clear Hlen. induction Em as [|place it places items Hp _ IH]; constructor.
      * inversion Ek as [|? ? (name & Hn & He) _]; subst.
        rewrite (named_field _ _ _ Hn He Hne) in Hp. cbn [mbind option_bind] in Hp.
        repeat match type of Hp with
               | (?o ≫= _) = _ => destruct o; [cbn in Hp|discriminate Hp]
               end.
        injection Hp as <-. exists name. split; [reflexivity|exact He].
      * apply IH. now inversion Ek.
Qed.

Example tripadvisor_for_art :
  map (lookup "name")
      (fst (get_tripadvisor_attractions all_keys sample_net "Paris" (Some ["Art"])))
  = [Some (JVal (PyStr "Art Museum"))] /\
  get_tripadvisor_attractions no_keys sample_net "Paris" (Some ["Art"])
  = get_web_based_recommendations no_keys sample_net "Paris" (PyList ["Art"]).
Proof. split; vm_compute; reflexivity. Qed.

(** X28. Whatever the profile and the providers, and whether the
    composition returns an itinerary or the error line,
    [generate_detailed_itinerary] leaves the profile, the conversation and
    the current question of the session as they were; it never lowers the
    web-search flag, and it only consumes random draws. *)
Theorem generation_only_touches_flag_and_draws (w : World) (p : gmap string val)
  (st : Session) :
  let st' := snd (generate_detailed_itinerary w p st) in
  user_info st' = user_info st /\
  conversation st' = conversation st /\
  current_question st' = current_question st /\
  (used_web_search st = true -> used_web_search st' = true) /\
  (rng_pos st <= rng_pos st')%nat.
Proof. exact (keeps_generate w p st). Qed.
